(** * cmd-builder: a fluent builder and factory over os/exec

    A shallow embedding of [cmd.go] (package [builder]).  The package is
    glue over Go's standard library, so the development has two layers:

    - the part of the Go standard library the package calls ([unicode/utf8],
      [unicode], [strings], [io], [os], [os/exec]), written after the
      library's code and documentation;
    - the package itself: [Cmd], [Shell], the [CmdBuilder] methods and the
      [CmdFactory] methods, written after [cmd.go] line by line.

    Go values that are shared and mutated (the [*exec.Cmd] behind a builder,
    the backing array of an environment slice, the writers a process writes
    to) live in an explicit store; the methods are state transformers on
    that store. *)

From Stdlib Require Import ZArith String Ascii List Lia Bool.
From stdpp Require Import base option list gmap.

(** ** Go strings

    A Go string is an immutable sequence of bytes; [s[i]] is a byte, [len(s)]
    counts bytes, and text is UTF-8 only by convention. *)

Abbreviation gostring := (list ascii).

(** A string literal of the source. *)
Definition go (s : string) : gostring := list_ascii_of_string s.

Definition byteZ (c : ascii) : Z := Z.of_N (N_of_ascii c).

Definition len (s : gostring) : Z := Z.of_nat (length s).

(** [s[i]], for an index within range. *)
Definition idx (s : gostring) (i : Z) : Z := byteZ (nth (Z.to_nat i) s zero).

(** [s[a:]], [s[:b]] and [s[a:b]]. *)
Definition from (s : gostring) (a : Z) : gostring := drop (Z.to_nat a) s.
Definition upto (s : gostring) (b : Z) : gostring := take (Z.to_nat b) s.
Definition sub (s : gostring) (a b : Z) : gostring := upto (from s a) (b - a).

Definition CR : ascii := "013"%char.
Definition LF : ascii := "010"%char.

(** ** unicode/utf8 *)

Module utf8.
Local Open Scope Z_scope.

Definition RuneError : Z := 0xFFFD.
Definition RuneSelf : Z := 0x80.
Definition UTFMax : Z := 4.

Definition maskx : Z := 0x3F.
Definition mask2 : Z := 0x1F.
Definition mask3 : Z := 0x0F.
Definition mask4 : Z := 0x07.

Definition locb : Z := 0x80.
Definition hicb : Z := 0xBF.

(** The codes of the [first] table: the low three bits are the length of
    the sequence, the high four bits index [acceptRanges]. *)
Definition xx : Z := 0xF1.
Definition as_ : Z := 0xF0.
Definition s1 : Z := 0x02.
Definition s2 : Z := 0x13.
Definition s3 : Z := 0x03.
Definition s4 : Z := 0x23.
Definition s5 : Z := 0x34.
Definition s6 : Z := 0x04.
Definition s7 : Z := 0x44.

Definition first (b : Z) : Z :=
  if b <? 0x80 then as_
  else if b <? 0xC2 then xx
  else if b <? 0xE0 then s1
  else if b =? 0xE0 then s2
  else if b <? 0xED then s3
  else if b =? 0xED then s4
  else if b <? 0xF0 then s3
  else if b =? 0xF0 then s5
  else if b <? 0xF4 then s6
  else if b =? 0xF4 then s7
  else xx.

Definition acceptRanges (i : Z) : Z * Z :=
  match i with
  | 0 => (locb, hicb)
  | 1 => (0xA0, hicb)
  | 2 => (locb, 0x9F)
  | 3 => (0x90, hicb)
  | 4 => (locb, 0x8F)
  | _ => (0, 0)
  end.

(** A value of Go's [int32] after wrap-around. *)
Definition int32 (z : Z) : Z := (z + 2 ^ 31) mod 2 ^ 32 - 2 ^ 31.

(** [DecodeRuneInString]: the first rune of [s] and its width in bytes;
    [(RuneError, 0)] on the empty string, [(RuneError, 1)] on an invalid
    encoding. *)
Definition DecodeRuneInString (s : gostring) : Z * Z :=
  let n := len s in
  if n <? 1 then (RuneError, 0) else
  let s0 := idx s 0 in
  let x := first s0 in
  if x >=? as_ then
    let mask := Z.shiftr (int32 (Z.shiftl x 31)) 31 in
    (Z.lor (Z.ldiff s0 mask) (Z.land RuneError mask), 1)
  else
  let sz := Z.land x 7 in
  let accept := acceptRanges (Z.shiftr x 4) in
  if n <? sz then (RuneError, 1) else
  let b1 := idx s 1 in
  if (b1 <? fst accept) || (snd accept <? b1) then (RuneError, 1) else
  if sz <=? 2 then
    (Z.lor (Z.shiftl (Z.land s0 mask2) 6) (Z.land b1 maskx), 2)
  else
  let b2 := idx s 2 in
  if (b2 <? locb) || (hicb <? b2) then (RuneError, 1) else
  if sz <=? 3 then
    (Z.lor (Z.lor (Z.shiftl (Z.land s0 mask3) 12)
                  (Z.shiftl (Z.land b1 maskx) 6))
           (Z.land b2 maskx), 3)
  else
  let b3 := idx s 3 in
  if (b3 <? locb) || (hicb <? b3) then (RuneError, 1) else
  (Z.lor (Z.lor (Z.lor (Z.shiftl (Z.land s0 mask4) 18)
                       (Z.shiftl (Z.land b1 maskx) 12))
                (Z.shiftl (Z.land b2 maskx) 6))
         (Z.land b3 maskx), 4).

Definition RuneStart (b : Z) : bool := negb (Z.land b 0xC0 =? 0x80).

(** The loop [for start--; start >= lim; start-- { if RuneStart(s[start])
    { break } }], entered with [start] already decremented.  It runs at
    most [start - lim + 1] times, which is the fuel it is given. *)
Fixpoint scanBack (fuel : nat) (s : gostring) (lim start : Z) : Z :=
  match fuel with
  | O => start
  | S fuel' =>
      if start <? lim then start
      else if RuneStart (idx s start) then start
      else scanBack fuel' s lim (start - 1)
  end.

(** [DecodeLastRuneInString]: the last rune of [s] and its width. *)
Definition DecodeLastRuneInString (s : gostring) : Z * Z :=
  let end_ := len s in
  if end_ =? 0 then (RuneError, 0) else
  let start := end_ - 1 in
  let r := idx s start in
  if r <? RuneSelf then (r, 1) else
  let lim := end_ - UTFMax in
  let lim := if lim <? 0 then 0 else lim in
  let start := scanBack (Z.to_nat (start - 1 - lim + 1)) s lim (start - 1) in
  let start := if start <? 0 then 0 else start in
  let '(r, size) := DecodeRuneInString (sub s start end_) in
  if negb (start + size =? end_) then (RuneError, 1) else (r, size).

(** [for range s]: the number of runes of [s]. *)
Fixpoint RuneCount (fuel : nat) (s : gostring) : Z :=
  match fuel with
  | O => 0
  | S fuel' =>
      if len s <? 1 then 0
      else 1 + RuneCount fuel' (from s (snd (DecodeRuneInString s)))
  end.

Definition RuneCountInString (s : gostring) : Z := RuneCount (length s) s.
End utf8.

(** ** unicode *)

Module unicode.
Local Open Scope Z_scope.

Definition MaxLatin1 : Z := 0xFF.

(** The [White_Space] range table past Latin-1 (ranges of stride 1). *)
Definition White_Space : list (Z * Z) :=
  [ (0x1680, 0x1680); (0x2000, 0x200a); (0x2028, 0x2029);
    (0x202f, 0x202f); (0x205f, 0x205f); (0x3000, 0x3000) ].

Definition isExcludingLatin (tab : list (Z * Z)) (r : Z) : bool :=
  existsb (fun '(lo, hi) => (lo <=? r) && (r <=? hi)) tab.

(** A rune ([int32]) converted to [uint32]. *)
Definition uint32 (r : Z) : Z := r mod 2 ^ 32.

Definition IsSpace (r : Z) : bool :=
  if uint32 r <=? MaxLatin1 then
    (r =? 0x09) || (r =? 0x0A) || (r =? 0x0B) || (r =? 0x0C) || (r =? 0x0D)
    || (r =? 0x20) || (r =? 0x85) || (r =? 0xA0)
  else isExcludingLatin White_Space r.
End unicode.

(** ** strings *)

Module strings.
Local Open Scope Z_scope.

(** [asciiSpace]: the table [{'\t': 1, '\n': 1, '\v': 1, '\f': 1, '\r': 1,
    ' ': 1}], zero elsewhere. *)
Definition asciiSpace (c : Z) : Z :=
  if (c =? 0x09) || (c =? 0x0A) || (c =? 0x0B) || (c =? 0x0C) || (c =? 0x0D)
     || (c =? 0x20)
  then 1 else 0.

(** [for i, r := range s { if f(r) == truth { return i } }; return -1],
    from byte offset [i]; every round advances by at least one byte. *)
Fixpoint indexFuncFrom (fuel : nat) (s : gostring) (f : Z -> bool)
    (truth : bool) (i : Z) : Z :=
  match fuel with
  | O => -1
  | S fuel' =>
      if len s <=? i then -1 else
      let '(r, w) := utf8.DecodeRuneInString (from s i) in
      if eqb (f r) truth then i
      else indexFuncFrom fuel' s f truth (i + w)
  end.

Definition indexFunc (s : gostring) (f : Z -> bool) (truth : bool) : Z :=
  indexFuncFrom (length s) s f truth 0.

(** [for i := len(s); i > 0; { r, size := DecodeLastRuneInString(s[0:i]);
    i -= size; if f(r) == truth { return i } }; return -1]. *)
Fixpoint lastIndexFuncFrom (fuel : nat) (s : gostring) (f : Z -> bool)
    (truth : bool) (i : Z) : Z :=
  match fuel with
  | O => -1
  | S fuel' =>
      if i <=? 0 then -1 else
      let '(r, size) := utf8.DecodeLastRuneInString (sub s 0 i) in
      let i := i - size in
      if eqb (f r) truth then i
      else lastIndexFuncFrom fuel' s f truth i
  end.

Definition lastIndexFunc (s : gostring) (f : Z -> bool) (truth : bool) : Z :=
  lastIndexFuncFrom (length s) s f truth (len s).

Definition TrimLeftFunc (s : gostring) (f : Z -> bool) : gostring :=
  let i := indexFunc s f false in
  if i =? -1 then [] else from s i.

Definition TrimRightFunc (s : gostring) (f : Z -> bool) : gostring :=
  let i := lastIndexFunc s f false in
  let i :=
    if (0 <=? i) && (utf8.RuneSelf <=? idx s i)
    then i + snd (utf8.DecodeRuneInString (from s i))
    else i + 1 in
  sub s 0 i.

Definition TrimFunc (s : gostring) (f : Z -> bool) : gostring :=
  TrimRightFunc (TrimLeftFunc s f) f.

(** The first loop of [TrimSpace]: [inl start] when the loop is left (by
    [break] or by its condition), [inr r] when the function returns [r]
    from inside it. *)
Fixpoint trimSpaceStart (fuel : nat) (s : gostring) (start : Z)
    : Z + gostring :=
  match fuel with
  | O => inl start
  | S fuel' =>
      if len s <=? start then inl start else
      let c := idx s start in
      if utf8.RuneSelf <=? c then
        inr (TrimFunc (from s start) unicode.IsSpace)
      else if asciiSpace c =? 0 then inl start
      else trimSpaceStart fuel' s (start + 1)
  end.

(** The second loop of [TrimSpace], with the same convention. *)
Fixpoint trimSpaceStop (fuel : nat) (s : gostring) (start stop : Z)
    : Z + gostring :=
  match fuel with
  | O => inl stop
  | S fuel' =>
      if stop <=? start then inl stop else
      let c := idx s (stop - 1) in
      if utf8.RuneSelf <=? c then
        inr (TrimRightFunc (sub s start stop) unicode.IsSpace)
      else if asciiSpace c =? 0 then inl stop
      else trimSpaceStop fuel' s start (stop - 1)
  end.

(** [TrimSpace]: [s] without its leading and trailing white space, as
    Unicode defines it. *)
Definition TrimSpace (s : gostring) : gostring :=
  match trimSpaceStart (length s) s 0 with
  | inr r => r
  | inl start =>
      match trimSpaceStop (length s) s start (len s) with
      | inr r => r
      | inl stop => sub s start stop
      end
  end.

Fixpoint HasPrefix (s prefix : gostring) : bool :=
  match prefix, s with
  | [], _ => true
  | p :: prefix', c :: s' => Ascii.eqb p c && HasPrefix s' prefix'
  | _ :: _, [] => false
  end.

(** [Index]: the index of the first instance of [substr] in [s], or [-1]. *)
Fixpoint Index (s substr : gostring) : Z :=
  if HasPrefix s substr then 0 else
  match s with
  | [] => -1
  | _ :: s' => let i := Index s' substr in if i <? 0 then -1 else i + 1
  end.

(** The loop of [Count]: [for { i := Index(s, substr); if i == -1 { return
    n }; n++; s = s[i+len(substr):] }]. *)
Fixpoint countLoop (fuel : nat) (s substr : gostring) (n : Z) : Z :=
  match fuel with
  | O => n
  | S fuel' =>
      let i := Index s substr in
      if i =? -1 then n
      else countLoop fuel' (from s (i + len substr)) substr (n + 1)
  end.

(** [Count]: the number of non-overlapping instances of [substr] in [s];
    for an empty [substr], one more than the number of runes of [s]. *)
Definition Count (s substr : gostring) : Z :=
  if len substr =? 0 then utf8.RuneCountInString s + 1
  else countLoop (S (length s)) s substr 0.

(** The loop of [Replace], [for i := 0; i < n; i++ { ... }], with the
    builder [b] and [start] threaded through; the result is what remains
    to be written after the loop, [b] then [s[start:]]. *)
Fixpoint replaceLoop (rounds : nat) (s old new : gostring) (i start : Z)
    (b : gostring) : gostring :=
  match rounds with
  | O => b ++ from s start
  | S rounds' =>
      let j :=
        if len old =? 0 then
          if 0 <? i
          then start + snd (utf8.DecodeRuneInString (from s start))
          else start
        else start + Index (from s start) old in
      replaceLoop rounds' s old new (i + 1) (j + len old)
        (b ++ sub s start j ++ new)
  end.

Definition gostring_eqb (a b : gostring) : bool :=
  bool_decide (a = b).

Definition Replace (s old new : gostring) (n : Z) : gostring :=
  if gostring_eqb old new || (n =? 0) then s else
  let m := Count s old in
  if m =? 0 then s else
  let n := if (n <? 0) || (m <? n) then m else n in
  replaceLoop (Z.to_nat n) s old new 0 0 [].

Definition ReplaceAll (s old new : gostring) : gostring :=
  Replace s old new (-1).

(** [explode]: [s] cut into its UTF-8 sequences, at most [n] of them. *)
Fixpoint explodeLoop (rounds : nat) (s : gostring) : list gostring * gostring :=
  match rounds with
  | O => ([], s)
  | S rounds' =>
      let size := snd (utf8.DecodeRuneInString s) in
      let '(a, rest) := explodeLoop rounds' (from s size) in
      (upto s size :: a, rest)
  end.

Definition explode (s : gostring) (n : Z) : list gostring :=
  let l := utf8.RuneCountInString s in
  let n := if (n <? 0) || (l <? n) then l else n in
  let '(a, rest) := explodeLoop (Z.to_nat (n - 1)) s in
  if 0 <? n then a ++ [rest] else a.

(** The loop of [genSplit]: [for i < n { m := Index(s, sep); if m < 0 {
    break }; a[i] = s[:m+sepSave]; s = s[m+len(sep):]; i++ }] followed by
    [a[i] = s; return a[:i+1]]; [rounds] is [n - i]. *)
Fixpoint genSplitLoop (rounds : nat) (s sep : gostring) (sepSave : Z)
    : list gostring :=
  match rounds with
  | O => [s]
  | S rounds' =>
      let m := Index s sep in
      if m <? 0 then [s]
      else upto s (m + sepSave)
           :: genSplitLoop rounds' (from s (m + len sep)) sep sepSave
  end.

(** [genSplit]; the result [nil] is the empty list. *)
Definition genSplit (s sep : gostring) (sepSave n : Z) : list gostring :=
  if n =? 0 then [] else
  if len sep =? 0 then explode s n else
  let n := if n <? 0 then Count s sep + 1 else n in
  let n := if len s + 1 <? n then len s + 1 else n in
  genSplitLoop (Z.to_nat (n - 1)) s sep sepSave.

Definition Split (s sep : gostring) : list gostring := genSplit s sep 0 (-1).
End strings.

(** ** The store

    Pointers are indices into append-only tables: a table never shrinks, so
    the index one past its end is the address of the next allocation and is
    not the address of anything allocated before. *)

Abbreviation loc := nat.

(** A [[]string] value: a window on a backing array. *)
Record Slice := {
  s_array : loc;   (* the backing array *)
  s_off : nat;     (* where the window starts in it *)
  s_len : nat;
  s_cap : nat
}.

(** ** io *)

Module io.
(** What stands behind a reader or a plain writer: an [*os.File], or an
    in-memory object that keeps what it is given, such as a
    [*bytes.Buffer]. *)
Inductive Stream :=
| File (fd : nat)
| Buffer (b : loc).

#[global] Instance Stream_eq_dec : EqDecision Stream.
Proof. solve_decision. Defined.

Definition Reader := Stream.

(** A writer is a plain stream or the [*multiWriter] that
    [io.MultiWriter] builds. *)
Inductive Writer :=
| Plain (s : Stream)
| multiWriter (writers : list Stream).

(** [io.MultiWriter(writers...)]: the writer that duplicates its writes
    to all of [writers]; a [*multiWriter] among them is replaced by its
    own members. *)
Definition MultiWriter (writers : list Writer) : Writer :=
  multiWriter
    (flat_map (fun w => match w with
                        | Plain s => [s]
                        | multiWriter ws => ws
                        end) writers).

Definition members (w : Writer) : list Stream :=
  match w with
  | Plain s => [s]
  | multiWriter ws => ws
  end.
End io.

(** ** os/exec: the types *)

Module exec.
(** The errors of the package and of the system underneath.  For an
    [*ExitError] the exit status is kept; the text of standard error that
    [Output] attaches to it is not. *)
Inductive Error :=
| ErrAlreadyStarted          (* "exec: already started" *)
| ErrNoCommand               (* "exec: no command" *)
| ErrNotStarted              (* "exec: not started" *)
| ErrWaitAlreadyCalled       (* "exec: Wait was already called" *)
| ErrStdoutAlreadySet        (* "exec: Stdout already set" *)
| SysError (errno : nat)     (* from LookPath or os.StartProcess *)
| ExitError (status : Z).    (* the process ran and did not succeed *)

(** What a process does once created: the bytes it writes to its standard
    output and standard error, and its exit status (0 is success). *)
Record Outcome := {
  stdout : gostring;
  stderr : gostring;
  status : Z
}.

(** [exec.Cmd].  [Process] is non-nil once [Start] has created the
    process, and [ProcessState] once [Wait] has returned; the unexported
    [startCalled] records that [Start] was attempted, whatever came of
    it. *)
Record Cmd := {
  Path : gostring;
  Args : list gostring;
  Env : Slice;
  Dir : gostring;
  Stdin : option io.Reader;
  Stdout : option io.Writer;
  Stderr : option io.Writer;
  Err : option Error;
  Process : option Outcome;
  ProcessState : option Z;
  startCalled : bool
}.

Definition set_Env (v : Slice) (c : Cmd) : Cmd :=
  {| Path := Path c; Args := Args c; Env := v; Dir := Dir c;
     Stdin := Stdin c; Stdout := Stdout c; Stderr := Stderr c;
     Err := Err c; Process := Process c; ProcessState := ProcessState c;
     startCalled := startCalled c |}.
Definition set_Dir (v : gostring) (c : Cmd) : Cmd :=
  {| Path := Path c; Args := Args c; Env := Env c; Dir := v;
     Stdin := Stdin c; Stdout := Stdout c; Stderr := Stderr c;
     Err := Err c; Process := Process c; ProcessState := ProcessState c;
     startCalled := startCalled c |}.
Definition set_Stdin (v : option io.Reader) (c : Cmd) : Cmd :=
  {| Path := Path c; Args := Args c; Env := Env c; Dir := Dir c;
     Stdin := v; Stdout := Stdout c; Stderr := Stderr c;
     Err := Err c; Process := Process c; ProcessState := ProcessState c;
     startCalled := startCalled c |}.
Definition set_Stdout (v : option io.Writer) (c : Cmd) : Cmd :=
  {| Path := Path c; Args := Args c; Env := Env c; Dir := Dir c;
     Stdin := Stdin c; Stdout := v; Stderr := Stderr c;
     Err := Err c; Process := Process c; ProcessState := ProcessState c;
     startCalled := startCalled c |}.
Definition set_Stderr (v : option io.Writer) (c : Cmd) : Cmd :=
  {| Path := Path c; Args := Args c; Env := Env c; Dir := Dir c;
     Stdin := Stdin c; Stdout := Stdout c; Stderr := v;
     Err := Err c; Process := Process c; ProcessState := ProcessState c;
     startCalled := startCalled c |}.
Definition set_Err (v : option Error) (c : Cmd) : Cmd :=
  {| Path := Path c; Args := Args c; Env := Env c; Dir := Dir c;
     Stdin := Stdin c; Stdout := Stdout c; Stderr := Stderr c;
     Err := v; Process := Process c; ProcessState := ProcessState c;
     startCalled := startCalled c |}.
Definition set_Process (v : option Outcome) (c : Cmd) : Cmd :=
  {| Path := Path c; Args := Args c; Env := Env c; Dir := Dir c;
     Stdin := Stdin c; Stdout := Stdout c; Stderr := Stderr c;
     Err := Err c; Process := v; ProcessState := ProcessState c;
     startCalled := startCalled c |}.
Definition set_ProcessState (v : option Z) (c : Cmd) : Cmd :=
  {| Path := Path c; Args := Args c; Env := Env c; Dir := Dir c;
     Stdin := Stdin c; Stdout := Stdout c; Stderr := Stderr c;
     Err := Err c; Process := Process c; ProcessState := v;
     startCalled := startCalled c |}.
Definition set_startCalled (v : bool) (c : Cmd) : Cmd :=
  {| Path := Path c; Args := Args c; Env := Env c; Dir := Dir c;
     Stdin := Stdin c; Stdout := Stdout c; Stderr := Stderr c;
     Err := Err c; Process := Process c; ProcessState := ProcessState c;
     startCalled := v |}.
End exec.

(** ** The host

    What the calling process and the operating system contribute: the
    program is verified for every host. *)
Record Host := {
  (** [runtime.GOOS] *)
  GOOS : gostring;
  (** the environment table of the calling process, [syscall.envs]; an
      entry that was unset is the empty string *)
  envs : list gostring;
  (** [filepath.Base] *)
  Base : gostring -> gostring;
  (** [exec.LookPath]: the path found, and the error if any *)
  LookPath : gostring -> gostring * option exec.Error;
  (** [os.StartProcess] and the life of the process it creates, for a
      path, an argument vector, a working directory, an environment and a
      standard input *)
  StartProcess : gostring -> list gostring -> gostring -> list gostring ->
                 option io.Reader -> exec.Error + exec.Outcome;
  (** the capacity [growslice] leaves unused past the length asked for,
      from the old capacity and the new length *)
  spare : nat -> nat -> nat
}.

(** [CmdBuilder] of [cmd.go]: [cmd] points to the [exec.Cmd]. *)
Record CmdBuilder := { cmd : loc }.

Record Store := {
  cmds : list exec.Cmd;               (* the exec.Cmd objects *)
  builders : list CmdBuilder;         (* the CmdBuilder objects *)
  arrays : list (list gostring);      (* the backing arrays of []string *)
  buffers : list gostring;            (* what each in-memory stream holds *)
  files : gmap nat gostring           (* what was written to each file *)
}.

Definition set_cmds (v : list exec.Cmd) (st : Store) : Store :=
  {| cmds := v; builders := builders st; arrays := arrays st;
     buffers := buffers st; files := files st |}.
Definition set_builders (v : list CmdBuilder) (st : Store) : Store :=
  {| cmds := cmds st; builders := v; arrays := arrays st;
     buffers := buffers st; files := files st |}.
Definition set_arrays (v : list (list gostring)) (st : Store) : Store :=
  {| cmds := cmds st; builders := builders st; arrays := v;
     buffers := buffers st; files := files st |}.
Definition set_buffers (v : list gostring) (st : Store) : Store :=
  {| cmds := cmds st; builders := builders st; arrays := arrays st;
     buffers := v; files := files st |}.
Definition set_files (v : gmap nat gostring) (st : Store) : Store :=
  {| cmds := cmds st; builders := builders st; arrays := arrays st;
     buffers := buffers st; files := v |}.

Definition empty_store : Store :=
  {| cmds := []; builders := []; arrays := []; buffers := []; files := ∅ |}.

(** A computation on the store; [None] is a panic (a nil or dangling
    pointer dereferenced). *)
Definition M (A : Type) : Type := Store -> option (A * Store).

#[global] Instance M_ret : MRet M := fun A a st => Some (a, st).
#[global] Instance M_bind : MBind M := fun A B k m st =>
  match m st with
  | Some (a, st') => k a st'
  | None => None
  end.

Definition get : M Store := fun st => Some (st, st).
Definition modify (f : Store -> Store) : M unit := fun st => Some (tt, f st).
Definition panic {A} : M A := fun _ => None.

(** [&exec.Cmd{...}] *)
Definition newCmd (c : exec.Cmd) : M loc :=
  st ← get; modify (set_cmds (cmds st ++ [c]));; mret (length (cmds st)).

(** [*p], for [p] a [*exec.Cmd] *)
Definition getCmd (p : loc) : M exec.Cmd :=
  st ← get; match cmds st !! p with Some c => mret c | None => panic end.

(** [p.f = v]: the field update [upd] applied to the object at [p] *)
Definition modifyCmd (p : loc) (upd : exec.Cmd -> exec.Cmd) : M unit :=
  c ← getCmd p; modify (fun st => set_cmds (<[p := upd c]> (cmds st)) st).

(** [&CmdBuilder{...}] *)
Definition newBuilder (b : CmdBuilder) : M loc :=
  st ← get; modify (set_builders (builders st ++ [b]));;
  mret (length (builders st)).

Definition getBuilder (p : loc) : M CmdBuilder :=
  st ← get; match builders st !! p with Some b => mret b | None => panic end.

(** [var b bytes.Buffer], its address taken *)
Definition newBuffer : M loc :=
  st ← get; modify (set_buffers (buffers st ++ [[]]));;
  mret (length (buffers st)).

(** [b.Bytes()] *)
Definition readBuffer (b : loc) : M gostring :=
  st ← get; mret (default [] (buffers st !! b)).

(** What a stream has received so far. *)
Definition received (st : Store) (s : io.Stream) : gostring :=
  match s with
  | io.File fd => default [] (files st !! fd)
  | io.Buffer b => default [] (buffers st !! b)
  end.

Definition writeStream (p : gostring) (st : Store) (s : io.Stream) : Store :=
  match s with
  | io.File fd => set_files (<[fd := default [] (files st !! fd) ++ p]> (files st)) st
  | io.Buffer b => set_buffers (alter (fun d => d ++ p) b (buffers st)) st
  end.

(** [w.Write(p)]: a multiWriter writes to its members one after the other. *)
Definition writeTo (w : io.Writer) (p : gostring) : M unit :=
  modify (fun st => foldl (writeStream p) st (io.members w)).

(** The elements of a slice. *)
Definition elems (st : Store) (s : Slice) : list gostring :=
  take (s_len s) (drop (s_off s) (default [] (arrays st !! s_array s))).

(** [make([]string, 0, n)] followed by appends of [vs] that fit: a new
    array of [n] strings of which the first are [vs]. *)
Definition newArray (vs : list gostring) (n : nat) : M Slice :=
  st ← get;
  modify (set_arrays (arrays st ++ [vs ++ replicate (n - length vs) []]));;
  mret {| s_array := length (arrays st); s_off := 0;
          s_len := length vs; s_cap := n |}.

(** [append(s, vs...)]: in place when the capacity allows, and in a new
    array otherwise. *)
Definition append (h : Host) (s : Slice) (vs : list gostring) : M Slice :=
  let n := s_len s + length vs in
  if n <=? s_cap s then
    modify (fun st =>
      set_arrays (alter (list_inserts (s_off s + s_len s) vs) (s_array s)
                        (arrays st)) st);;
    mret {| s_array := s_array s; s_off := s_off s; s_len := n;
            s_cap := s_cap s |}
  else
    st ← get;
    newArray (elems st s ++ vs) (n + spare h (s_cap s) n).

(** [p.Env = append(p.Env, vs...)], for [p] a [*exec.Cmd]: the statement
    both [CmdBuilder.Env] and [CmdFactory.Cmd] contain. *)
Definition appendEnv (h : Host) (p : loc) (vs : list gostring) : M unit :=
  c ← getCmd p;
  env ← append h (exec.Env c) vs;
  modifyCmd p (exec.set_Env env).

(** ** os *)

Module os.
Definition Stdin : io.Reader := io.File 0.
Definition Stdout : io.Writer := io.Plain (io.File 1).
Definition Stderr : io.Writer := io.Plain (io.File 2).

(** [os.Environ()]: a copy of the environment, in a new array as long as
    the table, holding the entries that are set. *)
Definition Environ (h : Host) : M Slice :=
  newArray (filter (fun e => e ≠ []) (envs h)) (length (envs h)).

(** An entry cut at its first ['=']. *)
Fixpoint cut (s : gostring) : option (gostring * gostring) :=
  match s with
  | [] => None
  | c :: s' =>
      if Ascii.eqb c "="%char then Some ([], s')
      else match cut s' with
           | Some (k, v) => Some (c :: k, v)
           | None => None
           end
  end.

Definition has_key (key e : gostring) : bool :=
  match cut e with
  | Some (k, _) => bool_decide (k = key)
  | None => false
  end.

(** [os.Getenv(key)]: the value of the first entry for [key], or the
    empty string. *)
Definition Getenv (h : Host) (key : gostring) : gostring :=
  if (len key =? 0)%Z then [] else
  match List.find (has_key key) (envs h) with
  | Some e => match cut e with Some (_, v) => v | None => [] end
  | None => []
  end.
End os.

(** ** os/exec: the functions *)

Module os_exec.
Import exec.

Definition nilSlice : Slice :=
  {| s_array := 0; s_off := 0; s_len := 0; s_cap := 0 |}.

(** [exec.Command(name, arg...)] *)
Definition Command (h : Host) (name : gostring) (arg : list gostring)
    : M loc :=
  let resolved :=
    if bool_decide (Base h name = name) then
      let '(lp, err) := LookPath h name in
      (if bool_decide (lp ≠ []) then lp else name, err)
    else (name, None) in
  newCmd {| Path := fst resolved; Args := name :: arg; Env := nilSlice;
            Dir := []; Stdin := None; Stdout := None; Stderr := None;
            Err := snd resolved; Process := None; ProcessState := None;
            startCalled := false |}.

(** [Cmd.Start]: a command is started once, and an attempt that failed
    counts.  The process that is created runs on its own: what it writes
    reaches the writers of the command whether or not [Wait] is called (a
    nil writer is the null device).  When it does is up to the process;
    here, where there is no clock, it has by the time [Start] returns. *)
Definition Start (h : Host) (p : loc) : M (option Error) :=
  c ← getCmd p;
  match Process c with
  | Some _ => mret (Some ErrAlreadyStarted)
  | None =>
      if startCalled c then mret (Some ErrAlreadyStarted) else
      let c := set_startCalled true c in
      let c :=
        if bool_decide (Path c = []) && bool_decide (Err c = None)
        then set_Err (Some ErrNoCommand) c else c in
      modifyCmd p (fun _ => c);;
      match Err c with
      | Some e => mret (Some e)
      | None =>
          st ← get;
          match StartProcess h (Path c) (Args c) (Dir c)
                  (elems st (Env c)) (Stdin c) with
          | inl e => mret (Some e)
          | inr o =>
              modifyCmd p (set_Process (Some o));;
              match Stdout c with
              | Some w => writeTo w (stdout o)
              | None => mret tt
              end;;
              match Stderr c with
              | Some w => writeTo w (stderr o)
              | None => mret tt
              end;;
              mret None
          end
      end
  end.

(** [Cmd.Wait]: by the time it returns the process has exited, and its
    status is recorded. *)
Definition Wait (p : loc) : M (option Error) :=
  c ← getCmd p;
  match Process c with
  | None => mret (Some ErrNotStarted)
  | Some o =>
      match ProcessState c with
      | Some _ => mret (Some ErrWaitAlreadyCalled)
      | None =>
          modifyCmd p (set_ProcessState (Some (status o)));;
          mret (if (status o =? 0)%Z then None
                else Some (ExitError (status o)))
      end
  end.

(** [Cmd.Run] *)
Definition Run (h : Host) (p : loc) : M (option Error) :=
  err ← Start h p;
  match err with
  | Some e => mret (Some e)
  | None => Wait p
  end.

(** [Cmd.Output] *)
Definition Output (h : Host) (p : loc) : M (gostring * option Error) :=
  c ← getCmd p;
  match Stdout c with
  | Some _ => mret ([], Some ErrStdoutAlreadySet)
  | None =>
      stdout ← newBuffer;
      modifyCmd p (set_Stdout (Some (io.Plain (io.Buffer stdout))));;
      match Stderr c with
      | None =>
          saver ← newBuffer;
          modifyCmd p (set_Stderr (Some (io.Plain (io.Buffer saver))))
      | Some _ => mret tt
      end;;
      err ← Run h p;
      out ← readBuffer stdout;
      mret (out, err)
  end.
End os_exec.

(** ** Package builder: [cmd.go] *)

(** [CmdFactoryOptions]: a nil reader or writer is [None]. *)
Record CmdFactoryOptions := {
  Stdin : option io.Reader;
  Stdout : option io.Writer;
  Stderr : option io.Writer;
  Dir : gostring;
  Env : Slice
}.

Record CmdFactory := { Options : CmdFactoryOptions }.

Definition NewFactory (options : CmdFactoryOptions) : CmdFactory :=
  {| Options := options |}.

(** [Cmd(name, args...)]; the result is the [*CmdBuilder]. *)
Definition Cmd (h : Host) (name : gostring) (args : list gostring) : M loc :=
  cmd ← os_exec.Command h name args;
  modifyCmd cmd (exec.set_Stderr (Some os.Stderr));;
  env ← os.Environ h;
  modifyCmd cmd (exec.set_Env env);;
  newBuilder {| cmd := cmd |}.

Definition Shell (h : Host) (args : gostring) : M loc :=
  if bool_decide (GOOS h = go "linux") then
    Cmd h (go "bash") [go "-c"; args]
  else if bool_decide (GOOS h = go "darwin") then
    Cmd h (go "zsh") [go "-c"; args]
  else if bool_decide (GOOS h = go "windows") then
    Cmd h (go "powershell") [go "-Command"; args]
  else
    Cmd h (os.Getenv h (go "SHELL")) [go "-c"; args].

Module CmdFactory.
Definition Cmd (h : Host) (factory : CmdFactory) (name : gostring)
    (args : list gostring) : M loc :=
  builder ← Cmd h name args;
  b ← getBuilder builder;
  match Stdin (Options factory) with
  | Some r => modifyCmd (cmd b) (exec.set_Stdin (Some r))
  | None => mret tt
  end;;
  match Stdout (Options factory) with
  | Some w => modifyCmd (cmd b) (exec.set_Stdout (Some w))
  | None => mret tt
  end;;
  match Stderr (Options factory) with
  | Some w => modifyCmd (cmd b) (exec.set_Stderr (Some w))
  | None => mret tt
  end;;
  (if bool_decide (Dir (Options factory) ≠ [])
   then modifyCmd (cmd b) (exec.set_Dir (Dir (Options factory)))
   else mret tt);;
  (if 0 <? s_len (Env (Options factory)) then
     st ← get;
     appendEnv h (cmd b) (elems st (Env (Options factory)))
   else mret tt);;
  mret builder.

Definition Shell (h : Host) (factory : CmdFactory) (args : gostring)
    : M loc :=
  if bool_decide (GOOS h = go "linux") then
    Cmd h factory (go "bash") [go "-c"; args]
  else if bool_decide (GOOS h = go "darwin") then
    Cmd h factory (go "zsh") [go "-c"; args]
  else if bool_decide (GOOS h = go "windows") then
    Cmd h factory (go "powershell") [go "-Command"; args]
  else
    Cmd h factory (os.Getenv h (go "SHELL")) [go "-c"; args].
End CmdFactory.

Module CmdBuilder.
Definition Dir (cmdBuilder : loc) (dir : gostring) : M loc :=
  b ← getBuilder cmdBuilder;
  modifyCmd (cmd b) (exec.set_Dir dir);;
  mret cmdBuilder.

Definition Stdout (cmdBuilder : loc) (stdout : option io.Writer) : M loc :=
  b ← getBuilder cmdBuilder;
  modifyCmd (cmd b) (exec.set_Stdout stdout);;
  mret cmdBuilder.

Definition Stderr (cmdBuilder : loc) (stderr : option io.Writer) : M loc :=
  b ← getBuilder cmdBuilder;
  modifyCmd (cmd b) (exec.set_Stderr stderr);;
  mret cmdBuilder.

Definition Stdin (cmdBuilder : loc) (stdin : option io.Reader) : M loc :=
  b ← getBuilder cmdBuilder;
  modifyCmd (cmd b) (exec.set_Stdin stdin);;
  mret cmdBuilder.

Definition Interactive (cmdBuilder : loc) : M loc :=
  b ← getBuilder cmdBuilder;
  modifyCmd (cmd b) (exec.set_Stderr (Some os.Stderr));;
  modifyCmd (cmd b) (exec.set_Stdin (Some os.Stdin));;
  modifyCmd (cmd b) (exec.set_Stdout (Some os.Stdout));;
  mret cmdBuilder.

Definition Env (h : Host) (cmdBuilder : loc) (vars : list gostring)
    : M loc :=
  b ← getBuilder cmdBuilder;
  appendEnv h (cmd b) vars;;
  mret cmdBuilder.

Definition Build (cmdBuilder : loc) : M loc :=
  b ← getBuilder cmdBuilder;
  mret (cmd b).

Definition Start (h : Host) (cmdBuilder : loc) : M (option exec.Error) :=
  b ← getBuilder cmdBuilder;
  os_exec.Start h (cmd b).

Definition Run (h : Host) (cmdBuilder : loc) : M (option exec.Error) :=
  b ← getBuilder cmdBuilder;
  os_exec.Run h (cmd b).

Definition Output (h : Host) (cmdBuilder : loc)
    : M (gostring * option exec.Error) :=
  b ← getBuilder cmdBuilder;
  c ← getCmd (cmd b);
  match exec.Stdout c with
  | Some w =>
      outBuf ← newBuffer;
      modifyCmd (cmd b)
        (exec.set_Stdout
           (Some (io.MultiWriter [w; io.Plain (io.Buffer outBuf)])));;
      err ← os_exec.Run h (cmd b);
      match err with
      | Some e => mret ([], Some e)
      | None =>
          output ← readBuffer outBuf;
          mret (strings.TrimSpace output, None)
      end
  | None =>
      '(output, err) ← os_exec.Output h (cmd b);
      match err with
      | Some e => mret ([], Some e)
      | None => mret (strings.TrimSpace output, None)
      end
  end.

(** The result [nil] is the empty list. *)
Definition Lines (h : Host) (cmdBuilder : loc)
    : M (list gostring * option exec.Error) :=
  '(output, err) ← Output h cmdBuilder;
  match err with
  | Some e => mret ([], Some e)
  | None =>
      mret (strings.Split (strings.ReplaceAll output [CR; LF] [LF]) [LF],
            None)
  end.
End CmdBuilder.

(** ** Reading the store *)

(** The [exec.Cmd] behind the builder at [b]. *)
Definition command (st : Store) (b : loc) : option exec.Cmd :=
  bld ← builders st !! b; cmds st !! cmd bld.

(** The command specification a builder holds: the fields of its
    [exec.Cmd] that describe the launch, with the environment read out of
    its backing array. *)
Record Specification := {
  sp_Path : gostring;
  sp_Args : list gostring;
  sp_Dir : gostring;
  sp_Stdin : option io.Reader;
  sp_Stdout : option io.Writer;
  sp_Stderr : option io.Writer;
  sp_Env : list gostring
}.

Definition describe (st : Store) (c : exec.Cmd) : Specification :=
  {| sp_Path := exec.Path c; sp_Args := exec.Args c; sp_Dir := exec.Dir c;
     sp_Stdin := exec.Stdin c; sp_Stdout := exec.Stdout c;
     sp_Stderr := exec.Stderr c; sp_Env := elems st (exec.Env c) |}.

Definition specification (st : Store) (b : loc) : option Specification :=
  describe st <$> command st b.

(** The environment of the calling process: the entries of its table that
    are set. *)
Definition environment (h : Host) : list gostring :=
  filter (fun e => e ≠ []) (envs h).

(** A slice is well formed when its length is within its capacity and its
    window lies within an allocated array.  A slice without capacity has no
    window and needs no array: the nil slice is well formed in every
    store. *)
Definition valid_slice (st : Store) (s : Slice) : Prop :=
  s_len s <= s_cap s /\
  (0 < s_cap s ->
   match arrays st !! s_array s with
   | Some a => s_off s + s_cap s <= length a
   | None => False
   end).

(** A stream is allocated: every file is, a buffer when its address is. *)
Definition valid_stream (st : Store) (s : io.Stream) : Prop :=
  match s with
  | io.File _ => True
  | io.Buffer b => b < length (buffers st)
  end.

(** A command that no terminal action has consumed yet. *)
Definition unlaunched (c : exec.Cmd) : Prop :=
  exec.Process c = None /\ exec.ProcessState c = None /\
  exec.startCalled c = false.

(** The attempt to create the process of an unlaunched command: the error
    that prevents it, or the process. *)
Definition create (h : Host) (st : Store) (c : exec.Cmd)
    : exec.Error + exec.Outcome :=
  if bool_decide (exec.Path c = []) && bool_decide (exec.Err c = None)
  then inl exec.ErrNoCommand
  else match exec.Err c with
       | Some e => inl e
       | None =>
           StartProcess h (exec.Path c) (exec.Args c) (exec.Dir c)
             (elems st (exec.Env c)) (exec.Stdin c)
       end.

(** The error a process reports by its exit status. *)
Definition exit_error (o : exec.Outcome) : option exec.Error :=
  if (exec.status o =? 0)%Z then None
  else Some (exec.ExitError (exec.status o)).

(** What the writers of a command receive from its process. *)
Definition deliver (w : option io.Writer) (p : gostring) (st : Store)
    : Store :=
  match w with
  | Some w => foldl (writeStream p) st (io.members w)
  | None => st
  end.

(** The streams of a writer are allocated. *)
Definition valid_writer (st : Store) (w : option io.Writer) : Prop :=
  match w with
  | Some w => Forall (valid_stream st) (io.members w)
  | None => True
  end.

(** What running an unlaunched command reports: the error that prevented
    the process, or the one its exit status stands for. *)
Definition run_error (h : Host) (st : Store) (c : exec.Cmd)
    : option exec.Error :=
  match create h st c with
  | inl e => Some e
  | inr o => exit_error o
  end.

(** What running an unlaunched command does to the streams: its process,
    if there is one, writes to the writers of the command. *)
Definition run_streams (h : Host) (st : Store) (c : exec.Cmd) : Store :=
  match create h st c with
  | inl _ => st
  | inr o =>
      deliver (exec.Stderr c) (exec.stderr o)
        (deliver (exec.Stdout c) (exec.stdout o) st)
  end.

(** What [Output] returns for an unlaunched command: the empty string and
    the error when the run fails, the trimmed standard output of the
    process when it succeeds. *)
Definition output_result (h : Host) (st : Store) (c : exec.Cmd)
    : gostring * option exec.Error :=
  match create h st c with
  | inl e => ([], Some e)
  | inr o =>
      match exit_error o with
      | Some e => ([], Some e)
      | None => (strings.TrimSpace (exec.stdout o), None)
      end
  end.

(** What [Lines] returns, from what [Output] returns. *)
Definition lines_result (r : gostring * option exec.Error)
    : list gostring * option exec.Error :=
  match snd r with
  | Some e => ([], Some e)
  | None =>
      (strings.Split (strings.ReplaceAll (fst r) [CR; LF] [LF]) [LF], None)
  end.

(** Two stores that differ in cells [st] does not have hold the same in
    every stream of [st]. *)
Definition same_streams (st st1 st2 : Store) : Prop :=
  length (buffers st) <= length (buffers st1) /\
  length (buffers st) <= length (buffers st2) /\
  forall s, valid_stream st s -> received st1 s = received st2 s.

(** *** White space

    [string(rune)]: the UTF-8 encoding of a code point, after
    [utf8.AppendRune]. *)
Definition byte_of (z : Z) : ascii := ascii_of_N (Z.to_N (z mod 256)).

Definition encode (r : Z) : gostring :=
  let i := unicode.uint32 r in
  if (i <=? 0x7F)%Z then [byte_of r]
  else if (i <=? 0x7FF)%Z then
    [byte_of (Z.lor 0xC0 (Z.shiftr r 6));
     byte_of (Z.lor 0x80 (Z.land r utf8.maskx))]
  else
    let r := if (0x10FFFF <? i)%Z || ((0xD800 <=? i)%Z && (i <=? 0xDFFF)%Z)
             then utf8.RuneError else r in
    if (unicode.uint32 r <=? 0xFFFF)%Z then
      [byte_of (Z.lor 0xE0 (Z.shiftr r 12));
       byte_of (Z.lor 0x80 (Z.land (Z.shiftr r 6) utf8.maskx));
       byte_of (Z.lor 0x80 (Z.land r utf8.maskx))]
    else
      [byte_of (Z.lor 0xF0 (Z.shiftr r 18));
       byte_of (Z.lor 0x80 (Z.land (Z.shiftr r 12) utf8.maskx));
       byte_of (Z.lor 0x80 (Z.land (Z.shiftr r 6) utf8.maskx));
       byte_of (Z.lor 0x80 (Z.land r utf8.maskx))].

(** The code points [unicode.IsSpace] accepts. *)
Definition space_runes : list Z :=
  [0x09; 0x0A; 0x0B; 0x0C; 0x0D; 0x20; 0x85; 0xA0; 0x1680;
   0x2000; 0x2001; 0x2002; 0x2003; 0x2004; 0x2005; 0x2006; 0x2007; 0x2008;
   0x2009; 0x200a; 0x2028; 0x2029; 0x202f; 0x205f; 0x3000]%Z.

(** A text that consists only of white space: the encodings of code points
    that [unicode.IsSpace] accepts, one after the other. *)
Inductive whitespace : gostring -> Prop :=
| whitespace_nil : whitespace []
| whitespace_cons r s :
    unicode.IsSpace r = true -> whitespace s -> whitespace (encode r ++ s).

(** *** UTF-8, read off the encoding

    The decoder of [unicode/utf8] as a function of the length of the text
    and of its first four bytes, and the table of well-formed sequences it
    implements; the properties section proves that they agree. *)

Section encoding.
Local Open Scope Z_scope.

(** The decoding as a function of the length and of the first four bytes. *)
Definition decodeBytes (n s0 b1 b2 b3 : Z) : Z * Z :=
  let x := utf8.first s0 in
  if x >=? utf8.as_ then
    let mask := Z.shiftr (utf8.int32 (Z.shiftl x 31)) 31 in
    (Z.lor (Z.ldiff s0 mask) (Z.land utf8.RuneError mask), 1)
  else
  let sz := Z.land x 7 in
  let accept := utf8.acceptRanges (Z.shiftr x 4) in
  if n <? sz then (utf8.RuneError, 1) else
  if (b1 <? fst accept) || (snd accept <? b1) then (utf8.RuneError, 1) else
  if sz <=? 2 then
    (Z.lor (Z.shiftl (Z.land s0 utf8.mask2) 6) (Z.land b1 utf8.maskx), 2)
  else
  if (b2 <? utf8.locb) || (utf8.hicb <? b2) then (utf8.RuneError, 1) else
  if sz <=? 3 then
    (Z.lor (Z.lor (Z.shiftl (Z.land s0 utf8.mask3) 12)
                  (Z.shiftl (Z.land b1 utf8.maskx) 6))
           (Z.land b2 utf8.maskx), 3)
  else
  if (b3 <? utf8.locb) || (utf8.hicb <? b3) then (utf8.RuneError, 1) else
  (Z.lor (Z.lor (Z.lor (Z.shiftl (Z.land s0 utf8.mask4) 18)
                       (Z.shiftl (Z.land b1 utf8.maskx) 12))
                (Z.shiftl (Z.land b2 utf8.maskx) 6))
         (Z.land b3 utf8.maskx), 4).

(** Well-formed sequences of two, three and four bytes. *)
Definition cont (b : Z) : bool := (0x80 <=? b) && (b <=? 0xBF).

Definition seq2 (s0 b1 : Z) : bool :=
  (0xC2 <=? s0) && (s0 <=? 0xDF) && cont b1.

Definition seq3 (s0 b1 b2 : Z) : bool :=
  (0xE0 <=? s0) && (s0 <=? 0xEF) && cont b1 && cont b2
  && negb ((s0 =? 0xE0) && (b1 <? 0xA0))
  && negb ((s0 =? 0xED) && (0x9F <? b1)).

Definition seq4 (s0 b1 b2 b3 : Z) : bool :=
  (0xF0 <=? s0) && (s0 <=? 0xF4) && cont b1 && cont b2 && cont b3
  && negb ((s0 =? 0xF0) && (b1 <? 0x90))
  && negb ((s0 =? 0xF4) && (0x8F <? b1)).

(** What [DecodeRuneInString] computes, read off the encoding. *)
Definition decoded (n s0 b1 b2 b3 : Z) : Z * Z :=
  if s0 <? 0x80 then (s0, 1)
  else if (2 <=? n) && seq2 s0 b1 then (s0 mod 32 * 64 + b1 mod 64, 2)
  else if (3 <=? n) && seq3 s0 b1 b2
  then (s0 mod 16 * 4096 + b1 mod 64 * 64 + b2 mod 64, 3)
  else if (4 <=? n) && seq4 s0 b1 b2 b3
  then (s0 mod 8 * 262144 + b1 mod 64 * 4096 + b2 mod 64 * 64 + b3 mod 64, 4)
  else (utf8.RuneError, 1).

End encoding.

(** *** Trimmed texts

    [trimmed s t]: [t] is [s] without white space at its two ends, and
    with all of it removed: [t] itself neither starts nor ends with the
    encoding of a white space code point. *)

Definition starts_with_space (t : gostring) : Prop :=
  exists r rest, unicode.IsSpace r = true /\ t = encode r ++ rest.

Definition ends_with_space (t : gostring) : Prop :=
  exists r init, unicode.IsSpace r = true /\ t = init ++ encode r.

Definition trimmed (s t : gostring) : Prop :=
  exists pre post,
    s = pre ++ t ++ post /\ whitespace pre /\ whitespace post /\
    ~ starts_with_space t /\ ~ ends_with_space t.

(** *** Configuring a builder *)

(** One call of a configuration method. *)
Inductive Config :=
| SetDir (dir : gostring)
| SetStdout (stdout : option io.Writer)
| SetStderr (stderr : option io.Writer)
| SetStdin (stdin : option io.Reader)
| SetInteractive
| AddEnv (vars : list gostring).

Definition configure1 (h : Host) (b : loc) (op : Config) : M loc :=
  match op with
  | SetDir dir => CmdBuilder.Dir b dir
  | SetStdout w => CmdBuilder.Stdout b w
  | SetStderr w => CmdBuilder.Stderr b w
  | SetStdin r => CmdBuilder.Stdin b r
  | SetInteractive => CmdBuilder.Interactive b
  | AddEnv vars => CmdBuilder.Env h b vars
  end.

(** A chain of calls, each on the builder the one before returned. *)
Fixpoint configure (h : Host) (b : loc) (ops : list Config) : M loc :=
  match ops with
  | [] => mret b
  | op :: ops' => b' ← configure1 h b op; configure h b' ops'
  end.

(** *** What the constructors build *)

(** The [exec.Cmd] that [Cmd(name, args...)] builds around the environment
    slice [env]: what [exec.Command] resolves, then the two defaults. *)
Definition initial (h : Host) (name : gostring) (args : list gostring)
    (env : Slice) : exec.Cmd :=
  let resolved :=
    if bool_decide (Base h name = name) then
      let '(lp, err) := LookPath h name in
      (if bool_decide (lp ≠ []) then lp else name, err)
    else (name, None) in
  {| exec.Path := fst resolved; exec.Args := name :: args; exec.Env := env;
     exec.Dir := []; exec.Stdin := None; exec.Stdout := None;
     exec.Stderr := Some os.Stderr; exec.Err := snd resolved;
     exec.Process := None; exec.ProcessState := None;
     exec.startCalled := false |}.

(** The slice [os.Environ()] returns when the next array is at [a]. *)
Definition environ_slice (h : Host) (a : loc) : Slice :=
  {| s_array := a; s_off := 0; s_len := length (environment h);
     s_cap := length (envs h) |}.

(** A factory option that is set replaces the default, one that is not
    keeps it. *)
Definition override {A} (opt dflt : option A) : option A :=
  match opt with
  | Some v => Some v
  | None => dflt
  end.

(** The [exec.Cmd] that [CmdFactory.Cmd] leaves, from the default one [c]
    and the environment slice [env] it ends with. *)
Definition stamp (o : CmdFactoryOptions) (c : exec.Cmd) (env : Slice)
    : exec.Cmd :=
  {| exec.Path := exec.Path c; exec.Args := exec.Args c; exec.Env := env;
     exec.Dir := if bool_decide (Dir o ≠ []) then Dir o else exec.Dir c;
     exec.Stdin := override (Stdin o) (exec.Stdin c);
     exec.Stdout := override (Stdout o) (exec.Stdout c);
     exec.Stderr := override (Stderr o) (exec.Stderr c);
     exec.Err := exec.Err c; exec.Process := exec.Process c;
     exec.ProcessState := exec.ProcessState c;
     exec.startCalled := exec.startCalled c |}.

(** An options bundle with nothing set. *)
Definition no_options (o : CmdFactoryOptions) : Prop :=
  Stdin o = None /\ Stdout o = None /\ Stderr o = None /\ Dir o = [] /\
  s_len (Env o) = 0.

(** *** Frames *)

(** From [st] to [st'] every array is still there with its length, and
    with its content unless it is the array [own]. *)
Definition arrays_frame (own : loc) (st st' : Store) : Prop :=
  forall a x, arrays st !! a = Some x ->
    exists x', arrays st' !! a = Some x' /\ length x' = length x /\
               (a <> own -> x' = x).

(** From [st] to [st'] nothing that was allocated has changed: the tables
    have only grown, and the streams hold what they held. *)
Definition preserved (st st' : Store) : Prop :=
  (exists new, cmds st' = cmds st ++ new) /\
  (exists new, builders st' = builders st ++ new) /\
  (exists new, arrays st' = arrays st ++ new) /\
  buffers st' = buffers st /\ files st' = files st.

(** *** A host to run examples on

    A Linux host with three environment entries of which one was unset,
    where every bare name is found in [/bin], and where [sh -c text] prints
    [text] and succeeds, a command without arguments fails with status 1,
    and nothing else can be started. *)
Definition demo_host : Host :=
  {| GOOS := go "linux";
     envs := [go "PATH=/bin"; []; go "SHELL=/bin/sh"];
     Base := fun name => name;
     LookPath := fun name => (go "/bin/" ++ name, None);
     StartProcess := fun path argv dir env stdin =>
       match argv with
       | [_; _; text] =>
           inr {| exec.stdout := text; exec.stderr := [];
                  exec.status := 0 |}
       | [_] =>
           inr {| exec.stdout := go "partial"; exec.stderr := go "failed";
                  exec.status := 1 |}
       | _ => inl (exec.SysError 2)
       end;
     spare := fun old n => n |}.

(** The same host under another operating system. *)
Definition demo_host_on (goos : gostring) : Host :=
  {| GOOS := goos; envs := envs demo_host; Base := Base demo_host;
     LookPath := LookPath demo_host; StartProcess := StartProcess demo_host;
     spare := spare demo_host |}.

(** A store in which a caller has allocated an environment list of two
    entries and an in-memory writer, and a factory over them. *)
Definition demo_store : Store :=
  {| cmds := []; builders := [];
     arrays := [[go "LANG=C"; go "TERM=dumb"]];
     buffers := [[]]; files := ∅ |}.

Definition demo_options : CmdFactoryOptions :=
  {| Stdin := None;
     Stdout := Some (io.Plain (io.Buffer 0));
     Stderr := None;
     Dir := go "/tmp";
     Env := {| s_array := 0; s_off := 0; s_len := 2; s_cap := 2 |} |}.

Definition demo_factory : CmdFactory := NewFactory demo_options.

(** The options with nothing set, [CmdFactoryOptions{}], and those of the
    factory of the README, [{Stdout: os.Stdout, Dir: dir}]; in both the
    environment is the nil slice. *)
Definition zero_options : CmdFactoryOptions :=
  {| Stdin := None; Stdout := None; Stderr := None; Dir := [];
     Env := os_exec.nilSlice |}.

Definition readme_options : CmdFactoryOptions :=
  {| Stdin := None; Stdout := Some os.Stdout; Stderr := None;
     Dir := go "/srv/infra"; Env := os_exec.nilSlice |}.

Definition readme_factory : CmdFactory := NewFactory readme_options.

(** The builder and the store a constructor leaves, on a store where it
    does not panic. *)
Definition built (m : M loc) (st : Store) : loc * Store :=
  match m st with
  | Some r => r
  | None => (0, st)
  end.

(** Builders on the example host: one whose process prints two lines,
    the first ended the Windows way; one whose process exits with status 1;
    one whose process cannot be created. *)
Definition demo_crlf : loc * Store :=
  built (Shell demo_host (go "a" ++ [CR; LF] ++ go "b" ++ [LF])) demo_store.

Definition demo_failing : loc * Store :=
  built (Cmd demo_host (go "false") []) demo_store.

Definition demo_missing : loc * Store :=
  built (Cmd demo_host (go "ls") [go "-l"]) demo_store.

(** One whose process prints white space only, and one made by the
    example factory, whose stdout is the in-memory writer of the caller and
    whose process prints [hello] and a line feed. *)
Definition demo_blank : loc * Store :=
  built (Shell demo_host (go "  " ++ [CR; LF] ++ go " " ++ [LF])) demo_store.

Definition demo_hello : loc * Store :=
  built (CmdFactory.Shell demo_host demo_factory (go "hello" ++ [LF]))
    demo_store.

(** *** Lines, read off the text *)

(** [s] with every carriage return that a line feed follows removed, in
    one pass from the left. *)
Fixpoint crlf_to_lf (s : gostring) : gostring :=
  match s with
  | [] => []
  | c :: s' =>
      match s' with
      | d :: s'' =>
          if Ascii.eqb c CR && Ascii.eqb d LF then LF :: crlf_to_lf s''
          else c :: crlf_to_lf s'
      | [] => [c]
      end
  end.

(** The number of pairs that [crlf_to_lf] shortens. *)
Fixpoint count_crlf (s : gostring) : nat :=
  match s with
  | [] => 0
  | c :: s' =>
      match s' with
      | d :: s'' =>
          if Ascii.eqb c CR && Ascii.eqb d LF then S (count_crlf s'')
          else count_crlf s'
      | [] => 0
      end
  end.

(** The number of bytes [c] in [s]. *)
Definition count_byte (c : ascii) (s : gostring) : nat :=
  length (filter (fun x => x = c) s).

(** The strings [ls] with [sep] between each two of them. *)
Definition joined (sep : gostring) (ls : list gostring) : gostring :=
  match ls with
  | [] => []
  | l :: ls' => l ++ flat_map (fun x => sep ++ x) ls'
  end.

(** *** Chains of configuration calls *)

(** What one configuration call makes of a specification. *)
Definition apply_config (op : Config) (sp : Specification) : Specification :=
  match op with
  | SetDir dir =>
      {| sp_Path := sp_Path sp; sp_Args := sp_Args sp; sp_Dir := dir;
         sp_Stdin := sp_Stdin sp; sp_Stdout := sp_Stdout sp;
         sp_Stderr := sp_Stderr sp; sp_Env := sp_Env sp |}
  | SetStdout stdout =>
      {| sp_Path := sp_Path sp; sp_Args := sp_Args sp; sp_Dir := sp_Dir sp;
         sp_Stdin := sp_Stdin sp; sp_Stdout := stdout;
         sp_Stderr := sp_Stderr sp; sp_Env := sp_Env sp |}
  | SetStderr stderr =>
      {| sp_Path := sp_Path sp; sp_Args := sp_Args sp; sp_Dir := sp_Dir sp;
         sp_Stdin := sp_Stdin sp; sp_Stdout := sp_Stdout sp;
         sp_Stderr := stderr; sp_Env := sp_Env sp |}
  | SetStdin stdin =>
      {| sp_Path := sp_Path sp; sp_Args := sp_Args sp; sp_Dir := sp_Dir sp;
         sp_Stdin := stdin; sp_Stdout := sp_Stdout sp;
         sp_Stderr := sp_Stderr sp; sp_Env := sp_Env sp |}
  | SetInteractive =>
      {| sp_Path := sp_Path sp; sp_Args := sp_Args sp; sp_Dir := sp_Dir sp;
         sp_Stdin := Some os.Stdin; sp_Stdout := Some os.Stdout;
         sp_Stderr := Some os.Stderr; sp_Env := sp_Env sp |}
  | AddEnv vars =>
      {| sp_Path := sp_Path sp; sp_Args := sp_Args sp; sp_Dir := sp_Dir sp;
         sp_Stdin := sp_Stdin sp; sp_Stdout := sp_Stdout sp;
         sp_Stderr := sp_Stderr sp; sp_Env := sp_Env sp ++ vars |}
  end.

(** The fields of [exec.Cmd] the builder writes, and the ones each
    configuration call writes. *)
Inductive Field := FDir | FStdin | FStdout | FStderr | FEnv.

#[global] Instance Field_eq_dec : EqDecision Field.
Proof. solve_decision. Defined.

Definition touches (op : Config) : list Field :=
  match op with
  | SetDir _ => [FDir]
  | SetStdout _ => [FStdout]
  | SetStderr _ => [FStderr]
  | SetStdin _ => [FStdin]
  | SetInteractive => [FStderr; FStdin; FStdout]
  | AddEnv _ => [FEnv]
  end.

(** The assignments of a configuration call other than [Env], on the
    command. *)
Definition field_update (op : Config) (c : exec.Cmd) : exec.Cmd :=
  match op with
  | SetDir dir => exec.set_Dir dir c
  | SetStdout stdout => exec.set_Stdout stdout c
  | SetStderr stderr => exec.set_Stderr stderr c
  | SetStdin stdin => exec.set_Stdin stdin c
  | SetInteractive =>
      exec.set_Stdout (Some os.Stdout)
        (exec.set_Stdin (Some os.Stdin)
           (exec.set_Stderr (Some os.Stderr) c))
  | AddEnv _ => c
  end.

(** The slice [append] returns and the store it leaves. *)
Definition appended (h : Host) (st : Store) (s : Slice) (vs : list gostring)
    : Slice * Store :=
  match append h s vs st with
  | Some r => r
  | None => (s, st)
  end.

(** The command and the store one configuration call leaves, for a
    builder whose command is [c]. *)
Definition configured (h : Host) (st : Store) (c : exec.Cmd) (op : Config)
    : exec.Cmd * Store :=
  match op with
  | AddEnv vars =>
      let r := appended h st (exec.Env c) vars in
      (exec.set_Env (fst r) c, snd r)
  | _ => (field_update op c, st)
  end.
(** *** The terminal actions *)

Inductive Action := DoStart | DoRun | DoOutput | DoLines.

(** The error a terminal action returns. *)
Definition perform (h : Host) (b : loc) (a : Action)
    : M (option exec.Error) :=
  match a with
  | DoStart => CmdBuilder.Start h b
  | DoRun => CmdBuilder.Run h b
  | DoOutput => r ← CmdBuilder.Output h b; mret (snd r)
  | DoLines => r ← CmdBuilder.Lines h b; mret (snd r)
  end.

(** The command as [Start] records it before it creates the process: the
    attempt is noted, and a command without a path gets the error
    [ErrNoCommand]. *)
Definition attempted (c : exec.Cmd) : exec.Cmd :=
  let c := exec.set_startCalled true c in
  if bool_decide (exec.Path c = []) && bool_decide (exec.Err c = None)
  then exec.set_Err (Some exec.ErrNoCommand) c else c.

(** A command on which [Start] was called, with or without success: it
    is not started again. *)
Definition spent (c : exec.Cmd) : Prop :=
  exec.Process c <> None \/ exec.startCalled c = true.

(** The command [Start] leaves, and the one [Run] leaves. *)
Definition started (h : Host) (st : Store) (c : exec.Cmd) : exec.Cmd :=
  match create h st c with
  | inl _ => attempted c
  | inr o => exec.set_Process (Some o) (attempted c)
  end.

Definition finished (h : Host) (st : Store) (c : exec.Cmd) : exec.Cmd :=
  match create h st c with
  | inl _ => attempted c
  | inr o =>
      exec.set_ProcessState (Some (exec.status o))
        (exec.set_Process (Some o) (attempted c))
  end.

(** The streams [Output] makes the process write its standard output to,
    with [buf] the buffer it allocates. *)
Definition capture (w : option io.Writer) (buf : loc) : list io.Stream :=
  default [] (io.members <$> w) ++ [io.Buffer buf].
(** The command as [Output] hands it to [Run], with [buf] the next buffer:
    its standard output is captured, and its standard error too when it
    has neither. *)
Definition prepared (c : exec.Cmd) (buf : loc) : exec.Cmd :=
  match exec.Stdout c with
  | Some w =>
      exec.set_Stdout
        (Some (io.MultiWriter [w; io.Plain (io.Buffer buf)])) c
  | None =>
      match exec.Stderr c with
      | Some _ => exec.set_Stdout (Some (io.Plain (io.Buffer buf))) c
      | None =>
          exec.set_Stderr (Some (io.Plain (io.Buffer (S buf))))
            (exec.set_Stdout (Some (io.Plain (io.Buffer buf))) c)
      end
  end.

(** The buffers [Output] allocates. *)
Definition scratch (c : exec.Cmd) : list gostring :=
  match exec.Stdout c, exec.Stderr c with
  | None, None => [[]; []]
  | _, _ => [[]]
  end.

(** The store in which [Output] runs the command at [p]. *)
Definition prepared_store (st : Store) (p : loc) (c : exec.Cmd) : Store :=
  set_cmds (<[p := prepared c (length (buffers st))]> (cmds st))
    (set_buffers (buffers st ++ scratch c) st).
(** The path and the error [exec.Command] records for a name: a name
    without a directory is looked up. *)
Definition resolve (h : Host) (name : gostring)
    : gostring * option exec.Error :=
  if bool_decide (Base h name = name) then
    let '(lp, err) := LookPath h name in
    (if bool_decide (lp ≠ []) then lp else name, err)
  else (name, None).

(** *** More examples

    A host that is none of the three the package knows, without [SHELL],
    on which no program is found. *)
Definition demo_bare_host : Host :=
  {| GOOS := go "plan9";
     envs := [go "PATH=/bin"];
     Base := fun name => match name with [] => go "." | _ => name end;
     LookPath := fun name => ([], Some (exec.SysError 2));
     StartProcess := StartProcess demo_host;
     spare := spare demo_host |}.

(** A builder of the example factory whose process writes and then exits
    with status 1, and a store with a zero [CmdBuilder]. *)
Definition demo_failing_tee : loc * Store :=
  Eval vm_compute in
  built (CmdFactory.Cmd demo_host demo_factory (go "false") []) demo_store.

(** A builder of the example factory whose process prints [hello] and a
    line feed. *)
Definition demo_tee : loc * Store :=
  Eval vm_compute in
  built (CmdFactory.Shell demo_host demo_factory (go "hello" ++ [LF]))
    demo_store.

Definition demo_zero : Store :=
  {| cmds := []; builders := [{| cmd := 0 |}]; arrays := [];
     buffers := []; files := ∅ |}.

(** A builder whose process prints two lines, the first ended the Windows
    way, and one whose process prints a carriage return before that
    ending. *)
Definition demo_two_lines : loc * Store :=
  Eval vm_compute in
  built (Shell demo_host (go "a" ++ [CR; LF] ++ go "b" ++ [LF])) demo_store.

Definition demo_stray_CR : loc * Store :=
  Eval vm_compute in
  built (Shell demo_host (go "a" ++ [CR; CR; LF] ++ go "b")) demo_store.

(** * Properties *)

(** ** Tables and slices *)

Lemma lookup_snoc {A} (l : list A) (x : A) : (l ++ [x]) !! length l = Some x.
Proof. by rewrite list_lookup_middle. Qed.

Lemma insert_snoc {A} (l : list A) (x y : A) :
  <[length l := y]> (l ++ [x]) = l ++ [y].
Proof. rewrite insert_app_r_alt by lia. by rewrite Nat.sub_diag. Qed.

Lemma lookup_snoc_old {A} (l : list A) (x : A) i :
  i < length l -> (l ++ [x]) !! i = l !! i.
Proof. intros. by rewrite lookup_app_l. Qed.

(** Writing [vs] into an array right after a window of [n] elements that
    starts at [off] extends what the window shows by [vs]. *)
Lemma window_inserts (a : list gostring) off n (vs : list gostring) :
  off + n + length vs <= length a ->
  take (n + length vs) (drop off (list_inserts (off + n) vs a))
  = take n (drop off a) ++ vs.
Proof.
  intros Hfit. apply list_eq. intros j.
  rewrite lookup_take, lookup_drop.
  destruct (decide (j < n)) as [Hj|Hj].
  - rewrite decide_True by lia.
    rewrite list_lookup_inserts_lt by lia.
    rewrite lookup_app_l by (rewrite length_take, length_drop; lia).
    by rewrite lookup_take_lt, lookup_drop.
  - rewrite lookup_app_r by (rewrite length_take, length_drop; lia).
    rewrite length_take, length_drop.
    replace (n `min` (length a - off)) with n by lia.
    case_decide.
    + rewrite list_lookup_inserts by lia. f_equal. lia.
    + symmetry. apply lookup_ge_None_2. lia.
Qed.

(** Writing past a window does not change what the window shows. *)
Lemma window_inserts_before (a : list gostring) off n i (vs : list gostring) :
  off + n <= i ->
  take n (drop off (list_inserts i vs a)) = take n (drop off a).
Proof.
  intros Hi. apply list_eq. intros j.
  rewrite !lookup_take, !lookup_drop. case_decide; [|done].
  by rewrite list_lookup_inserts_lt by lia.
Qed.

Lemma length_environment h : length (environment h) <= length (envs h).
Proof. apply length_filter. Qed.

(** The array [os.Environ()] allocates. *)
Lemma environ_array_elems h rest :
  take (length (environment h))
       (drop 0 (environment h
                ++ replicate (length (envs h) - length (environment h)) rest))
  = environment h.
Proof. rewrite drop_0. apply take_app_length. Qed.

(** A well-formed slice has no capacity, or its array is allocated. *)
Lemma valid_slice_allocated st t :
  valid_slice st t -> s_cap t = 0 \/ s_array t < length (arrays st).
Proof.
  intros [_ Hv]. destruct (decide (s_cap t = 0)) as [|Hcap]; [by left|].
  right. specialize (Hv ltac:(lia)).
  destruct (arrays st !! s_array t) eqn:E; [|done].
  by eapply lookup_lt_Some.
Qed.

(** A slice without capacity shows nothing, in every store. *)
Lemma valid_slice_nil st t :
  s_len t <= s_cap t -> s_cap t = 0 ->
  valid_slice st t /\ elems st t = [].
Proof.
  intros Hlen Hcap. split.
  - split; [done|]. lia.
  - unfold elems. by replace (s_len t) with 0 by lia.
Qed.

Lemma valid_slice_nilSlice st : valid_slice st os_exec.nilSlice.
Proof. by apply valid_slice_nil. Qed.

Lemma valid_slice_grow st st' t new :
  arrays st' = arrays st ++ new ->
  valid_slice st t -> valid_slice st' t /\ elems st' t = elems st t.
Proof.
  intros Harr [Hlen Hv]. destruct (decide (s_cap t = 0)) as [Hcap|Hcap].
  { destruct (valid_slice_nil st t Hlen Hcap) as [_ ->].
    by apply valid_slice_nil. }
  specialize (Hv ltac:(lia)). unfold valid_slice, elems.
  destruct (arrays st !! s_array t) as [a|] eqn:Ha; [|done].
  rewrite Harr, (lookup_app_l_Some _ _ _ _ Ha). done.
Qed.

Lemma preserved_refl st : preserved st st.
Proof.
  unfold preserved. split_and!; try done; exists []; by rewrite app_nil_r.
Qed.

Lemma preserved_trans st1 st2 st3 :
  preserved st1 st2 -> preserved st2 st3 -> preserved st1 st3.
Proof.
  intros ([c1 Hc1] & [b1 Hb1] & [a1 Ha1] & Hbuf1 & Hf1)
         ([c2 Hc2] & [b2 Hb2] & [a2 Ha2] & Hbuf2 & Hf2).
  unfold preserved. split_and!.
  - exists (c1 ++ c2). by rewrite Hc2, Hc1, app_assoc.
  - exists (b1 ++ b2). by rewrite Hb2, Hb1, app_assoc.
  - exists (a1 ++ a2). by rewrite Ha2, Ha1, app_assoc.
  - congruence.
  - congruence.
Qed.

Lemma arrays_frame_slice own st st' t :
  arrays_frame own st st' -> valid_slice st t ->
  valid_slice st' t /\ (s_array t <> own -> elems st' t = elems st t).
Proof.
  intros Hframe [Hlen Hv]. destruct (decide (s_cap t = 0)) as [Hcap|Hcap].
  { destruct (valid_slice_nil st t Hlen Hcap) as [_ ->].
    destruct (valid_slice_nil st' t Hlen Hcap) as [? ->]. done. }
  specialize (Hv ltac:(lia)). unfold valid_slice, elems.
  destruct (arrays st !! s_array t) as [x|] eqn:Hx; [|done].
  destruct (Hframe _ _ Hx) as (x' & -> & Hlen' & Hsame). rewrite Hlen'.
  split; [done|]. intros Hne. by rewrite Hsame.
Qed.

Lemma arrays_frame_trans own st1 st2 st3 :
  arrays_frame own st1 st2 -> arrays_frame own st2 st3 ->
  arrays_frame own st1 st3.
Proof.
  intros H12 H23 a x Hx.
  destruct (H12 _ _ Hx) as (x2 & Hx2 & Hl2 & Hs2).
  destruct (H23 _ _ Hx2) as (x3 & Hx3 & Hl3 & Hs3).
  exists x3. split_and!; [done|congruence|].
  intros Hne. rewrite Hs3, Hs2; done.
Qed.

(** A frame around an array allocated after [l] leaves [l] as a prefix. *)
Lemma arrays_frame_prefix st st' l new :
  arrays st = l ++ new ->
  arrays_frame (length l) st st' ->
  exists new', arrays st' = l ++ new'.
Proof.
  intros Harr Hframe. exists (drop (length l) (arrays st')).
  rewrite <- (take_drop (length l) (arrays st')) at 1. f_equal.
  apply list_eq. intros i. rewrite lookup_take.
  case_decide as Hi.
  - destruct (lookup_lt_is_Some_2 l i Hi) as [x Hx].
    destruct (Hframe i x) as (x' & Hx' & _ & Hsame).
    { by rewrite Harr, (lookup_app_l_Some _ _ _ _ Hx). }
    rewrite Hx', Hx, Hsame; [done|lia].
  - symmetry. apply lookup_ge_None_2. lia.
Qed.

(** ** Running computations on the store *)

Ltac mrun :=
  unfold newCmd, modifyCmd, getCmd, newBuilder, getBuilder, newBuffer,
    readBuffer, writeTo, newArray, panic, mbind, M_bind, mret, M_ret,
    get, modify;
  cbn.

Lemma run_bind {A B} (m : M A) (k : A -> M B) st :
  (m ≫= k) st = match m st with Some (a, st') => k a st' | None => None end.
Proof. reflexivity. Qed.

Lemma run_getCmd p st c :
  cmds st !! p = Some c -> getCmd p st = Some (c, st).
Proof. intros H. mrun. by rewrite H. Qed.

Lemma run_modifyCmd p upd st c :
  cmds st !! p = Some c ->
  modifyCmd p upd st = Some (tt, set_cmds (<[p := upd c]> (cmds st)) st).
Proof. intros H. mrun. by rewrite H. Qed.

Lemma run_getBuilder p st b :
  builders st !! p = Some b -> getBuilder p st = Some (b, st).
Proof. intros H. mrun. by rewrite H. Qed.

(** [append] extends what the slice shows by [vs], and touches no array
    but the one of the slice. *)
Lemma run_append h s vs st :
  valid_slice st s ->
  exists s' st',
    append h s vs st = Some (s', st') /\
    cmds st' = cmds st /\ builders st' = builders st /\
    buffers st' = buffers st /\ files st' = files st /\
    elems st' s' = elems st s ++ vs /\
    valid_slice st' s' /\
    (s_array s' = s_array s
     \/ length (arrays st) <= s_array s' < length (arrays st')) /\
    length (arrays st) <= length (arrays st') /\
    arrays_frame (s_array s) st st'.
Proof.
  intros [Hlen Hv].
  assert (length (elems st s) = s_len s) as Hel.
  { destruct (decide (s_cap s = 0)) as [Hcap|Hcap].
    - destruct (valid_slice_nil st s Hlen Hcap) as [_ ->]. cbn. lia.
    - specialize (Hv ltac:(lia)). unfold elems.
      destruct (arrays st !! s_array s) as [a|]; [|done]. cbn.
      rewrite length_take, length_drop. lia. }
  unfold append. destruct (s_len s + length vs <=? s_cap s) eqn:Hfit.
  - apply Nat.leb_le in Hfit. mrun.
    eexists _, _. split; [reflexivity|]. cbn. split_and!; try done.
    + destruct (decide (s_cap s = 0)) as [Hcap|Hcap].
      * destruct (valid_slice_nil st s Hlen Hcap) as [_ ->].
        assert (vs = []) as -> by (apply length_zero_iff_nil; lia).
        unfold elems. cbn. by replace (s_len s + 0) with 0 by lia.
      * specialize (Hv ltac:(lia)). unfold elems. cbn.
        rewrite list_lookup_alter_eq.
        destruct (arrays st !! s_array s) as [a|]; [|done]. cbn.
        apply window_inserts. lia.
    + split; cbn; [lia|]. intros Hpos. specialize (Hv Hpos).
      rewrite list_lookup_alter_eq.
      destruct (arrays st !! s_array s) as [a|]; [|done]. cbn.
      rewrite length_inserts. lia.
    + by left.
    + by rewrite length_alter.
    + intros i x Hi. cbn.
      destruct (decide (i = s_array s)) as [->|Hne].
      * rewrite list_lookup_alter_eq, Hi. cbn. eexists. split; [done|].
        split; [apply length_inserts|done].
      * rewrite list_lookup_alter_ne by done. eauto.
  - apply Nat.leb_gt in Hfit. mrun.
    eexists _, _. split; [reflexivity|]. cbn.
    split_and!; try done.
    + unfold elems at 1. cbn. rewrite lookup_snoc. cbn.
      rewrite drop_0. apply take_app_length.
    + split; cbn; [rewrite length_app, Hel; lia|]. intros _.
      rewrite lookup_snoc.
      rewrite length_app, length_replicate, !length_app, Hel. lia.
    + right. cbn. rewrite length_app. cbn. lia.
    + rewrite length_app. lia.
    + intros i x Hi. cbn. exists x. by rewrite (lookup_app_l_Some _ _ _ _ Hi).
Qed.

Lemma run_Cmd h name args st :
  Cmd h name args st =
  Some (length (builders st),
        {| cmds := cmds st
                   ++ [initial h name args
                         (environ_slice h (length (arrays st)))];
           builders := builders st ++ [{| cmd := length (cmds st) |}];
           arrays := arrays st
                     ++ [environment h
                         ++ replicate (length (envs h)
                                       - length (environment h)) []];
           buffers := buffers st;
           files := files st |}).
Proof.
  unfold Cmd, os_exec.Command, os.Environ. mrun.
  rewrite lookup_snoc. cbn. rewrite insert_snoc. cbn.
  rewrite lookup_snoc. cbn. rewrite insert_snoc.
  reflexivity.
Qed.

Lemma set_Env_same c : exec.set_Env (exec.Env c) c = c.
Proof. by destruct c. Qed.

(** [p.Env = append(p.Env, vs...)] changes the command at [p] in its
    environment only, which it extends by [vs], and no array but the one
    that environment was in. *)
Lemma run_appendEnv h p vs st c :
  cmds st !! p = Some c ->
  valid_slice st (exec.Env c) ->
  exists env' st',
    appendEnv h p vs st = Some (tt, st') /\
    cmds st' = <[p := exec.set_Env env' c]> (cmds st) /\
    builders st' = builders st /\
    buffers st' = buffers st /\ files st' = files st /\
    elems st' env' = elems st (exec.Env c) ++ vs /\
    valid_slice st' env' /\
    (s_array env' = s_array (exec.Env c)
     \/ length (arrays st) <= s_array env' < length (arrays st')) /\
    length (arrays st) <= length (arrays st') /\
    arrays_frame (s_array (exec.Env c)) st st'.
Proof.
  intros Hc Hv.
  destruct (run_append h _ vs _ Hv)
    as (env' & st1 & Happ & Hcmds & Hb & Hbuf & Hf & Hel & Hv' & Hfresh
        & Hlen & Hframe).
  exists env', (set_cmds (<[p := exec.set_Env env' c]> (cmds st1)) st1).
  split.
  - unfold appendEnv. rewrite run_bind, (run_getCmd _ _ _ Hc).
    rewrite run_bind, Happ. apply run_modifyCmd. by rewrite Hcmds.
  - cbn. rewrite Hcmds. split_and!; try done.
Qed.


(** ** The constructors *)

Lemma environ_slice_valid h st a :
  arrays st !! a
  = Some (environment h
          ++ replicate (length (envs h) - length (environment h)) []) ->
  valid_slice st (environ_slice h a)
  /\ elems st (environ_slice h a) = environment h.
Proof.
  intros Ha. pose proof (length_environment h).
  unfold valid_slice, elems. cbn. rewrite Ha. cbn.
  rewrite length_app, length_replicate. split; [split; [lia|intros _; lia]|].
  apply take_app_length.
Qed.

(** The four overrides of [CmdFactory.Cmd], on the command just built. *)
Lemma run_overrides {A} o l c0 st1 (k : unit -> M A) :
  cmds st1 = l ++ [c0] ->
  (match Stdin o with
   | Some r => modifyCmd (length l) (exec.set_Stdin (Some r))
   | None => mret tt
   end ≫= fun _ =>
   match Stdout o with
   | Some w => modifyCmd (length l) (exec.set_Stdout (Some w))
   | None => mret tt
   end ≫= fun _ =>
   match Stderr o with
   | Some w => modifyCmd (length l) (exec.set_Stderr (Some w))
   | None => mret tt
   end ≫= fun _ =>
   (if bool_decide (Dir o ≠ [])
    then modifyCmd (length l) (exec.set_Dir (Dir o))
    else mret tt) ≫= k) st1
  = k tt (set_cmds (l ++ [stamp o c0 (exec.Env c0)]) st1).
Proof.
  intros Hc. unfold stamp. destruct st1 as [cs bs ars bufs fs].
  cbn in Hc. subst cs.
  destruct (Stdin o), (Stdout o), (Stderr o), (bool_decide (Dir o ≠ []));
    mrun;
    repeat (first [rewrite lookup_snoc | rewrite insert_snoc]; cbn);
    destruct c0; reflexivity.
Qed.

(** [CmdFactory.Cmd] allocates one command and one builder, changes
    nothing that existed, and leaves the default command stamped with the
    options, its environment extended by the entries of the factory. *)
Lemma run_factory_Cmd h f name args st :
  valid_slice st (Env (Options f)) ->
  exists env' st',
    CmdFactory.Cmd h f name args st = Some (length (builders st), st') /\
    builders st' = builders st ++ [{| cmd := length (cmds st) |}] /\
    cmds st' = cmds st
               ++ [stamp (Options f)
                     (initial h name args
                        (environ_slice h (length (arrays st)))) env'] /\
    (exists new, arrays st' = arrays st ++ new) /\
    buffers st' = buffers st /\ files st' = files st /\
    elems st' env' = environment h ++ elems st (Env (Options f)) /\
    valid_slice st' env' /\
    length (arrays st) <= s_array env' < length (arrays st').
Proof.
  intros Hv. set (o := Options f) in *.
  set (c0 := initial h name args (environ_slice h (length (arrays st)))).
  unfold CmdFactory.Cmd. rewrite run_bind, run_Cmd. fold c0.
  rewrite run_bind. erewrite run_getBuilder by (cbn; apply lookup_snoc).
  cbn [cmd]. fold o.
  set (st1 := {| cmds := cmds st ++ [c0] |}).
  rewrite (run_overrides o (cmds st) c0 st1) by reflexivity.
  set (st2 := set_cmds _ st1).
  assert (valid_slice st2 (environ_slice h (length (arrays st)))
          /\ elems st2 (environ_slice h (length (arrays st)))
             = environment h) as [Hv0 Hel0].
  { apply environ_slice_valid. cbn. apply lookup_snoc. }
  destruct (valid_slice_grow st st2 (Env o) _ eq_refl Hv) as [Hvo Helo].
  destruct (0 <? s_len (Env o)) eqn:Hlen.
  - rewrite !run_bind. cbn [get].
    destruct (run_appendEnv h (length (cmds st)) (elems st2 (Env o)) st2
                (stamp o c0 (exec.Env c0))) as
      (env' & st' & Hrun & Hcmds & Hb & Hbuf & Hf & Hel & Hv' & Hfresh
       & Hgrow & Hframe).
    { cbn. apply lookup_snoc. }
    { done. }
    rewrite Hrun. exists env', st'. split; [reflexivity|].
    split_and!; try done.
    + rewrite Hcmds. cbn. by rewrite insert_snoc.
    + eapply (arrays_frame_prefix st2); [reflexivity|done].
    + rewrite Hel. change (exec.Env (stamp o c0 (exec.Env c0)))
        with (environ_slice h (length (arrays st))).
      by rewrite Hel0, Helo.
    + cbn in Hfresh, Hgrow. rewrite length_app in Hfresh, Hgrow.
      cbn in Hfresh, Hgrow. destruct Hfresh as [->|?]; cbn; lia.
    + cbn in Hfresh, Hgrow. rewrite length_app in Hfresh, Hgrow.
      cbn in Hfresh, Hgrow. destruct Hfresh as [->|?]; cbn; lia.
  - exists (exec.Env c0), st2. split; [reflexivity|].
    apply Nat.ltb_ge in Hlen.
    split_and!; try done.
    + by eexists.
    + change (exec.Env c0) with (environ_slice h (length (arrays st))).
      rewrite Hel0. unfold elems at 1.
      replace (s_len (Env o)) with 0 by lia. cbn. by rewrite app_nil_r.
    + cbn. rewrite length_app. cbn. lia.
Qed.

Lemma command_last st bs cs c :
  builders st = bs ++ [{| cmd := length cs |}] ->
  cmds st = cs ++ [c] ->
  command st (length bs) = Some c.
Proof.
  intros Hb Hc. unfold command. rewrite Hb, lookup_snoc. cbn.
  by rewrite Hc, lookup_snoc.
Qed.

(** C4: for every name and argument list, [Cmd(name, args...)] returns a
    builder whose specification has the error stream of the calling
    process as stderr and the environment of the calling process as
    environment, and has stdin and stdout unset; an unset stream is the
    null device: what a process writes to it goes nowhere. *)
Theorem Cmd_defaults h name args st :
  exists b st' sp,
    Cmd h name args st = Some (b, st') /\
    specification st' b = Some sp /\
    sp_Args sp = name :: args /\
    sp_Stderr sp = Some os.Stderr /\
    sp_Env sp = environment h /\
    sp_Stdin sp = None /\
    sp_Stdout sp = None /\
    (forall p, deliver (sp_Stdout sp) p st' = st').
Proof.
  rewrite run_Cmd. eexists _, _, _. split; [reflexivity|].
  split.
  { unfold specification. erewrite command_last by reflexivity.
    reflexivity. }
  split_and!; try done.
  apply environ_slice_valid. cbn. apply lookup_snoc.
Qed.

(** C3: [CmdFactory.Cmd(name, args...)] returns the builder [Cmd(name,
    args...)] returns, with stdin, stdout and stderr replaced by the
    factory's where the factory's is non-nil, the directory replaced by the
    factory's where that is non-empty, and the entries of the factory's
    environment appended to the default environment (none when the factory
    has none); with no option set, the factory's [Cmd] is the plain [Cmd]:
    it returns the same builder and leaves the same store, whatever the
    store is.  The environment of the factory is a well-formed slice, which
    the nil slice of a factory made without one is in every store. *)
Theorem factory_Cmd_overrides h f name args st :
  (no_options (Options f) ->
   CmdFactory.Cmd h f name args st = Cmd h name args st) /\
  (valid_slice st (Env (Options f)) ->
   exists b st0 sp0 st1 sp1,
     Cmd h name args st = Some (b, st0) /\
     specification st0 b = Some sp0 /\
     CmdFactory.Cmd h f name args st = Some (b, st1) /\
     specification st1 b = Some sp1 /\
     sp_Path sp1 = sp_Path sp0 /\
     sp_Args sp1 = sp_Args sp0 /\
     sp_Stdin sp1 = override (Stdin (Options f)) (sp_Stdin sp0) /\
     sp_Stdout sp1 = override (Stdout (Options f)) (sp_Stdout sp0) /\
     sp_Stderr sp1 = override (Stderr (Options f)) (sp_Stderr sp0) /\
     sp_Dir sp1 = (if bool_decide (Dir (Options f) = [])
                   then sp_Dir sp0 else Dir (Options f)) /\
     sp_Env sp1 = sp_Env sp0 ++ elems st (Env (Options f)) /\
     (s_len (Env (Options f)) = 0 -> sp_Env sp1 = sp_Env sp0)).
Proof.
  split.
  { intros (Hi & Ho & He & Hd & Hn).
    unfold CmdFactory.Cmd. rewrite Hi, Ho, He, Hd, Hn.
    rewrite run_bind, run_Cmd. mrun. by rewrite lookup_snoc. }
  intros Hv.
  destruct (run_factory_Cmd h f name args st Hv)
    as (env' & st1 & Hrun & Hb & Hc & Hnew & Hbuf & Hf & Hel & Hv' & Hfresh).
  rewrite run_Cmd, Hrun.
  set (st0 := {| cmds := cmds st ++ _ |}) in *.
  assert (elems st0 (environ_slice h (length (arrays st))) = environment h)
    as Hel0.
  { apply environ_slice_valid. cbn. apply lookup_snoc. }
  eexists _, st0, _, st1, _. split; [reflexivity|].
  split.
  { unfold specification. erewrite command_last by reflexivity.
    reflexivity. }
  split; [reflexivity|].
  split.
  { unfold specification. erewrite command_last by done. reflexivity. }
  split_and!; try reflexivity.
  - cbn. by repeat case_bool_decide.
  - change (elems st1 env'
            = elems st0 (environ_slice h (length (arrays st)))
              ++ elems st (Env (Options f))).
    by rewrite Hel, Hel0.
  - intros Hlen.
    change (elems st1 env'
            = elems st0 (environ_slice h (length (arrays st)))).
    rewrite Hel, Hel0. unfold elems. rewrite Hlen. cbn. by rewrite app_nil_r.
Qed.

(** On a store in which nothing is allocated yet: the factory made of
    [CmdFactoryOptions{}] builds what [Cmd] builds, and the factory of the
    README builds the default builder with its stdout and directory.  On the
    example store: the example factory. *)
Lemma factory_Cmd_overrides_witness :
  (no_options (Options (NewFactory zero_options)) /\
   CmdFactory.Cmd demo_host (NewFactory zero_options) (go "ls") [go "-l"]
     empty_store
   = Cmd demo_host (go "ls") [go "-l"] empty_store) /\
  (valid_slice empty_store (Env (Options readme_factory)) /\
   exists b st1 sp1,
     CmdFactory.Cmd demo_host readme_factory (go "terraform") [go "init"]
       empty_store
     = Some (b, st1) /\
     specification st1 b = Some sp1 /\
     sp_Stdin sp1 = None /\
     sp_Stdout sp1 = Some os.Stdout /\
     sp_Stderr sp1 = Some os.Stderr /\
     sp_Dir sp1 = go "/srv/infra" /\
     sp_Env sp1 = [go "PATH=/bin"; go "SHELL=/bin/sh"]) /\
  (valid_slice demo_store (Env (Options demo_factory)) /\
   exists b st1 sp1,
     CmdFactory.Cmd demo_host demo_factory (go "ls") [go "-l"] demo_store
     = Some (b, st1) /\
     specification st1 b = Some sp1 /\
     sp_Stdin sp1 = None /\
     sp_Stdout sp1 = Some (io.Plain (io.Buffer 0)) /\
     sp_Stderr sp1 = Some os.Stderr /\
     sp_Dir sp1 = go "/tmp" /\
     sp_Env sp1 = [go "PATH=/bin"; go "SHELL=/bin/sh";
                   go "LANG=C"; go "TERM=dumb"]).
Proof.
  split; [|split].
  - assert (no_options (Options (NewFactory zero_options))) as Hno
      by (by split_and!).
    split; [exact Hno|].
    exact (proj1 (factory_Cmd_overrides demo_host (NewFactory zero_options)
                    (go "ls") [go "-l"] empty_store) Hno).
  - assert (valid_slice empty_store (Env (Options readme_factory))) as Hv
      by (vm_compute; lia).
    split; [exact Hv|].
    destruct (proj2 (factory_Cmd_overrides demo_host readme_factory
                (go "terraform") [go "init"] empty_store) Hv)
      as (b & st0 & sp0 & st1 & sp1 & H0 & Hs0 & H1 & Hs1 & _ & _ & Hin
          & Hout & Herr & Hdir & Henv & _).
    exists b, st1, sp1.
    vm_compute in H0. injection H0 as <- <-.
    vm_compute in Hs0. injection Hs0 as <-.
    split_and!; done.
  - assert (valid_slice demo_store (Env (Options demo_factory))) as Hv
      by (vm_compute; lia).
    split; [exact Hv|].
    destruct (proj2 (factory_Cmd_overrides demo_host demo_factory (go "ls")
                [go "-l"] demo_store) Hv)
      as (b & st0 & sp0 & st1 & sp1 & H0 & Hs0 & H1 & Hs1 & _ & _ & Hin
          & Hout & Herr & Hdir & Henv & _).
    exists b, st1, sp1.
    vm_compute in H0. injection H0 as <- <-.
    vm_compute in Hs0. injection Hs0 as <-.
    split_and!; done.
Defined.

(** C6: [Shell(argString)] chooses the shell from the operating system of
    the host alone: [bash -c] on Linux, [zsh -c] on macOS, [powershell
    -Command] on Windows, and [$SHELL -c] anywhere else; the factory's
    [Shell] chooses the same way and builds through the factory's [Cmd]. *)
Theorem Shell_by_host h f args :
  (GOOS h = go "linux" ->
   Shell h args = Cmd h (go "bash") [go "-c"; args] /\
   CmdFactory.Shell h f args
   = CmdFactory.Cmd h f (go "bash") [go "-c"; args]) /\
  (GOOS h = go "darwin" ->
   Shell h args = Cmd h (go "zsh") [go "-c"; args] /\
   CmdFactory.Shell h f args
   = CmdFactory.Cmd h f (go "zsh") [go "-c"; args]) /\
  (GOOS h = go "windows" ->
   Shell h args = Cmd h (go "powershell") [go "-Command"; args] /\
   CmdFactory.Shell h f args
   = CmdFactory.Cmd h f (go "powershell") [go "-Command"; args]) /\
  (GOOS h <> go "linux" -> GOOS h <> go "darwin" ->
   GOOS h <> go "windows" ->
   Shell h args = Cmd h (os.Getenv h (go "SHELL")) [go "-c"; args] /\
   CmdFactory.Shell h f args
   = CmdFactory.Cmd h f (os.Getenv h (go "SHELL")) [go "-c"; args]).
Proof.
  unfold Shell, CmdFactory.Shell. split_and!.
  - intros ->. done.
  - intros ->. done.
  - intros ->. done.
  - intros H1 H2 H3. by rewrite !bool_decide_eq_false_2.
Qed.

Lemma Shell_by_host_witness :
  (GOOS demo_host = go "linux" /\
   Shell demo_host (go "echo hi")
   = Cmd demo_host (go "bash") [go "-c"; go "echo hi"]) /\
  (GOOS (demo_host_on (go "darwin")) = go "darwin" /\
   Shell (demo_host_on (go "darwin")) (go "echo hi")
   = Cmd (demo_host_on (go "darwin")) (go "zsh") [go "-c"; go "echo hi"]) /\
  (GOOS (demo_host_on (go "windows")) = go "windows" /\
   CmdFactory.Shell (demo_host_on (go "windows")) demo_factory (go "dir")
   = CmdFactory.Cmd (demo_host_on (go "windows")) demo_factory
       (go "powershell") [go "-Command"; go "dir"]) /\
  (GOOS (demo_host_on (go "plan9")) <> go "linux" /\
   GOOS (demo_host_on (go "plan9")) <> go "darwin" /\
   GOOS (demo_host_on (go "plan9")) <> go "windows" /\
   Shell (demo_host_on (go "plan9")) (go "echo hi")
   = Cmd (demo_host_on (go "plan9")) (go "/bin/sh") [go "-c"; go "echo hi"]).
Proof.
  split; [|split; [|split]].
  - split; [reflexivity|].
    apply (Shell_by_host demo_host demo_factory). reflexivity.
  - split; [reflexivity|].
    apply (Shell_by_host (demo_host_on (go "darwin")) demo_factory).
    reflexivity.
  - split; [reflexivity|].
    apply (Shell_by_host (demo_host_on (go "windows")) demo_factory).
    reflexivity.
  - split; [discriminate|]. split; [discriminate|]. split; [discriminate|].
    apply (Shell_by_host (demo_host_on (go "plan9")) demo_factory
             (go "echo hi")); discriminate.
Defined.

(** ** Streams *)

Lemma received_write_same p st s :
  valid_stream st s -> received (writeStream p st s) s = received st s ++ p.
Proof.
  destruct s as [fd|b]; cbn.
  - intros _. by rewrite lookup_insert_eq.
  - intros Hb. rewrite list_lookup_alter_eq.
    destruct (lookup_lt_is_Some_2 _ _ Hb) as [d ->]. done.
Qed.

Lemma received_write_other p st s s' :
  s <> s' -> received (writeStream p st s') s = received st s.
Proof.
  destruct s as [fd|b], s' as [fd'|b']; cbn; intros Hne; try done.
  - rewrite lookup_insert_ne; [done|congruence].
  - rewrite list_lookup_alter_ne; [done|congruence].
Qed.

Lemma length_buffers_write p st s :
  length (buffers (writeStream p st s)) = length (buffers st).
Proof. destruct s; cbn; [done|apply length_alter]. Qed.

Lemma length_buffers_writes p ms st :
  length (buffers (foldl (writeStream p) st ms)) = length (buffers st).
Proof.
  revert st. induction ms as [|s ms IH]; intros st; cbn; [done|].
  by rewrite IH, length_buffers_write.
Qed.

Lemma writes_set_cmds p v ms st :
  foldl (writeStream p) (set_cmds v st) ms
  = set_cmds v (foldl (writeStream p) st ms).
Proof.
  revert st. induction ms as [|s ms IH]; intros st; cbn; [done|].
  rewrite <- IH. by destruct s.
Qed.

Lemma writes_fields p ms st :
  cmds (foldl (writeStream p) st ms) = cmds st /\
  builders (foldl (writeStream p) st ms) = builders st /\
  arrays (foldl (writeStream p) st ms) = arrays st.
Proof.
  revert st. induction ms as [|s ms IH]; intros st; cbn; [done|].
  destruct (IH (writeStream p st s)) as (-> & -> & ->). by destruct s.
Qed.

Lemma deliver_set_cmds w p v st :
  deliver w p (set_cmds v st) = set_cmds v (deliver w p st).
Proof. destruct w; [apply writes_set_cmds|done]. Qed.

Lemma deliver_fields w p st :
  cmds (deliver w p st) = cmds st /\
  builders (deliver w p st) = builders st /\
  arrays (deliver w p st) = arrays st.
Proof. destruct w; [apply writes_fields|done]. Qed.

(** A stream that is not among the writers receives nothing. *)
Lemma received_writes_other p ms st s :
  s ∉ ms -> received (foldl (writeStream p) st ms) s = received st s.
Proof.
  revert st. induction ms as [|s' ms IH]; intros st Hs; cbn; [done|].
  apply not_elem_of_cons in Hs as [Hne Hs].
  by rewrite IH, received_write_other.
Qed.

(** A stream that is among the writers once receives the text once. *)
Lemma received_writes_once p ms st s :
  NoDup ms -> s ∈ ms -> valid_stream st s ->
  received (foldl (writeStream p) st ms) s = received st s ++ p.
Proof.
  revert st. induction ms as [|s' ms IH]; intros st Hnd Hs Hv.
  { by apply elem_of_nil in Hs. }
  apply NoDup_cons in Hnd as [Hnot Hnd]. cbn.
  apply elem_of_cons in Hs as [->|Hs].
  - by rewrite received_writes_other, received_write_same.
  - rewrite IH; try done.
    + rewrite received_write_other; [done|]. by intros ->.
    + destruct s; cbn in *; [done|]. by rewrite length_buffers_write.
Qed.

Lemma same_streams_write st st1 st2 p s :
  same_streams st st1 st2 -> valid_stream st s ->
  same_streams st (writeStream p st1 s) (writeStream p st2 s).
Proof.
  intros (H1 & H2 & Hsame) Hs. unfold same_streams.
  rewrite !length_buffers_write. split_and!; try done.
  intros s' Hs'. destruct (decide (s' = s)) as [->|Hne].
  - rewrite !received_write_same.
    + by rewrite Hsame.
    + destruct s; cbn in *; [done|lia].
    + destruct s; cbn in *; [done|lia].
  - by rewrite !received_write_other, Hsame.
Qed.

Lemma same_streams_writes st st1 st2 p ms :
  same_streams st st1 st2 -> Forall (valid_stream st) ms ->
  same_streams st (foldl (writeStream p) st1 ms)
    (foldl (writeStream p) st2 ms).
Proof.
  revert st1 st2. induction ms as [|s ms IH]; intros st1 st2 Hsame Hms;
    cbn; [done|].
  apply Forall_cons in Hms as [Hs Hms].
  apply IH; [|done]. by apply same_streams_write.
Qed.

(** Writing to a cell [st] does not have is not seen in the streams of
    [st]. *)
Lemma same_streams_extra st st1 st2 p s :
  same_streams st st1 st2 -> ~ valid_stream st s ->
  same_streams st (writeStream p st1 s) st2.
Proof.
  intros (H1 & H2 & Hsame) Hs. unfold same_streams.
  rewrite length_buffers_write. split_and!; try done.
  intros s' Hs'. rewrite received_write_other; [by apply Hsame|].
  by intros ->.
Qed.

Lemma same_streams_deliver st st1 st2 w p :
  same_streams st st1 st2 -> valid_writer st w ->
  same_streams st (deliver w p st1) (deliver w p st2).
Proof. destruct w; cbn; [apply same_streams_writes|done]. Qed.

(** ** Running a command *)

Lemma lookup_insert_same {A} (l : list A) p x y :
  l !! p = Some x -> <[p := y]> l !! p = Some y.
Proof. intros H. apply list_lookup_insert_eq. by eapply lookup_lt_Some. Qed.

Lemma create_attempted h st c o :
  create h st c = inr o -> attempted c = exec.set_startCalled true c.
Proof.
  unfold create, attempted. cbn.
  by destruct (bool_decide (exec.Path c = [])
               && bool_decide (exec.Err c = None)).
Qed.

Lemma run_deliver {A} (w : option io.Writer) p (k : unit -> M A) st :
  (match w with
   | Some w => writeTo w p
   | None => mret tt
   end ≫= k) st = k tt (deliver w p st).
Proof. by destruct w. Qed.

Lemma run_streams_fields h st c :
  builders (run_streams h st c) = builders st /\
  arrays (run_streams h st c) = arrays st /\
  length (buffers (run_streams h st c)) = length (buffers st).
Proof.
  unfold run_streams. destruct (create h st c) as [e|o]; [done|].
  destruct (deliver_fields (exec.Stderr c) (exec.stderr o)
              (deliver (exec.Stdout c) (exec.stdout o) st))
    as (_ & -> & ->).
  destruct (deliver_fields (exec.Stdout c) (exec.stdout o) st)
    as (_ & -> & ->).
  split_and!; try done.
  unfold deliver.
  destruct (exec.Stderr c), (exec.Stdout c);
    by rewrite ?length_buffers_writes.
Qed.

(** [Start] reports the error that prevented the process, if any; what the
    process writes goes to the writers of the command, and beyond that only
    the command itself has changed. *)
Lemma run_Start_final h p st c :
  cmds st !! p = Some c -> unlaunched c ->
  os_exec.Start h p st
  = Some (match create h st c with inl e => Some e | inr _ => None end,
          set_cmds (<[p := started h st c]> (cmds st)) (run_streams h st c)).
Proof.
  intros Hc (Hp & Hs & Hf).
  unfold os_exec.Start, started, run_streams, create, attempted.
  rewrite run_bind, (run_getCmd _ _ _ Hc), Hp, Hf. cbn zeta.
  change (exec.Path (exec.set_startCalled true c)) with (exec.Path c).
  change (exec.Err (exec.set_startCalled true c)) with (exec.Err c).
  destruct (bool_decide (exec.Path c = []) && bool_decide (exec.Err c = None))
    eqn:Hno.
  - rewrite run_bind, (run_modifyCmd _ _ _ _ Hc). reflexivity.
  - rewrite run_bind, (run_modifyCmd _ _ _ _ Hc). cbn.
    destruct (exec.Err c) as [e|] eqn:He; [reflexivity|].
    rewrite run_bind. cbn [get].
    change (elems (set_cmds _ st) (exec.Env c)) with (elems st (exec.Env c)).
    destruct (StartProcess h (exec.Path c) (exec.Args c) (exec.Dir c)
                (elems st (exec.Env c)) (exec.Stdin c)) as [e|o] eqn:Hsp;
      [reflexivity|].
    rewrite run_bind.
    erewrite run_modifyCmd by (cbn; by eapply lookup_insert_same).
    rewrite run_deliver, run_deliver.
    cbn. rewrite list_insert_insert_eq, !deliver_set_cmds. reflexivity.
Qed.

Lemma run_Start h p st c :
  cmds st !! p = Some c -> unlaunched c ->
  exists c',
    os_exec.Start h p st
    = Some (match create h st c with inl e => Some e | inr _ => None end,
            set_cmds (<[p := c']> (cmds st)) (run_streams h st c)).
Proof. intros Hc Hun. eexists. by apply run_Start_final. Qed.

(** [Wait] records the exit status of the process and reports it. *)
Lemma run_Wait p st c o :
  cmds st !! p = Some c ->
  exec.Process c = Some o -> exec.ProcessState c = None ->
  os_exec.Wait p st
  = Some (exit_error o,
          set_cmds (<[p := exec.set_ProcessState (Some (exec.status o)) c]>
                      (cmds st)) st).
Proof.
  intros Hc Hp Hs. unfold os_exec.Wait.
  rewrite run_bind, (run_getCmd _ _ _ Hc), Hp, Hs.
  rewrite run_bind, (run_modifyCmd _ _ _ _ Hc). reflexivity.
Qed.

(** [Run] reports [run_error], and the streams end as [run_streams] says;
    beyond that only the command itself has changed. *)
Lemma run_Run_final h p st c :
  cmds st !! p = Some c -> unlaunched c ->
  os_exec.Run h p st
  = Some (run_error h st c,
          set_cmds (<[p := finished h st c]> (cmds st))
            (run_streams h st c)).
Proof.
  intros Hc Hun. unfold os_exec.Run.
  rewrite run_bind, (run_Start_final h p st c Hc Hun).
  unfold run_error, run_streams, started, finished.
  destruct (create h st c) as [e|o] eqn:Hcr; [reflexivity|].
  rewrite (create_attempted _ _ _ _ Hcr).
  erewrite run_Wait; cycle 1.
  - cbn. by eapply lookup_insert_same.
  - reflexivity.
  - cbn. apply Hun.
  - cbn. by rewrite list_insert_insert_eq.
Qed.

Lemma run_Run h p st c :
  cmds st !! p = Some c -> unlaunched c ->
  exists c',
    os_exec.Run h p st
    = Some (run_error h st c,
            set_cmds (<[p := c']> (cmds st)) (run_streams h st c)).
Proof. intros Hc Hun. eexists. by apply run_Run_final. Qed.

(** ** Output and Lines *)

Lemma run_newBuffer st :
  newBuffer st
  = Some (length (buffers st), set_buffers (buffers st ++ [[]]) st).
Proof. reflexivity. Qed.

Lemma run_readBuffer b st :
  readBuffer b st = Some (received st (io.Buffer b), st).
Proof. reflexivity. Qed.

Lemma received_set_cmds v st s : received (set_cmds v st) s = received st s.
Proof. by destruct s. Qed.

Lemma same_streams_set_cmds st st1 st2 v :
  same_streams st st1 st2 -> same_streams st (set_cmds v st1) st2.
Proof.
  intros (H1 & H2 & Hsame). by split_and!.
Qed.

Lemma same_streams_new_buffers st extra :
  same_streams st (set_buffers (buffers st ++ extra) st) st.
Proof.
  split_and!; cbn; [rewrite length_app; lia|done|].
  intros [fd|b] Hs; cbn in *; [done|]. by rewrite lookup_app_l.
Qed.

Lemma fresh_buffer_not_member st ms :
  Forall (valid_stream st) ms -> forall n,
  io.Buffer (length (buffers st) + n) ∉ ms.
Proof.
  intros Hms n Hin. rewrite Forall_forall in Hms.
  specialize (Hms _ Hin). cbn in Hms. lia.
Qed.

Lemma fresh_buffer_invalid st n :
  ~ valid_stream st (io.Buffer (length (buffers st) + n)).
Proof. cbn. lia. Qed.

(** Creating the process looks at the fields [Output] leaves alone. *)
Lemma create_Output_frame h st c v bufs out err :
  create h (set_cmds v (set_buffers bufs st))
    (exec.set_Stderr err (exec.set_Stdout out c))
  = create h st c.
Proof. reflexivity. Qed.

(** [exec]'s own [Output], for a command without stdout: the whole
    standard output of the process, with the error of the run. *)
Lemma run_exec_Output h p st c :
  cmds st !! p = Some c -> unlaunched c ->
  exec.Stdout c = None -> valid_writer st (exec.Stderr c) ->
  exists st',
    os_exec.Output h p st
    = Some ((match create h st c with
             | inl _ => []
             | inr o => exec.stdout o
             end, run_error h st c), st') /\
    same_streams st st' (run_streams h st c).
Proof.
  intros Hc Hun Hout Hve. unfold os_exec.Output.
  rewrite run_bind, (run_getCmd _ _ _ Hc), Hout.
  rewrite run_bind, run_newBuffer.
  rewrite run_bind. erewrite run_modifyCmd by (cbn; exact Hc).
  set (nb := length (buffers st)).
  destruct (exec.Stderr c) as [we|] eqn:Herr.
  - rewrite !run_bind. cbn [mret M_ret].
    set (cb := exec.set_Stdout _ c).
    set (stb := set_cmds _ _).
    destruct (run_Run h p stb cb) as (c' & Hrun).
    { cbn. by eapply lookup_insert_same. }
    { exact Hun. }
    rewrite run_bind, Hrun, run_bind, run_readBuffer, received_set_cmds.
    unfold run_error, run_streams.
    change (create h stb cb) with (create h st c).
    match goal with
    | |- context [received ?x (io.Buffer nb)] =>
        assert (received x (io.Buffer nb)
                = match create h st c with
                  | inl _ => []
                  | inr o => exec.stdout o
                  end) as ->
    end.
    { destruct (create h st c) as [e|o];
        [by unfold stb, nb; cbn; rewrite lookup_snoc|].
      change (exec.Stderr cb) with (exec.Stderr c). rewrite Herr.
      change (exec.Stdout cb) with (Some (io.Plain (io.Buffer nb))).
      unfold deliver. rewrite received_writes_other.
      * cbn [io.members foldl]. rewrite received_write_same.
        -- unfold stb, nb. cbn. by rewrite lookup_snoc.
        -- unfold stb, nb. cbn. rewrite length_app. cbn. lia.
      * pose proof (fresh_buffer_not_member st _ Hve 0) as Hn.
        by rewrite Nat.add_0_r in Hn. }
    eexists. split; [reflexivity|].
    apply same_streams_set_cmds.
    destruct (create h st c) as [e|o].
    + apply same_streams_set_cmds, same_streams_new_buffers.
    + change (exec.Stderr cb) with (exec.Stderr c). rewrite Hout, Herr.
      apply same_streams_deliver; [|done].
      apply same_streams_extra; [|unfold nb; cbn; lia].
      apply same_streams_set_cmds, same_streams_new_buffers.
  - rewrite !run_bind. rewrite run_newBuffer.
    erewrite run_modifyCmd by (cbn; by eapply lookup_insert_same).
    set (cb := exec.set_Stderr _ (exec.set_Stdout _ c)).
    set (stb := set_cmds _ _).
    destruct (run_Run h p stb cb) as (c' & Hrun).
    { cbn. rewrite list_insert_insert_eq. by eapply lookup_insert_same. }
    { exact Hun. }
    rewrite ?run_bind, Hrun, run_bind, run_readBuffer, received_set_cmds.
    unfold run_error, run_streams.
    change (create h stb cb) with (create h st c).
    assert (length (buffers st ++ [[]]) = S nb) as Hlen.
    { rewrite length_app. cbn. unfold nb. lia. }
    match goal with
    | |- context [received ?x (io.Buffer nb)] =>
        assert (received x (io.Buffer nb)
                = match create h st c with
                  | inl _ => []
                  | inr o => exec.stdout o
                  end) as ->
    end.
    { destruct (create h st c) as [e|o].
      { unfold stb. cbn. rewrite lookup_app_l by (rewrite Hlen; lia).
        unfold nb. by rewrite lookup_snoc. }
      change (exec.Stderr cb)
        with (Some (io.Plain (io.Buffer (length (buffers st ++ [[]]))))).
      change (exec.Stdout cb) with (Some (io.Plain (io.Buffer nb))).
      unfold deliver. cbn [io.members foldl].
      rewrite received_write_other by (rewrite Hlen; intros [=]; lia).
      rewrite received_write_same.
      * unfold stb. cbn. rewrite lookup_app_l by (rewrite Hlen; lia).
        unfold nb. by rewrite lookup_snoc.
      * unfold stb, nb. cbn. rewrite !length_app. cbn. lia. }
    eexists. split; [reflexivity|].
    apply same_streams_set_cmds.
    assert (same_streams st stb st) as Hbase.
    { apply same_streams_set_cmds.
      unfold same_streams. cbn. rewrite !length_app. cbn.
      split_and!; try lia.
      intros [fd|bb] Hs; cbn in *; [done|].
      by rewrite !lookup_app_l by (rewrite ?length_app; cbn; lia). }
    destruct (create h st c) as [e|o]; [done|].
    rewrite Hout, Herr. cbn [deliver].
    change (exec.Stderr cb)
      with (Some (io.Plain (io.Buffer (length (buffers st ++ [[]]))))).
    change (exec.Stdout cb) with (Some (io.Plain (io.Buffer nb))).
    unfold deliver. cbn [io.members foldl].
    apply same_streams_extra; [|rewrite Hlen; cbn; unfold nb; lia].
    apply same_streams_extra; [done|unfold nb; cbn; lia].
Qed.

Lemma members_MultiWriter w s :
  io.members (io.MultiWriter [w; io.Plain s]) = io.members w ++ [s].
Proof. unfold io.MultiWriter. cbn. by destruct w. Qed.

(** [Output] returns [output_result], and the streams that existed end as
    they do when the command is simply run: with a writer assigned as
    stdout the process still writes to it. *)
Lemma run_Output h b st bld c :
  builders st !! b = Some bld -> cmds st !! cmd bld = Some c ->
  unlaunched c ->
  valid_writer st (exec.Stdout c) -> valid_writer st (exec.Stderr c) ->
  exists st',
    CmdBuilder.Output h b st = Some (output_result h st c, st') /\
    same_streams st st' (run_streams h st c).
Proof.
  intros Hb Hc Hun Hvo Hve.
  unfold CmdBuilder.Output.
  rewrite run_bind, (run_getBuilder _ _ _ Hb), run_bind, (run_getCmd _ _ _ Hc).
  set (nb := length (buffers st)).
  destruct (exec.Stdout c) as [w|] eqn:Hout.
  - rewrite run_bind, run_newBuffer.
    rewrite run_bind. erewrite run_modifyCmd by (cbn; exact Hc).
    fold nb.
    set (cb := exec.set_Stdout _ c).
    set (stb := set_cmds _ _).
    rewrite run_bind.
    destruct (run_Run h (cmd bld) stb cb) as (c' & Hrun).
    { cbn. by eapply lookup_insert_same. }
    { exact Hun. }
    rewrite Hrun. unfold output_result, run_error, run_streams.
    change (create h stb cb) with (create h st c).
    destruct (create h st c) as [e|o] eqn:Hcr.
    + eexists. split; [reflexivity|].
      apply same_streams_set_cmds, same_streams_set_cmds.
      apply same_streams_new_buffers.
    + change (exec.Stderr cb) with (exec.Stderr c).
      change (exec.Stdout cb)
        with (Some (io.MultiWriter [w; io.Plain (io.Buffer nb)])).
      rewrite Hout.
      set (stf := deliver (exec.Stderr c) _ _).
      assert (same_streams st stf
                (deliver (exec.Stderr c) (exec.stderr o)
                   (deliver (Some w) (exec.stdout o) st))) as Hsame.
      { apply same_streams_deliver; [|done].
        unfold deliver. rewrite members_MultiWriter, foldl_app.
        cbn [foldl]. apply same_streams_extra.
        - apply same_streams_writes; [|done].
          apply same_streams_set_cmds, same_streams_new_buffers.
        - unfold nb. cbn. lia. }
      assert (received stf (io.Buffer nb) = exec.stdout o) as Hbuf.
      { unfold stf.
        assert (io.Buffer nb ∉ default [] (io.members <$> exec.Stderr c))
          as Hnot.
        { destruct (exec.Stderr c) as [we|]; cbn; [|apply not_elem_of_nil].
          pose proof (fresh_buffer_not_member st _ Hve 0) as Hn.
          by rewrite Nat.add_0_r in Hn. }
        assert (forall x, received (deliver (exec.Stderr c) (exec.stderr o) x)
                            (io.Buffer nb) = received x (io.Buffer nb)) as ->.
        { intros x. destruct (exec.Stderr c); [|done].
          by apply received_writes_other. }
        unfold deliver. rewrite members_MultiWriter, foldl_app. cbn [foldl].
        rewrite received_write_same.
        - rewrite received_writes_other.
          + unfold stb, nb. cbn. by rewrite lookup_snoc.
          + pose proof (fresh_buffer_not_member st _ Hvo 0) as Hn.
            by rewrite Nat.add_0_r in Hn.
        - cbn. rewrite length_buffers_writes. unfold stb. cbn.
          rewrite length_app. cbn. unfold nb. lia. }
      destruct (exit_error o) as [e|] eqn:Hexit.
      * eexists. split; [reflexivity|]. by apply same_streams_set_cmds.
      * rewrite run_bind, run_readBuffer, received_set_cmds, Hbuf.
        eexists. split; [reflexivity|]. by apply same_streams_set_cmds.
  - rewrite run_bind.
    destruct (run_exec_Output h (cmd bld) st c Hc Hun Hout Hve)
      as (st' & Hrun & Hsame).
    rewrite Hrun. unfold output_result, run_error.
    exists st'. split; [|done].
    destruct (create h st c) as [e|o]; [done|].
    by destruct (exit_error o).
Qed.

Lemma run_Lines h b st r st' :
  CmdBuilder.Output h b st = Some (r, st') ->
  CmdBuilder.Lines h b st = Some (lines_result r, st').
Proof.
  intros Hout. unfold CmdBuilder.Lines, lines_result.
  rewrite run_bind, Hout. destruct r as [output [e|]]; reflexivity.
Qed.

(** ** The terminal actions *)



(** C7: when running the command of a builder fails with an error, be it
    the creation of the process or its exit status, [Output] returns the
    empty string with that error; and whatever error [Output] returns,
    [Lines] returns it too, with no lines. *)
Theorem Output_and_Lines_failure h b st bld c :
  builders st !! b = Some bld -> cmds st !! cmd bld = Some c ->
  unlaunched c ->
  valid_writer st (exec.Stdout c) -> valid_writer st (exec.Stderr c) ->
  (forall e st_run,
     os_exec.Run h (cmd bld) st = Some (Some e, st_run) ->
     exists st', CmdBuilder.Output h b st = Some (([], Some e), st')) /\
  (forall output e st',
     CmdBuilder.Output h b st = Some ((output, Some e), st') ->
     output = [] /\ CmdBuilder.Lines h b st = Some (([], Some e), st')).
Proof.
  intros Hb Hc Hun Hvo Hve.
  destruct (run_Output h b st bld c Hb Hc Hun Hvo Hve) as (st1 & Hout & _).
  destruct (run_Run h (cmd bld) st c Hc Hun) as (c1 & Hrun).
  split.
  - intros e st_run Hfail. rewrite Hrun in Hfail.
    injection Hfail as Herr _. exists st1. rewrite Hout. f_equal. f_equal.
    unfold output_result, run_error in *.
    destruct (create h st c) as [e'|o]; [congruence|].
    by rewrite Herr.
  - intros output e st' Hout'. split.
    + rewrite Hout in Hout'. injection Hout' as Hres _.
      unfold output_result in Hres.
      destruct (create h st c) as [e'|o]; [congruence|].
      destruct (exit_error o); congruence.
    + by rewrite (run_Lines _ _ _ _ _ Hout').
Qed.

Lemma Output_and_Lines_failure_witness :
  (exists bld c,
     builders (snd demo_missing) !! fst demo_missing = Some bld /\
     cmds (snd demo_missing) !! cmd bld = Some c /\
     unlaunched c /\
     valid_writer (snd demo_missing) (exec.Stdout c) /\
     valid_writer (snd demo_missing) (exec.Stderr c) /\
     exists st_run,
       os_exec.Run demo_host (cmd bld) (snd demo_missing)
       = Some (Some (exec.SysError 2), st_run)) /\
  exists st', CmdBuilder.Output demo_host (fst demo_missing) (snd demo_missing)
              = Some (([], Some (exec.SysError 2)), st').
Proof.
  split.
  { eexists _, _. split; [reflexivity|]. split; [reflexivity|].
    split; [repeat split|]. split; [exact I|].
    split; [repeat constructor|]. eexists. reflexivity. }
  edestruct (Output_and_Lines_failure demo_host (fst demo_missing)
               (snd demo_missing)) as [Hfail _];
    [reflexivity|reflexivity|repeat split|exact I|repeat constructor|].
  eapply Hfail. reflexivity.
Defined.

(** ** Strings *)

Lemma len_cons c s : len (c :: s) = (len s + 1)%Z.
Proof. unfold len. cbn [length]. lia. Qed.

Lemma len_nonneg s : (0 <= len s)%Z.
Proof. unfold len. lia. Qed.

Lemma len_app s t : len (s ++ t) = (len s + len t)%Z.
Proof. unfold len. rewrite length_app. lia. Qed.

Lemma idx_0 c s : idx (c :: s) 0 = byteZ c.
Proof. reflexivity. Qed.

Lemma idx_1 c0 c s : idx (c0 :: c :: s) 1 = byteZ c.
Proof. reflexivity. Qed.

Lemma idx_2 c0 c1 c s : idx (c0 :: c1 :: c :: s) 2 = byteZ c.
Proof. reflexivity. Qed.

Lemma idx_from s i : (0 <= i)%Z -> idx s i = idx (from s i) 0.
Proof.
  intros Hi. unfold idx, from. f_equal. cbn [Z.to_nat].
  rewrite !nth_lookup, lookup_drop. by rewrite Nat.add_0_r.
Qed.

Lemma from_from s i w :
  (0 <= i)%Z -> (0 <= w)%Z -> from s (i + w) = from (from s i) w.
Proof.
  intros Hi Hw. unfold from. rewrite drop_drop. f_equal. lia.
Qed.

Lemma from_app_len s t : from (s ++ t) (len s) = t.
Proof. unfold from, len. rewrite Nat2Z.id. apply drop_app_length. Qed.

Lemma from_0 s : from s 0 = s.
Proof. reflexivity. Qed.

Lemma from_nonempty s i : (0 <= i)%Z -> from s i <> [] -> (i < len s)%Z.
Proof.
  intros Hi Hne. destruct (Z.lt_ge_cases i (len s)) as [|Hge]; [done|].
  destruct Hne. unfold from, len in *. apply drop_ge. lia.
Qed.

(** [unicode.IsSpace] accepts the code points of [space_runes] only. *)
Lemma IsSpace_cases r : unicode.IsSpace r = true -> In r space_runes.
Proof.
  unfold unicode.IsSpace, unicode.isExcludingLatin, unicode.White_Space.
  cbn [existsb]. unfold space_runes. cbn [In].
  destruct (unicode.uint32 r <=? unicode.MaxLatin1)%Z; intros H.
  - repeat (apply orb_true_iff in H as [H|H]); apply Z.eqb_eq in H; lia.
  - repeat (apply orb_true_iff in H as [H|H]);
      try (apply andb_true_iff in H as [H1 H2];
           apply Z.leb_le in H1; apply Z.leb_le in H2; lia).
    discriminate.
Qed.

Ltac decide_len :=
  repeat match goal with
  | |- context [(?a <? ?b)%Z] =>
      lazymatch a with
      | context [len _] =>
          let v := eval vm_compute in b in
          change b with v; destruct (Z.ltb_spec a v); [lia|]
      end
  end.

Ltac each_space H :=
  apply IsSpace_cases in H; unfold space_runes in H; cbn [In] in H;
  repeat (destruct H as [<-|H]); [..|done];
  match goal with
  | |- context [encode ?r] =>
      let e := eval vm_compute in (encode r) in change (encode r) with e
  end.

(** Decoding undoes the encoding of a white space code point. *)
Lemma decode_space r s :
  unicode.IsSpace r = true ->
  utf8.DecodeRuneInString (encode r ++ s) = (r, len (encode r)).
Proof.
  intros H. pose proof (len_nonneg s) as Hs. each_space H.
  all: unfold utf8.DecodeRuneInString; cbn [app];
       rewrite ?len_cons, ?idx_0, ?idx_1, ?idx_2.
  all: decide_len.
  all: vm_compute; reflexivity.
Qed.

(** The encoding of a white space code point is one byte of the
    [asciiSpace] table, or starts with a byte that is not ASCII. *)
Lemma space_first_byte r :
  unicode.IsSpace r = true ->
  exists c rest,
    encode r = c :: rest /\
    (((byteZ c <? utf8.RuneSelf)%Z = true /\ rest = [] /\
      strings.asciiSpace (byteZ c) = 1%Z)
     \/ (utf8.RuneSelf <=? byteZ c)%Z = true).
Proof.
  intros H. each_space H.
  all: eexists _, _; split; [reflexivity|].
  all: first [left; split_and!; reflexivity | right; reflexivity].
Qed.

Lemma encode_space_len r :
  unicode.IsSpace r = true -> (1 <= len (encode r))%Z.
Proof. intros H. each_space H. all: by vm_compute. Qed.

(** On a text of white space the scan for a rune that is not white space
    finds none. *)
Lemma indexFuncFrom_whitespace fuel s i :
  (0 <= i)%Z -> whitespace (from s i) ->
  strings.indexFuncFrom fuel s unicode.IsSpace false i = (-1)%Z.
Proof.
  revert i. induction fuel as [|fuel IH]; intros i Hi Hws; cbn; [done|].
  destruct (Z.leb_spec (len s) i) as [|Hlt]; [done|].
  inversion Hws as [Hnil|r rest Hr Hrest Heq].
  { assert (from s i <> []) as Hne.
    { unfold from, len in *. intros Hd%(f_equal length).
      rewrite length_drop in Hd. cbn in Hd. lia. }
    by rewrite <- Hnil in Hne. }
  rewrite (decode_space r rest Hr), Hr. cbn [eqb].
  apply IH.
  - pose proof (encode_space_len r Hr). lia.
  - rewrite from_from, <- Heq, from_app_len; [done|done|].
    pose proof (encode_space_len r Hr). lia.
Qed.

Lemma TrimFunc_whitespace s :
  whitespace s -> strings.TrimFunc s unicode.IsSpace = [].
Proof.
  intros Hws. unfold strings.TrimFunc, strings.TrimLeftFunc, strings.indexFunc.
  rewrite indexFuncFrom_whitespace; [reflexivity|done|by rewrite from_0].
Qed.

(** On a text that is white space from [start] on, the first loop of
    [TrimSpace] runs to the end of the text, or returns the empty string
    from inside. *)
Lemma trimSpaceStart_whitespace fuel s start :
  (0 <= start <= len s)%Z -> (len s <= start + Z.of_nat fuel)%Z ->
  whitespace (from s start) ->
  strings.trimSpaceStart fuel s start = inl (len s)
  \/ strings.trimSpaceStart fuel s start = inr [].
Proof.
  revert start. induction fuel as [|fuel IH]; intros start Hstart Hfuel Hws.
  { left. cbn. f_equal. lia. }
  cbn [strings.trimSpaceStart].
  destruct (Z.leb_spec (len s) start) as [|Hlt].
  { left. f_equal. lia. }
  inversion Hws as [Hnil|r rest Hr Hrest Heq].
  { assert (from s start <> []) as Hne.
    { unfold from, len in *. intros Hd%(f_equal length).
      rewrite length_drop in Hd. cbn in Hd. lia. }
    by rewrite <- Hnil in Hne. }
  rewrite idx_from, <- Heq by lia.
  destruct (space_first_byte r Hr) as (c & tl & Henc & Hbyte).
  rewrite Henc. cbn [app]. rewrite idx_0.
  destruct Hbyte as [(Hascii & -> & Htab)|Hwide].
  - apply Z.ltb_lt in Hascii.
    destruct (Z.leb_spec utf8.RuneSelf (byteZ c)) as [|_]; [lia|].
    rewrite Htab. cbn [Z.eqb].
    apply IH; [lia|lia|].
    rewrite from_from, <- Heq, Henc by lia. done.
  - rewrite Hwide. right. f_equal.
    change (c :: tl ++ rest) with ((c :: tl) ++ rest).
    rewrite <- Henc, Heq. by apply TrimFunc_whitespace.
Qed.

Lemma trimSpaceStop_done fuel s stop :
  strings.trimSpaceStop fuel s stop stop = inl stop.
Proof. destruct fuel; cbn; [done|]. by rewrite Z.leb_refl. Qed.

Lemma sub_empty s i : sub s i i = [].
Proof. unfold sub, upto. by rewrite Z.sub_diag. Qed.

(** [TrimSpace] leaves nothing of a text of white space. *)
Lemma TrimSpace_whitespace s : whitespace s -> strings.TrimSpace s = [].
Proof.
  intros Hws. unfold strings.TrimSpace.
  destruct (trimSpaceStart_whitespace (length s) s 0) as [-> | ->].
  - pose proof (len_nonneg s). lia.
  - unfold len. lia.
  - by rewrite from_0.
  - by rewrite trimSpaceStop_done, sub_empty.
  - done.
Qed.

(** [Split] on a line feed returns at least one string. *)
Lemma Split_LF_nonempty s : strings.Split s [LF] <> [].
Proof.
  unfold strings.Split, strings.genSplit.
  change (-1 =? 0)%Z with false. change (len [LF] =? 0)%Z with false.
  cbv iota.
  match goal with |- strings.genSplitLoop ?n _ _ _ <> _ => destruct n end;
    cbn; [done|].
  by destruct (strings.Index s [LF] <? 0)%Z.
Qed.

(** ** Decoding and trimming *)

Section trimming.
Local Open Scope Z_scope.

Lemma decode_bytes s :
  utf8.DecodeRuneInString s
  = if len s <? 1 then (utf8.RuneError, 0)
    else decodeBytes (len s) (idx s 0) (idx s 1) (idx s 2) (idx s 3).
Proof. reflexivity. Qed.

Lemma lor_shiftl_add a b k :
  0 <= k -> 0 <= b < 2 ^ k -> Z.lor (Z.shiftl a k) b = a * 2 ^ k + b.
Proof.
  intros Hk Hb. rewrite <- Z.shiftl_mul_pow2 by done.
  pose proof (Z.add_lor_land (Z.shiftl a k) b) as Hadd.
  assert (Z.land (Z.shiftl a k) b = 0) as Hland; [|lia].
  apply Z.bits_inj'. intros n Hn. rewrite Z.land_spec, Z.bits_0.
  destruct (Z.lt_ge_cases n k) as [Hlt|Hge].
  - by rewrite Z.shiftl_spec_low.
  - apply andb_false_intro2.
    destruct (Z.eq_dec b 0) as [->|Hne]; [apply Z.bits_0|].
    apply Z.bits_above_log2; [lia|].
    apply Z.log2_lt_pow2; [lia|].
    assert (2 ^ k <= 2 ^ n) by (apply Z.pow_le_mono_r; lia). lia.
Qed.

Lemma land_mask a k : 0 <= k -> Z.land a (Z.ones k) = a mod 2 ^ k.
Proof. apply Z.land_ones. Qed.

Lemma test_mod b : 128 <= b < 192 -> b mod 64 = b - 128.
Proof. intros. Z.div_mod_to_equations. lia. Qed.

Lemma land_mask2 a : Z.land a utf8.mask2 = a mod 32.
Proof. apply (Z.land_ones a 5). lia. Qed.
Lemma land_mask3 a : Z.land a utf8.mask3 = a mod 16.
Proof. apply (Z.land_ones a 4). lia. Qed.
Lemma land_mask4 a : Z.land a utf8.mask4 = a mod 8.
Proof. apply (Z.land_ones a 3). lia. Qed.
Lemma land_maskx a : Z.land a utf8.maskx = a mod 64.
Proof. apply (Z.land_ones a 6). lia. Qed.

Lemma rune2 s0 b1 :
  Z.lor (Z.shiftl (Z.land s0 utf8.mask2) 6) (Z.land b1 utf8.maskx)
  = s0 mod 32 * 64 + b1 mod 64.
Proof.
  rewrite land_mask2, land_maskx. rewrite lor_shiftl_add; [lia|lia|].
  pose proof (Z.mod_pos_bound b1 64). lia.
Qed.

Lemma rune3 s0 b1 b2 :
  Z.lor (Z.lor (Z.shiftl (Z.land s0 utf8.mask3) 12)
               (Z.shiftl (Z.land b1 utf8.maskx) 6))
        (Z.land b2 utf8.maskx)
  = s0 mod 16 * 4096 + b1 mod 64 * 64 + b2 mod 64.
Proof.
  rewrite land_mask3, !land_maskx.
  pose proof (Z.mod_pos_bound b1 64). pose proof (Z.mod_pos_bound b2 64).
  rewrite <- Z.lor_assoc.
  rewrite (lor_shiftl_add (b1 mod 64) (b2 mod 64) 6) by lia.
  rewrite lor_shiftl_add; lia.
Qed.

Lemma rune4 s0 b1 b2 b3 :
  Z.lor (Z.lor (Z.lor (Z.shiftl (Z.land s0 utf8.mask4) 18)
                      (Z.shiftl (Z.land b1 utf8.maskx) 12))
               (Z.shiftl (Z.land b2 utf8.maskx) 6))
        (Z.land b3 utf8.maskx)
  = s0 mod 8 * 262144 + b1 mod 64 * 4096 + b2 mod 64 * 64 + b3 mod 64.
Proof.
  rewrite land_mask4, !land_maskx.
  pose proof (Z.mod_pos_bound b1 64). pose proof (Z.mod_pos_bound b2 64).
  pose proof (Z.mod_pos_bound b3 64).
  rewrite <- !Z.lor_assoc.
  rewrite (lor_shiftl_add (b2 mod 64) (b3 mod 64) 6) by lia.
  rewrite (lor_shiftl_add (b1 mod 64) _ 12) by lia.
  rewrite lor_shiftl_add; lia.
Qed.

Lemma first_cases s0 :
  0 <= s0 < 256 ->
  (s0 < 0x80 /\ utf8.first s0 = utf8.as_)
  \/ ((0x80 <= s0 <= 0xC1 \/ 0xF5 <= s0) /\ utf8.first s0 = utf8.xx)
  \/ (0xC2 <= s0 <= 0xDF /\ utf8.first s0 = utf8.s1)
  \/ (s0 = 0xE0 /\ utf8.first s0 = utf8.s2)
  \/ ((0xE1 <= s0 <= 0xEC \/ 0xEE <= s0 <= 0xEF) /\ utf8.first s0 = utf8.s3)
  \/ (s0 = 0xED /\ utf8.first s0 = utf8.s4)
  \/ (s0 = 0xF0 /\ utf8.first s0 = utf8.s5)
  \/ (0xF1 <= s0 <= 0xF3 /\ utf8.first s0 = utf8.s6)
  \/ (s0 = 0xF4 /\ utf8.first s0 = utf8.s7).
Proof.
  intros Hs0. unfold utf8.first.
  repeat match goal with
  | |- context [if (s0 <? ?b) then _ else _] => destruct (Z.ltb_spec s0 b)
  | |- context [if (s0 =? ?b) then _ else _] => destruct (Z.eqb_spec s0 b)
  end; try lia; intuition lia.
Qed.

Ltac closed_parts :=
  repeat match goal with
  | |- context [(?x >=? utf8.as_)] =>
      let v := eval vm_compute in (x >=? utf8.as_) in
      progress change (x >=? utf8.as_) with v
  | |- context [Z.shiftr (utf8.int32 (Z.shiftl ?x 31)) 31] =>
      let v := eval vm_compute in (Z.shiftr (utf8.int32 (Z.shiftl x 31)) 31) in
      progress change (Z.shiftr (utf8.int32 (Z.shiftl x 31)) 31) with v
  | |- context [Z.land ?x 7] =>
      let v := eval vm_compute in (Z.land x 7) in
      progress change (Z.land x 7) with v
  | |- context [utf8.acceptRanges ?a] =>
      let v := eval vm_compute in (utf8.acceptRanges a) in
      progress change (utf8.acceptRanges a) with v
  | |- context [(?a <=? ?b)] =>
      lazymatch a with
      | Zpos _ => lazymatch b with Zpos _ =>
          let v := eval vm_compute in (a <=? b) in
          progress change (a <=? b) with v end
      end
  end; cbv beta iota zeta; cbn [fst snd].

Ltac decide_Z :=
  repeat (cbn [andb orb negb]; cbv iota;
    match goal with
    | |- context [(?a <? ?b)] =>
        first [ rewrite (proj2 (Z.ltb_lt a b)) by lia
              | rewrite (proj2 (Z.ltb_ge a b)) by lia
              | destruct (Z.ltb_spec a b) ]
    | |- context [(?a <=? ?b)] =>
        first [ rewrite (proj2 (Z.leb_le a b)) by lia
              | rewrite (proj2 (Z.leb_gt a b)) by lia
              | destruct (Z.leb_spec a b) ]
    | |- context [(?a =? ?b)] =>
        first [ rewrite (proj2 (Z.eqb_eq a b)) by lia
              | rewrite (proj2 (Z.eqb_neq a b)) by lia
              | destruct (Z.eqb_spec a b) ]
    end).

Lemma decodeBytes_decoded n s0 b1 b2 b3 :
  0 <= s0 < 256 -> 1 <= n ->
  decodeBytes n s0 b1 b2 b3 = decoded n s0 b1 b2 b3.
Proof.
  intros Hs0 Hn. unfold decodeBytes.
  destruct (first_cases s0 Hs0)
    as [[? ->]|[[? ->]|[[? ->]|[[? ->]|[[? ->]|[[? ->]|[[? ->]|[[? ->]|[? ->]
       ]]]]]]]]; closed_parts.
  all: unfold utf8.locb, utf8.hicb.
  all: repeat match goal with
  | |- context [(?a <? ?b)] => destruct (Z.ltb_spec a b); cbn [orb]
  end.
  all: rewrite ?rune2, ?rune3, ?rune4, ?Z.ldiff_0_r, ?Z.ldiff_m1_r.
  all: change (Z.land utf8.RuneError 0) with 0;
       change (Z.land utf8.RuneError (-1)) with utf8.RuneError;
       rewrite ?Z.lor_0_r, ?Z.lor_0_l.
  all: unfold decoded, seq2, seq3, seq4, cont.
  all: decide_Z; cbn [andb orb negb]; cbv iota; try reflexivity.
Qed.

Lemma byteZ_range c : 0 <= byteZ c < 256.
Proof.
  unfold byteZ. pose proof (N_ascii_bounded c). lia.
Qed.

Lemma byte_of_byteZ c : byte_of (byteZ c) = c.
Proof.
  unfold byte_of. pose proof (byteZ_range c).
  rewrite Z.mod_small by lia. unfold byteZ.
  by rewrite N2Z.id, ascii_N_embedding.
Qed.

Lemma byteZ_inj c c' : byteZ c = byteZ c' -> c = c'.
Proof. intros H. by rewrite <- (byte_of_byteZ c), H, byte_of_byteZ. Qed.

Lemma decode_decoded c s :
  utf8.DecodeRuneInString (c :: s)
  = decoded (len (c :: s)) (byteZ c) (idx (c :: s) 1) (idx (c :: s) 2)
      (idx (c :: s) 3).
Proof.
  rewrite decode_bytes. pose proof (len_nonneg s).
  destruct (Z.ltb_spec (len (c :: s)) 1) as [Hl|Hl].
  { rewrite len_cons in Hl. lia. }
  rewrite idx_0. apply decodeBytes_decoded; [apply byteZ_range|done].
Qed.

Lemma encode_ascii c : byteZ c < 0x80 -> encode (byteZ c) = [c].
Proof.
  intros Hc. pose proof (byteZ_range c). unfold encode, unicode.uint32.
  rewrite Z.mod_small by lia.
  destruct (Z.leb_spec (byteZ c) 127); [|lia]. by rewrite byte_of_byteZ.
Qed.

Ltac space_values H :=
  apply IsSpace_cases in H; unfold space_runes in H; cbn [In] in H;
  repeat (destruct H as [H|H]); [..|done].

Ltac encoded_bytes :=
  match goal with
  | |- context [encode ?v] =>
      let e := eval vm_compute in (encode v) in change (encode v) with e
  end.

Ltac byte_value :=
  apply byteZ_inj;
  match goal with
  | |- _ = byteZ ?c =>
      let v := eval vm_compute in (byteZ c) in change (byteZ c) with v
  end; Z.div_mod_to_equations; lia.

(** What decodes to a white space code point is its encoding. *)
Lemma decode_space_inv s r w :
  utf8.DecodeRuneInString s = (r, w) -> unicode.IsSpace r = true ->
  exists rest, s = encode r ++ rest /\ w = len (encode r).
Proof.
  intros Hd Hr. destruct s as [|c0 s].
  { injection Hd as <- <-. discriminate. }
  rewrite decode_decoded in Hd. unfold decoded in Hd.
  pose proof (byteZ_range c0) as H0.
  destruct (Z.ltb_spec (byteZ c0) 128).
  { injection Hd as <- <-. exists s. by rewrite encode_ascii. }
  destruct s as [|c1 s].
  { replace ((2 <=? len [c0])) with false in Hd by reflexivity.
    replace ((3 <=? len [c0])) with false in Hd by reflexivity.
    replace ((4 <=? len [c0])) with false in Hd by reflexivity.
    cbn [andb] in Hd. injection Hd as <- <-. discriminate. }
  rewrite idx_1 in Hd. pose proof (byteZ_range c1) as H1.
  destruct ((2 <=? len (c0 :: c1 :: s)) && seq2 (byteZ c0) (byteZ c1)) eqn:E2.
  { injection Hd as <- <-. apply andb_true_iff in E2 as [_ E2].
    unfold seq2, cont in E2. rewrite !andb_true_iff in E2.
    rewrite !Z.leb_le in E2.
    exists s. space_values Hr.
    all: try (exfalso; Z.div_mod_to_equations; lia).
    all: rewrite <- Hr; encoded_bytes; split; [|reflexivity].
    all: cbn [app]; f_equal; [|f_equal]; byte_value. }
  destruct s as [|c2 s].
  { replace ((3 <=? len [c0; c1])) with false in Hd by reflexivity.
    replace ((4 <=? len [c0; c1])) with false in Hd by reflexivity.
    cbn [andb] in Hd. injection Hd as <- <-. discriminate. }
  rewrite idx_2 in Hd. pose proof (byteZ_range c2) as H2.
  destruct ((3 <=? len (c0 :: c1 :: c2 :: s))
            && seq3 (byteZ c0) (byteZ c1) (byteZ c2)) eqn:E3.
  { injection Hd as <- <-. apply andb_true_iff in E3 as [_ E3].
    unfold seq3, cont in E3. rewrite !andb_true_iff in E3.
    rewrite !Z.leb_le in E3.
    exists s. space_values Hr.
    all: try (exfalso; Z.div_mod_to_equations; lia).
    all: rewrite <- Hr; encoded_bytes; split; [|reflexivity].
    all: cbn [app]; f_equal; [|f_equal; [|f_equal]]; byte_value. }
  destruct ((4 <=? len (c0 :: c1 :: c2 :: s))
            && seq4 (byteZ c0) (byteZ c1) (byteZ c2)
                 (idx (c0 :: c1 :: c2 :: s) 3)) eqn:E4.
  { injection Hd as <- <-. apply andb_true_iff in E4 as [_ E4].
    unfold seq4, cont in E4. rewrite !andb_true_iff in E4.
    rewrite !Z.leb_le in E4.
    exfalso. space_values Hr; Z.div_mod_to_equations; lia. }
  injection Hd as <- <-. discriminate.
Qed.

Lemma decode_width c s r w :
  utf8.DecodeRuneInString (c :: s) = (r, w) -> 1 <= w <= len (c :: s).
Proof.
  rewrite decode_decoded. unfold decoded.
  pose proof (len_nonneg s). rewrite len_cons.
  repeat match goal with
  | |- context [if ?b then _ else _] =>
      let E := fresh "E" in destruct b eqn:E;
      [try (apply andb_true_iff in E as [E _]; apply Z.leb_le in E)|]
  end; intros [= <- <-]; lia.
Qed.

(** A byte that is not ASCII and that no continuation byte follows is
    decoded alone, as an error. *)
Lemma decode_lone c post :
  0x80 <= byteZ c ->
  (forall c1 rest, post = c1 :: rest -> cont (byteZ c1) = false) ->
  utf8.DecodeRuneInString (c :: post) = (utf8.RuneError, 1).
Proof.
  intros Hc Hpost. rewrite decode_decoded. unfold decoded.
  destruct (Z.ltb_spec (byteZ c) 128); [lia|].
  destruct post as [|c1 rest].
  { reflexivity. }
  rewrite idx_1. unfold seq2, seq3, seq4.
  rewrite (Hpost c1 rest eq_refl). by rewrite !andb_false_r.
Qed.

Lemma decoded_stable n n' s0 b1 b2 b3 b2' b3' r w :
  decoded n s0 b1 b2 b3 = (r, w) -> 2 <= w -> n <= n' ->
  (3 <= w -> b2' = b2) -> (4 <= w -> b3' = b3) ->
  decoded n' s0 b1 b2' b3' = (r, w).
Proof.
  unfold decoded. intros Hd Hw Hn H2 H3.
  destruct (s0 <? 128); [injection Hd as <- <-; lia|].
  destruct (seq2 s0 b1) eqn:E2; rewrite ?andb_true_r, ?andb_false_r in *.
  - destruct (Z.leb_spec 2 n) as [Hn2|Hn2].
    + injection Hd as <- <-. by rewrite (proj2 (Z.leb_le 2 n')) by lia.
    + assert ((3 <=? n) = false) as E3 by (apply Z.leb_gt; lia).
      assert ((4 <=? n) = false) as E4 by (apply Z.leb_gt; lia).
      rewrite E3, E4 in Hd. cbn in Hd. injection Hd as <- <-. lia.
  - destruct ((3 <=? n) && seq3 s0 b1 b2) eqn:E3.
    + injection Hd as <- <-. rewrite H2 by lia.
      apply andb_true_iff in E3 as [Hn3%Z.leb_le ->].
      by rewrite (proj2 (Z.leb_le 3 n')) by lia.
    + destruct ((4 <=? n) && seq4 s0 b1 b2 b3) eqn:E4;
        [|injection Hd as <- <-; lia].
      injection Hd as <- <-. rewrite H2, H3 by lia.
      apply andb_true_iff in E4 as [Hn4%Z.leb_le E4].
      rewrite E4, (proj2 (Z.leb_le 4 n')) by lia. cbn [andb].
      replace (seq3 s0 b1 b2) with false; [by rewrite andb_false_r|].
      symmetry. revert E4. unfold seq3, seq4.
      destruct (Z.leb_spec 240 s0); [|done].
      destruct (Z.leb_spec s0 239); [lia|]. by rewrite andb_false_r.
Qed.

Lemma idx_app_l s u i : 0 <= i < len s -> idx (s ++ u) i = idx s i.
Proof.
  intros Hi. unfold idx, len in *. f_equal. rewrite !nth_lookup.
  by rewrite lookup_app_l by lia.
Qed.

Lemma idx_app_r s u i : 0 <= i -> idx (s ++ u) (len s + i) = idx u i.
Proof.
  intros Hi. unfold idx, len in *. f_equal. rewrite !nth_lookup.
  rewrite lookup_app_r by lia. do 2 f_equal. lia.
Qed.

(** A decoding that takes a whole text of two bytes or more takes the same
    bytes when more text follows. *)
Lemma decode_prefix t u r w :
  utf8.DecodeRuneInString t = (r, w) -> w = len t -> 2 <= w ->
  utf8.DecodeRuneInString (t ++ u) = (r, w).
Proof.
  intros Hd Hw H2. destruct t as [|c t]; [change (len []) with 0 in Hw; lia|].
  rewrite decode_decoded in Hd. cbn [app]. rewrite decode_decoded.
  change (c :: t ++ u) with ((c :: t) ++ u).
  eapply decoded_stable; [|done| | |].
  - rewrite (idx_app_l (c :: t) u 1) by lia. exact Hd.
  - rewrite len_app. pose proof (len_nonneg u). lia.
  - intros H3. apply idx_app_l. lia.
  - intros H4. apply idx_app_l. lia.
Qed.

(** *** Decoding from the end *)

Lemma scanBack_unfold k s lim st :
  1 <= k ->
  utf8.scanBack (Z.to_nat k) s lim st
  = if st <? lim then st
    else if utf8.RuneStart (idx s st) then st
    else utf8.scanBack (Z.to_nat (k - 1)) s lim (st - 1).
Proof.
  intros Hk. replace (Z.to_nat k) with (S (Z.to_nat (k - 1))) by lia.
  reflexivity.
Qed.

Lemma scanBack_le fuel s lim st : utf8.scanBack fuel s lim st <= st.
Proof.
  revert st. induction fuel as [|fuel IH]; intros st; cbn; [lia|].
  destruct (st <? lim); [lia|].
  destruct (utf8.RuneStart _); [lia|]. specialize (IH (st - 1)). lia.
Qed.

Lemma len_sub s a b : 0 <= a <= b -> b <= len s -> len (sub s a b) = b - a.
Proof.
  intros Ha Hb. unfold sub, upto, from, len in *.
  rewrite length_take, length_drop. lia.
Qed.

Lemma sub_from s a : 0 <= a -> sub s a (len s) = from s a.
Proof.
  intros Ha. unfold sub, upto, from, len. apply take_ge.
  rewrite length_drop. lia.
Qed.

Lemma upto_from s a : 0 <= a -> s = sub s 0 a ++ from s a.
Proof.
  intros Ha. unfold sub, upto, from. rewrite Z.sub_0_r. cbn [Z.to_nat drop].
  by rewrite take_drop.
Qed.

Lemma sub_split s a b c :
  0 <= a <= b -> b <= c -> sub s a c = sub s a b ++ sub s b c.
Proof.
  intros Ha Hb. unfold sub, upto, from.
  replace (Z.to_nat (c - a)) with (Z.to_nat (b - a) + Z.to_nat (c - b))%nat
    by lia.
  rewrite <- take_take_drop, drop_drop. do 3 f_equal. lia.
Qed.

Lemma sub_0_len s : sub s 0 (len s) = s.
Proof. rewrite sub_from by lia. apply from_0. Qed.

Lemma last_byte s :
  s <> [] -> exists init c, s = init ++ [c] /\ idx s (len s - 1) = byteZ c.
Proof.
  intros Hs. destruct (exists_last Hs) as (init & c & ->).
  exists init, c. split; [done|].
  rewrite len_app. change (len [c]) with 1.
  replace (len init + 1 - 1) with (len init + 0) by lia.
  by rewrite idx_app_r.
Qed.

(** What decodes from the end to a white space code point is its
    encoding. *)
Lemma decodeLast_space_inv s r w :
  utf8.DecodeLastRuneInString s = (r, w) -> unicode.IsSpace r = true ->
  exists init, s = init ++ encode r /\ w = len (encode r).
Proof.
  intros Hd Hr. unfold utf8.DecodeLastRuneInString in Hd.
  destruct (Z.eqb_spec (len s) 0) as [|Hlen].
  { injection Hd as <- <-. discriminate. }
  assert (s <> []) as Hs by (intros ->; by cbn in Hlen).
  pose proof (len_nonneg s) as Hnn.
  destruct (last_byte s Hs) as (init & c & Hsplit & Hlast).
  rewrite Hlast in Hd.
  destruct (Z.ltb_spec (byteZ c) utf8.RuneSelf) as [Hc|Hc].
  { injection Hd as <- <-. exists init. by rewrite encode_ascii. }
  set (lim := if len s - utf8.UTFMax <? 0 then 0 else len s - utf8.UTFMax)
    in Hd.
  set (st1 := utf8.scanBack _ s lim _) in Hd.
  set (start := if st1 <? 0 then 0 else st1) in Hd.
  assert (0 <= start <= len s - 1) as Hstart.
  { pose proof (scanBack_le (Z.to_nat (len s - 1 - 1 - lim + 1)) s lim
                  (len s - 1 - 1)) as Hle.
    fold st1 in Hle. unfold start. destruct (Z.ltb_spec st1 0); lia. }
  destruct (utf8.DecodeRuneInString (sub s start (len s))) as [r' size]
    eqn:Hdec.
  destruct (Z.eqb_spec (start + size) (len s)) as [Hend|Hend]; cbn in Hd;
    injection Hd as <- <-; [|discriminate].
  destruct (decode_space_inv _ _ _ Hdec Hr) as (rest & Hsub & Hsize).
  assert (rest = []) as ->.
  { apply (f_equal len) in Hsub. rewrite len_sub, len_app in Hsub by lia.
    destruct rest; [done|]. rewrite len_cons in Hsub.
    pose proof (len_nonneg rest). lia. }
  rewrite app_nil_r in Hsub. exists (sub s 0 start). split; [|done].
  rewrite <- Hsub, sub_from by lia. apply upto_from. lia.
Qed.

Lemma scanBack_finds fuel s lim p : forall st,
  lim <= p <= st -> st - p < Z.of_nat fuel ->
  utf8.RuneStart (idx s p) = true ->
  (forall q, p < q <= st -> utf8.RuneStart (idx s q) = false) ->
  utf8.scanBack fuel s lim st = p.
Proof.
  induction fuel as [|fuel IH]; intros st Hp Hfuel Hstart Hcont; [lia|].
  cbn [utf8.scanBack]. destruct (Z.ltb_spec st lim); [lia|].
  destruct (Z.eq_dec st p) as [->|Hne]; [by rewrite Hstart|].
  rewrite Hcont by lia. apply IH; [lia|lia|done|].
  intros q Hq. apply Hcont. lia.
Qed.

Lemma sub_app_r init t :
  sub (init ++ t) (len init) (len init + len t) = t.
Proof.
  unfold sub, upto. rewrite from_app_len.
  replace (len init + len t - len init) with (len t) by lia.
  unfold len. rewrite Nat2Z.id. apply firstn_all.
Qed.

(** A well-formed sequence of several bytes at the end of a text is what
    decoding from the end finds. *)
Lemma decodeLast_of_decode init t r :
  utf8.DecodeRuneInString t = (r, len t) -> 2 <= len t <= 4 ->
  utf8.RuneStart (idx t 0) = true ->
  (forall k, 1 <= k < len t -> utf8.RuneStart (idx t k) = false) ->
  utf8.RuneSelf <= idx t (len t - 1) ->
  utf8.DecodeLastRuneInString (init ++ t) = (r, len t).
Proof.
  intros Hd Hlen Hstart Hcont Hlast. unfold utf8.DecodeLastRuneInString.
  pose proof (len_nonneg init) as Hinit. rewrite len_app.
  destruct (Z.eqb_spec (len init + len t) 0); [lia|].
  replace (len init + len t - 1) with (len init + (len t - 1)) by lia.
  rewrite idx_app_r by lia.
  destruct (Z.ltb_spec (idx t (len t - 1)) utf8.RuneSelf); [lia|].
  set (lim := if len init + len t - utf8.UTFMax <? 0 then 0
              else len init + len t - utf8.UTFMax).
  assert (0 <= lim <= len init) as Hlim.
  { unfold lim, utf8.UTFMax. destruct (Z.ltb_spec (len init + len t - 4) 0);
      lia. }
  rewrite (scanBack_finds _ _ lim (len init)).
  - destruct (Z.ltb_spec (len init) 0); [lia|].
    rewrite sub_app_r, Hd.
    by destruct (Z.eqb_spec (len init + len t) (len init + len t)).
  - lia.
  - lia.
  - replace (len init) with (len init + 0) by lia.
    by rewrite idx_app_r.
  - intros q Hq. replace q with (len init + (q - len init)) by lia.
    rewrite idx_app_r by lia. apply Hcont. lia.
Qed.

(** Decoding from the end undoes the encoding of a white space code
    point. *)
Lemma decodeLast_ascii init c :
  byteZ c < utf8.RuneSelf ->
  utf8.DecodeLastRuneInString (init ++ [c]) = (byteZ c, 1).
Proof.
  intros Hc. unfold utf8.DecodeLastRuneInString.
  pose proof (len_nonneg init). rewrite len_app. change (len [c]) with 1.
  destruct (Z.eqb_spec (len init + 1) 0); [lia|].
  replace (len init + 1 - 1) with (len init + 0) by lia.
  rewrite idx_app_r, idx_0 by lia.
  by destruct (Z.ltb_spec (byteZ c) utf8.RuneSelf); [|lia].
Qed.

Lemma decodeLast_space init r :
  unicode.IsSpace r = true ->
  utf8.DecodeLastRuneInString (init ++ encode r) = (r, len (encode r)).
Proof.
  intros Hr. pose proof (decode_space r [] Hr) as Hd.
  rewrite app_nil_r in Hd. revert Hd. each_space Hr.
  all: intros Hd.
  all: first
    [ by apply decodeLast_ascii
    | apply decodeLast_of_decode;
      [ exact Hd | by vm_compute | reflexivity | | by vm_compute ];
      intros k Hk;
      first [ change (len _) with 2 in Hk; replace k with 1 by lia
            | change (len _) with 3 in Hk;
              assert (k = 1 \/ k = 2) as [-> | ->] by lia ];
      reflexivity ].
Qed.

Lemma starts_with_space_decode t :
  starts_with_space t
  <-> unicode.IsSpace (fst (utf8.DecodeRuneInString t)) = true.
Proof.
  split.
  - intros (r & rest & Hr & ->). by rewrite decode_space.
  - intros Hr. destruct (utf8.DecodeRuneInString t) as [r w] eqn:Hd.
    destruct (decode_space_inv _ _ _ Hd Hr) as (rest & -> & _).
    by exists r, rest.
Qed.

Lemma ends_with_space_decode t :
  ends_with_space t
  <-> unicode.IsSpace (fst (utf8.DecodeLastRuneInString t)) = true.
Proof.
  split.
  - intros (r & init & Hr & ->). by rewrite decodeLast_space.
  - intros Hr. destruct (utf8.DecodeLastRuneInString t) as [r w] eqn:Hd.
    destruct (decodeLast_space_inv _ _ _ Hd Hr) as (init & -> & _).
    by exists r, init.
Qed.

Lemma whitespace_app a b : whitespace a -> whitespace b -> whitespace (a ++ b).
Proof.
  induction 1 as [|r s Hr Hs IH]; intros Hb; [done|].
  rewrite <- app_assoc. constructor; auto.
Qed.

Lemma whitespace_encode r : unicode.IsSpace r = true -> whitespace (encode r).
Proof.
  intros Hr. rewrite <- (app_nil_r (encode r)). by repeat constructor.
Qed.

Lemma from_len s : from s (len s) = [].
Proof. unfold from, len. rewrite Nat2Z.id. apply drop_all. Qed.

Lemma from_split s a b : 0 <= a <= b -> from s a = sub s a b ++ from s b.
Proof.
  intros Hab. unfold sub, upto, from.
  rewrite <- (take_drop (Z.to_nat (b - a)) (drop (Z.to_nat a) s)) at 1.
  f_equal. rewrite drop_drop. f_equal. lia.
Qed.

Lemma sub_is_take s a w :
  0 <= a -> 0 <= w -> sub s a (a + w) = upto (from s a) w.
Proof. intros Ha Hw. unfold sub. f_equal. lia. Qed.

Lemma upto_app_len a b : upto (a ++ b) (len a) = a.
Proof. unfold upto, len. rewrite Nat2Z.id. apply take_app_length. Qed.

Lemma len_from s i : 0 <= i <= len s -> len (from s i) = len s - i.
Proof. intros Hi. unfold from, len in *. rewrite length_drop. lia. Qed.

Lemma starts_with_space_nil : ~ starts_with_space [].
Proof.
  intros (r & rest & Hr & Hnil). pose proof (encode_space_len r Hr).
  apply (f_equal len) in Hnil. rewrite len_app in Hnil.
  pose proof (len_nonneg rest). change (len []) with 0 in Hnil. lia.
Qed.

Lemma ends_with_space_nil : ~ ends_with_space [].
Proof.
  intros (r & rest & Hr & Hnil). pose proof (encode_space_len r Hr).
  apply (f_equal len) in Hnil. rewrite len_app in Hnil.
  pose proof (len_nonneg rest). change (len []) with 0 in Hnil. lia.
Qed.

(** The scan from the front stops at the first rune that is not white
    space, past white space only. *)
Lemma indexFuncFrom_spec fuel s : forall i,
  0 <= i <= len s -> len s - i <= Z.of_nat fuel ->
  let j := strings.indexFuncFrom fuel s unicode.IsSpace false i in
  (j = -1 /\ whitespace (from s i))
  \/ (i <= j < len s /\ whitespace (sub s i j)
      /\ ~ starts_with_space (from s j)).
Proof.
  induction fuel as [|fuel IH]; intros i Hi Hfuel; cbn zeta.
  { left. split; [done|]. replace i with (len s) by lia.
    rewrite from_len. constructor. }
  cbn [strings.indexFuncFrom].
  destruct (Z.leb_spec (len s) i) as [Hge|Hlt].
  { left. split; [done|]. replace i with (len s) by lia.
    rewrite from_len. constructor. }
  destruct (utf8.DecodeRuneInString (from s i)) as [r w] eqn:Hd.
  destruct (unicode.IsSpace r) eqn:Hr; cbn [eqb].
  - destruct (decode_space_inv _ _ _ Hd Hr) as (rest & Hfrom & Hw).
    pose proof (encode_space_len r Hr) as Hw1.
    assert (len (from s i) = len s - i) as Hlen by (apply len_from; lia).
    assert (w <= len s - i) as Hw2.
    { rewrite <- Hlen, Hfrom, len_app. pose proof (len_nonneg rest). lia. }
    assert (sub s i (i + w) = encode r) as Hsub.
    { rewrite sub_is_take, Hfrom, Hw by lia. apply upto_app_len. }
    assert (from s (i + w) = rest) as Hrest.
    { rewrite from_from, Hfrom, Hw by lia. apply from_app_len. }
    destruct (IH (i + w)) as [[Hj Hws]|(Hj & Hws & Hns)]; [lia|lia| |].
    + left. split; [done|]. rewrite Hfrom. constructor; [done|].
      by rewrite <- Hrest.
    + right. split_and!; [lia|lia| |done].
      rewrite (sub_split s i (i + w)) by lia. rewrite Hsub.
      by constructor.
  - right. split_and!; [lia|lia| |].
    + rewrite sub_empty. constructor.
    + rewrite starts_with_space_decode, Hd. cbn. by rewrite Hr.
Qed.

Lemma TrimLeftFunc_spec s :
  exists pre,
    s = pre ++ strings.TrimLeftFunc s unicode.IsSpace /\ whitespace pre /\
    ~ starts_with_space (strings.TrimLeftFunc s unicode.IsSpace).
Proof.
  unfold strings.TrimLeftFunc, strings.indexFunc.
  pose proof (len_nonneg s).
  destruct (indexFuncFrom_spec (length s) s 0) as [[-> Hws]|(Hj & Hws & Hns)];
    [lia|unfold len; lia| |].
  - exists s. cbn. rewrite app_nil_r. split_and!; [done|done|].
    apply starts_with_space_nil.
  - destruct (Z.eqb_spec
      (strings.indexFuncFrom (length s) s unicode.IsSpace false 0) (-1));
      [lia|].
    eexists. split_and!; [|exact Hws|exact Hns]. apply upto_from. lia.
Qed.

(** *** Trimming on the right *)

Lemma decode_ascii c s :
  byteZ c < 0x80 -> utf8.DecodeRuneInString (c :: s) = (byteZ c, 1).
Proof.
  intros Hc. rewrite decode_decoded. unfold decoded.
  by destruct (Z.ltb_spec (byteZ c) 128); [|lia].
Qed.

Lemma from_app_l u post j :
  0 <= j <= len u -> from (u ++ post) j = from u j ++ post.
Proof.
  intros Hj. unfold from, len in *. apply drop_app_le. lia.
Qed.

(** The three ways [DecodeLastRuneInString] answers on a text that is not
    empty. *)
Lemma decodeLast_cases u r w :
  u <> [] -> utf8.DecodeLastRuneInString u = (r, w) ->
  exists init c,
    u = init ++ [c] /\
    ((byteZ c < 0x80 /\ r = byteZ c /\ w = 1)
     \/ (0x80 <= byteZ c /\ r = utf8.RuneError /\ w = 1)
     \/ (0x80 <= byteZ c /\ 1 <= w <= len u
         /\ utf8.DecodeRuneInString (from u (len u - w)) = (r, w))).
Proof.
  intros Hu Hd. unfold utf8.DecodeLastRuneInString in Hd.
  pose proof (len_nonneg u) as Hnn.
  destruct (Z.eqb_spec (len u) 0) as [Hlen|Hlen].
  { destruct u; [done|]. rewrite len_cons in Hlen.
    pose proof (len_nonneg u). lia. }
  destruct (last_byte u Hu) as (init & c & Hsplit & Hlast).
  exists init, c. split; [done|]. rewrite Hlast in Hd.
  destruct (Z.ltb_spec (byteZ c) utf8.RuneSelf) as [Hc|Hc].
  { injection Hd as <- <-. left. by change utf8.RuneSelf with 128 in Hc. }
  change utf8.RuneSelf with 128 in Hc. right.
  set (lim := if len u - utf8.UTFMax <? 0 then 0 else len u - utf8.UTFMax)
    in Hd.
  set (st1 := utf8.scanBack _ u lim _) in Hd.
  set (start := if st1 <? 0 then 0 else st1) in Hd.
  assert (0 <= start <= len u - 1) as Hstart.
  { pose proof (scanBack_le (Z.to_nat (len u - 1 - 1 - lim + 1)) u lim
                  (len u - 1 - 1)) as Hle.
    fold st1 in Hle. unfold start. destruct (Z.ltb_spec st1 0); lia. }
  rewrite sub_from in Hd by lia.
  destruct (utf8.DecodeRuneInString (from u start)) as [r' size] eqn:Hdec.
  destruct (Z.eqb_spec (start + size) (len u)) as [Hend|Hend]; cbn in Hd;
    injection Hd as <- <-; [right|by left].
  replace (len u - size) with start by lia. split_and!; [done|lia|lia|done].
Qed.

Lemma decodeLast_width u r w :
  u <> [] -> utf8.DecodeLastRuneInString u = (r, w) -> 1 <= w <= len u.
Proof.
  intros Hu Hd.
  destruct (decodeLast_cases u r w Hu Hd)
    as (init & c & -> & [(_ & _ & ->)|[(_ & _ & ->)|(_ & Hw & _)]]);
    [| |done].
  all: rewrite len_app; change (len [c]) with 1;
       pose proof (len_nonneg init); lia.
Qed.

(** No encoding of a white space code point starts with a continuation
    byte. *)
Lemma space_not_cont r c rest :
  unicode.IsSpace r = true -> encode r = c :: rest -> cont (byteZ c) = false.
Proof.
  intros H. each_space H. all: intros [= <- <-]. all: reflexivity.
Qed.

Lemma whitespace_not_cont post c rest :
  whitespace post -> post = c :: rest -> cont (byteZ c) = false.
Proof.
  intros Hws Hpost. destruct Hws as [|r s Hr Hs]; [done|].
  destruct (encode r) as [|c' rest'] eqn:He.
  { pose proof (encode_space_len r Hr) as Hl. rewrite He in Hl.
    change (len []) with 0 in Hl. lia. }
  injection Hpost as -> _. by apply (space_not_cont r c rest').
Qed.

(** Where [TrimRightFunc] cuts: at the end of the rune that
    [lastIndexFunc] found. *)
Lemma cut_point u post j r :
  0 <= j < len u ->
  utf8.DecodeLastRuneInString u = (r, len u - j) ->
  (forall c1 rest, post = c1 :: rest -> cont (byteZ c1) = false) ->
  (if (0 <=? j) && (utf8.RuneSelf <=? idx (u ++ post) j)
   then j + snd (utf8.DecodeRuneInString (from (u ++ post) j))
   else j + 1) = len u.
Proof.
  intros Hj Hd Hpost.
  assert (u <> []) as Hu.
  { intros ->. change (len []) with 0 in Hj. lia. }
  rewrite idx_app_l, from_app_l by lia.
  destruct (Z.leb_spec 0 j); [|lia]. cbn [andb].
  change utf8.RuneSelf with 128.
  assert (forall init c, u = init ++ [c] -> len u - j = 1 ->
            idx u j = byteZ c /\ from u j = [c]) as Hlast.
  { intros init c -> Hw. rewrite len_app in Hw. change (len [c]) with 1 in Hw.
    replace j with (len init + 0) by lia.
    rewrite idx_app_r by lia. replace (len init + 0) with (len init) by lia.
    by rewrite from_app_len. }
  destruct (decodeLast_cases u r _ Hu Hd)
    as (init & c & Hsplit & [(Hc & _ & Hw)|[(Hc & _ & Hw)|(Hc & Hw & Hdec)]]).
  - destruct (Hlast init c Hsplit Hw) as [-> _].
    destruct (Z.leb_spec 128 (byteZ c)); lia.
  - destruct (Hlast init c Hsplit Hw) as [-> ->].
    destruct (Z.leb_spec 128 (byteZ c)); [|lia].
    cbn [app]. rewrite decode_lone by done. cbn. lia.
  - replace (len u - (len u - j)) with j in Hdec by lia.
    destruct (Z.eq_dec (len u - j) 1) as [Hone|Hmore].
    + destruct (Hlast init c Hsplit Hone) as [-> ->].
      destruct (Z.leb_spec 128 (byteZ c)); [|lia].
      cbn [app]. rewrite decode_lone by done. cbn. lia.
    + assert (len (from u j) = len u - j) as Hlen by (apply len_from; lia).
      rewrite (idx_from u j) by lia.
      destruct (from u j) as [|c0 t'] eqn:Hfrom.
      { change (len []) with 0 in Hlen. lia. }
      rewrite idx_0.
      destruct (Z.leb_spec 128 (byteZ c0)) as [Hc0|Hc0].
      * rewrite (decode_prefix (c0 :: t') post r (len u - j)); [cbn; lia|..];
          [done|lia|lia].
      * rewrite decode_ascii in Hdec by done. injection Hdec as _ Hw1. lia.
Qed.

(** The scan from the end stops at the last rune that is not white space,
    before white space only. *)
Lemma lastIndexFuncFrom_spec fuel s : forall i,
  0 <= i <= len s -> i <= Z.of_nat fuel ->
  let j := strings.lastIndexFuncFrom fuel s unicode.IsSpace false i in
  (j = -1 /\ whitespace (sub s 0 i))
  \/ (exists e r,
        0 <= j < e /\ e <= i /\ whitespace (sub s e i) /\
        utf8.DecodeLastRuneInString (sub s 0 e) = (r, e - j) /\
        unicode.IsSpace r = false).
Proof.
  induction fuel as [|fuel IH]; intros i Hi Hfuel; cbn zeta.
  { left. split; [done|]. replace i with 0 by lia. rewrite sub_empty.
    constructor. }
  cbn [strings.lastIndexFuncFrom].
  destruct (Z.leb_spec i 0) as [Hle|Hgt].
  { left. split; [done|]. replace i with 0 by lia. rewrite sub_empty.
    constructor. }
  destruct (utf8.DecodeLastRuneInString (sub s 0 i)) as [r w] eqn:Hd.
  assert (len (sub s 0 i) = i) as Hlen by (rewrite len_sub; lia).
  assert (sub s 0 i <> []) as Hne.
  { intros Hnil. rewrite Hnil in Hlen. change (len []) with 0 in Hlen. lia. }
  pose proof (decodeLast_width _ _ _ Hne Hd) as Hw. rewrite Hlen in Hw.
  destruct (unicode.IsSpace r) eqn:Hr; cbn [eqb].
  - destruct (decodeLast_space_inv _ _ _ Hd Hr) as (init & Hsplit & Hwr).
    assert (sub s (i - w) i = encode r) as Hsub.
    { pose proof (sub_split s 0 (i - w) i) as Hcut.
      rewrite Hsplit in Hcut. specialize (Hcut ltac:(lia) ltac:(lia)).
      assert (length (encode r) = length (sub s (i - w) i)) as Hsame.
      { apply Nat2Z.inj.
        change (len (encode r) = len (sub s (i - w) i)).
        rewrite len_sub by lia. lia. }
      by destruct (app_inj_2 _ _ _ _ Hsame Hcut) as [_ <-]. }
    destruct (IH (i - w)) as [[Hj Hws]|(e & r' & Hj & He & Hws & Hdec & Hr')];
      [lia|lia| |].
    + left. split; [done|].
      rewrite (sub_split s 0 (i - w) i) by lia. rewrite Hsub.
      apply whitespace_app; [done|by apply whitespace_encode].
    + right. exists e, r'. split_and!; [lia|lia|lia| |done|done].
      rewrite (sub_split s e (i - w) i) by lia. rewrite Hsub.
      apply whitespace_app; [done|by apply whitespace_encode].
  - right. exists i, r. split_and!; [lia|lia|lia| | |done].
    + rewrite sub_empty. constructor.
    + rewrite Hd. f_equal. lia.
Qed.

Lemma TrimRightFunc_spec s :
  exists post,
    s = strings.TrimRightFunc s unicode.IsSpace ++ post /\ whitespace post /\
    ~ ends_with_space (strings.TrimRightFunc s unicode.IsSpace).
Proof.
  unfold strings.TrimRightFunc, strings.lastIndexFunc.
  pose proof (len_nonneg s) as Hnn.
  destruct (lastIndexFuncFrom_spec (length s) s (len s))
    as [[-> Hws]|(e & r & Hj & He & Hws & Hdec & Hr)];
    [lia|unfold len; lia| |].
  - cbn. rewrite sub_0_len in Hws. exists s.
    split_and!; [done|done|apply ends_with_space_nil].
  - set (j := strings.lastIndexFuncFrom _ _ _ _ _) in *. cbn zeta.
    rewrite sub_from in Hws by lia.
    assert (len (sub s 0 e) = e) as Hlen by (rewrite len_sub; lia).
    pose proof (upto_from s e ltac:(lia)) as Hs.
    assert ((if (0 <=? j) && (utf8.RuneSelf <=? idx s j)
             then j + snd (utf8.DecodeRuneInString (from s j))
             else j + 1) = e) as ->.
    { clearbody j. revert Hs Hlen Hdec Hws He.
      generalize (sub s 0 e) (from s e). intros u post -> <- Hdec Hws He.
      apply (cut_point u post j r); [lia|done|].
      intros c1 rest. by apply whitespace_not_cont. }
    exists (from s e). split_and!; [done|done|].
    rewrite ends_with_space_decode, Hdec. cbn. by rewrite Hr.
Qed.

(** *** [TrimSpace] *)

Lemma ascii_space c :
  byteZ c < 0x80 -> strings.asciiSpace (byteZ c) <> 0 ->
  unicode.IsSpace (byteZ c) = true.
Proof.
  pose proof (byteZ_range c) as Hc. intros Hlt.
  unfold strings.asciiSpace, unicode.IsSpace, unicode.uint32,
    unicode.MaxLatin1.
  rewrite Z.mod_small by lia.
  destruct (Z.leb_spec (byteZ c) 255); [|lia].
  by destruct (_ || _ || _ || _ || _ || _).
Qed.

Lemma ascii_not_space c :
  byteZ c < 0x80 -> strings.asciiSpace (byteZ c) = 0 ->
  unicode.IsSpace (byteZ c) = false.
Proof.
  pose proof (byteZ_range c) as Hc. intros Hlt.
  unfold strings.asciiSpace, unicode.IsSpace, unicode.uint32,
    unicode.MaxLatin1.
  rewrite Z.mod_small by lia.
  destruct (Z.leb_spec (byteZ c) 255); [|lia].
  destruct (_ || _ || _ || _ || _ || _); [done|]. intros _. cbn [orb].
  destruct (Z.eqb_spec (byteZ c) 133); [lia|].
  destruct (Z.eqb_spec (byteZ c) 160); [lia|]. done.
Qed.

Lemma not_starts_ascii c t :
  byteZ c < 0x80 -> strings.asciiSpace (byteZ c) = 0 ->
  ~ starts_with_space (c :: t).
Proof.
  intros Hc Hsp. rewrite starts_with_space_decode, decode_ascii by done.
  cbn [fst]. by rewrite ascii_not_space.
Qed.

Lemma not_ends_ascii init c :
  byteZ c < 0x80 -> strings.asciiSpace (byteZ c) = 0 ->
  ~ ends_with_space (init ++ [c]).
Proof.
  intros Hc Hsp. rewrite ends_with_space_decode, decodeLast_ascii by done.
  cbn [fst]. by rewrite ascii_not_space.
Qed.

Lemma sub_one s i :
  0 <= i < len s -> exists c, sub s i (i + 1) = [c] /\ idx s i = byteZ c.
Proof.
  intros Hi. assert (len (from s i) = len s - i) as Hlen
    by (apply len_from; lia).
  rewrite (idx_from s i), sub_is_take by lia.
  destruct (from s i) as [|c rest].
  { change (len []) with 0 in Hlen. lia. }
  by exists c.
Qed.

Lemma whitespace_ascii c :
  byteZ c < 0x80 -> strings.asciiSpace (byteZ c) <> 0 -> whitespace [c].
Proof.
  intros Hc Hsp. rewrite <- (encode_ascii c Hc).
  apply whitespace_encode. by apply ascii_space.
Qed.

(** The first loop of [TrimSpace] passes white space only, and leaves
    either at a byte of ASCII that is not white space, or at the end, or
    by handing the rest to [TrimFunc]. *)
Lemma trimSpaceStart_spec fuel s : forall start,
  0 <= start <= len s -> len s - start <= Z.of_nat fuel ->
  whitespace (sub s 0 start) ->
  match strings.trimSpaceStart fuel s start with
  | inl k =>
      start <= k <= len s /\ whitespace (sub s 0 k) /\
      (k < len s -> idx s k < 0x80 /\ strings.asciiSpace (idx s k) = 0)
  | inr t =>
      exists k,
        start <= k < len s /\ whitespace (sub s 0 k) /\
        t = strings.TrimFunc (from s k) unicode.IsSpace
  end.
Proof.
  induction fuel as [|fuel IH]; intros start Hstart Hfuel Hws.
  { cbn. split_and!; [lia|lia|done|lia]. }
  cbn [strings.trimSpaceStart].
  destruct (Z.leb_spec (len s) start) as [Hge|Hlt].
  { split_and!; [lia|lia|done|lia]. }
  change utf8.RuneSelf with 128.
  destruct (Z.leb_spec 128 (idx s start)) as [Hc|Hc].
  { exists start. split_and!; [lia|lia|done|done]. }
  destruct (Z.eqb_spec (strings.asciiSpace (idx s start)) 0) as [Hsp|Hsp].
  { split_and!; [lia|lia|done|done]. }
  destruct (sub_one s start) as (c & Hsub & Hidx); [lia|].
  rewrite Hidx in Hc, Hsp.
  assert (whitespace (sub s 0 (start + 1))) as Hws'.
  { rewrite (sub_split s 0 start) by lia. rewrite Hsub.
    apply whitespace_app; [done|by apply whitespace_ascii]. }
  specialize (IH (start + 1) ltac:(lia) ltac:(lia) Hws').
  destruct (strings.trimSpaceStart fuel s (start + 1)) as [k|t].
  - destruct IH as (Hk & Hwsk & Hascii). split_and!; [lia|lia|done|done].
  - destruct IH as (k & Hk & Hwsk & ->). exists k.
    split_and!; [lia|lia|done|done].
Qed.

(** The second loop of [TrimSpace], entered with [start] at a byte of ASCII
    that is not white space. *)
Lemma trimSpaceStop_spec fuel s start : forall stop,
  0 <= start < stop -> stop <= len s -> stop <= Z.of_nat fuel ->
  idx s start < 0x80 -> strings.asciiSpace (idx s start) = 0 ->
  whitespace (from s stop) ->
  match strings.trimSpaceStop fuel s start stop with
  | inl k =>
      start < k <= stop /\ whitespace (from s k) /\
      idx s (k - 1) < 0x80 /\ strings.asciiSpace (idx s (k - 1)) = 0
  | inr t =>
      exists k,
        start < k <= stop /\ whitespace (from s k) /\
        t = strings.TrimRightFunc (sub s start k) unicode.IsSpace
  end.
Proof.
  intros stop Hstart Hstop Hfuel Hc0 Hsp0. revert stop Hstart Hstop Hfuel.
  induction fuel as [|fuel IH]; intros stop Hstart Hstop Hfuel Hws; [lia|].
  cbn [strings.trimSpaceStop].
  destruct (Z.leb_spec stop start) as [Hle|Hgt]; [lia|].
  change utf8.RuneSelf with 128.
  destruct (Z.leb_spec 128 (idx s (stop - 1))) as [Hc|Hc].
  { exists stop. split_and!; [lia|lia|done|done]. }
  destruct (Z.eqb_spec (strings.asciiSpace (idx s (stop - 1))) 0)
    as [Hsp|Hsp].
  { split_and!; [lia|lia|done|done|done]. }
  assert (stop - 1 <> start) as Hne by (intros Heq; by rewrite Heq in Hsp).
  destruct (sub_one s (stop - 1)) as (c & Hsub & Hidx); [lia|].
  replace (stop - 1 + 1) with stop in Hsub by lia.
  rewrite Hidx in Hc, Hsp.
  assert (whitespace (from s (stop - 1))) as Hws'.
  { rewrite (from_split s (stop - 1) stop) by lia. rewrite Hsub.
    apply whitespace_app; [by apply whitespace_ascii|done]. }
  specialize (IH (stop - 1) ltac:(lia) ltac:(lia) ltac:(lia) Hws').
  destruct (strings.trimSpaceStop fuel s start (stop - 1)) as [k|t].
  - destruct IH as (Hk & Hwsk & Hascii).
    split_and!; [lia|lia|done|apply Hascii|apply Hascii].
  - destruct IH as (k & Hk & Hwsk & ->). exists k.
    split_and!; [lia|lia|done|done].
Qed.

(** [TrimSpace] removes white space from both ends, and all of it: what it
    returns neither starts nor ends with a white space code point. *)
Lemma TrimSpace_trimmed s : trimmed s (strings.TrimSpace s).
Proof.
  unfold strings.TrimSpace. pose proof (len_nonneg s) as Hnn.
  pose proof (trimSpaceStart_spec (length s) s 0) as Hfirst.
  specialize (Hfirst ltac:(lia) ltac:(unfold len; lia)).
  rewrite sub_empty in Hfirst. specialize (Hfirst whitespace_nil).
  destruct (strings.trimSpaceStart (length s) s 0) as [k|t].
  - destruct Hfirst as (Hk & Hws & Hascii).
    destruct (Z.eq_dec k (len s)) as [->|Hlt].
    { rewrite trimSpaceStop_done, sub_empty. rewrite sub_0_len in Hws.
      exists s, []. rewrite app_nil_r.
      split_and!; [done|done|constructor|apply starts_with_space_nil
                  |apply ends_with_space_nil]. }
    destruct Hascii as [Hc Hsp]; [lia|].
    pose proof (trimSpaceStop_spec (length s) s k (len s)) as Hsecond.
    specialize (Hsecond ltac:(lia) ltac:(lia) ltac:(unfold len; lia) Hc Hsp).
    rewrite from_len in Hsecond. specialize (Hsecond whitespace_nil).
    destruct (sub_one s k) as (c & Hsub & Hidx); [lia|].
    rewrite Hidx in Hc, Hsp.
    destruct (strings.trimSpaceStop (length s) s k (len s)) as [e|t].
    + destruct Hsecond as (He & Hwse & Hce & Hspe).
      destruct (sub_one s (e - 1)) as (c' & Hsub' & Hidx'); [lia|].
      replace (e - 1 + 1) with e in Hsub' by lia. rewrite Hidx' in Hce, Hspe.
      exists (sub s 0 k), (from s e). split_and!; [|done|done| |].
      * rewrite <- (from_split s k e) by lia. apply upto_from. lia.
      * rewrite (sub_split s k (k + 1) e) by lia. rewrite Hsub.
        by apply not_starts_ascii.
      * rewrite (sub_split s k (e - 1) e) by lia. rewrite Hsub'.
        by apply not_ends_ascii.
    + destruct Hsecond as (e & He & Hwse & ->).
      destruct (TrimRightFunc_spec (sub s k e)) as (post & Hu & Hwsp & Hne).
      set (t := strings.TrimRightFunc (sub s k e) unicode.IsSpace) in *.
      exists (sub s 0 k), (post ++ from s e). split_and!; [| | | |done].
      * rewrite (app_assoc t), <- Hu, <- (from_split s k e) by lia.
        apply upto_from. lia.
      * done.
      * by apply whitespace_app.
      * destruct t as [|c0 t'] eqn:Ht; [apply starts_with_space_nil|].
        rewrite (sub_split s k (k + 1) e) in Hu by lia. rewrite Hsub in Hu.
        injection Hu as -> _. by apply not_starts_ascii.
  - destruct Hfirst as (k & Hk & Hws & ->). unfold strings.TrimFunc.
    destruct (TrimLeftFunc_spec (from s k)) as (pre & Hl & Hwsl & Hns).
    set (t1 := strings.TrimLeftFunc (from s k) unicode.IsSpace) in *.
    destruct (TrimRightFunc_spec t1) as (post & Hr & Hwsr & Hne).
    set (t := strings.TrimRightFunc t1 unicode.IsSpace) in *.
    exists (sub s 0 k ++ pre), post. split_and!; [| |done| |done].
    + rewrite <- app_assoc, <- Hr, <- Hl. apply upto_from. lia.
    + by apply whitespace_app.
    + intros (r & rest & Hsp & Ht). apply Hns. exists r, (rest ++ post).
      split; [done|]. by rewrite Hr, Ht, <- app_assoc.
Qed.

End trimming.

(** ** Output and Lines on a process that succeeds *)

(** What [Output] and [Lines] return when the process is created and
    exits with status 0. *)
Lemma run_Output_success h b st bld c o :
  builders st !! b = Some bld -> cmds st !! cmd bld = Some c ->
  unlaunched c ->
  valid_writer st (exec.Stdout c) -> valid_writer st (exec.Stderr c) ->
  create h st c = inr o -> exec.status o = 0%Z ->
  exists st',
    CmdBuilder.Output h b st
    = Some ((strings.TrimSpace (exec.stdout o), None), st') /\
    CmdBuilder.Lines h b st
    = Some ((strings.Split
               (strings.ReplaceAll (strings.TrimSpace (exec.stdout o))
                  [CR; LF] [LF]) [LF], None), st') /\
    same_streams st st'
      (deliver (exec.Stderr c) (exec.stderr o)
         (deliver (exec.Stdout c) (exec.stdout o) st)).
Proof.
  intros Hb Hc Hun Hvo Hve Hcr Hst.
  destruct (run_Output h b st bld c Hb Hc Hun Hvo Hve) as (st' & Hout & Hsame).
  unfold output_result, run_streams, exit_error in *.
  rewrite Hcr, Hst in *. cbn in Hout.
  exists st'. split; [done|]. split; [|done].
  by rewrite (run_Lines _ _ _ _ _ Hout).
Qed.

(** C9: when [Lines] succeeds, the sequence it returns is not empty; and
    for a process that succeeds and prints nothing, or white space only,
    [Lines] returns the sequence of the one empty string. *)
Theorem Lines_never_empty h b st :
  (forall ls st',
     CmdBuilder.Lines h b st = Some ((ls, None), st') -> ls <> []) /\
  (forall bld c o,
     builders st !! b = Some bld -> cmds st !! cmd bld = Some c ->
     unlaunched c ->
     valid_writer st (exec.Stdout c) -> valid_writer st (exec.Stderr c) ->
     create h st c = inr o -> exec.status o = 0%Z ->
     whitespace (exec.stdout o) ->
     exists st', CmdBuilder.Lines h b st = Some (([[]], None), st')).
Proof.
  split.
  - intros ls st'. unfold CmdBuilder.Lines. rewrite run_bind.
    destruct (CmdBuilder.Output h b st) as [[[output [e|]] st1]|];
      try discriminate.
    intros [= <- _]. apply Split_LF_nonempty.
  - intros bld c o Hb Hc Hun Hvo Hve Hcr Hst Hws.
    destruct (run_Output_success h b st bld c o Hb Hc Hun Hvo Hve Hcr Hst)
      as (st' & _ & Hlines & _).
    exists st'. by rewrite Hlines, (TrimSpace_whitespace _ Hws).
Qed.

Lemma Lines_never_empty_witness :
  (exists bld c o,
     builders (snd demo_blank) !! fst demo_blank = Some bld /\
     cmds (snd demo_blank) !! cmd bld = Some c /\
     unlaunched c /\
     valid_writer (snd demo_blank) (exec.Stdout c) /\
     valid_writer (snd demo_blank) (exec.Stderr c) /\
     create demo_host (snd demo_blank) c = inr o /\
     exec.status o = 0%Z /\
     exec.stdout o = encode 32 ++ encode 32 ++ encode 13 ++ encode 10
                     ++ encode 32 ++ encode 10 /\
     whitespace (exec.stdout o)) /\
  exists st', CmdBuilder.Lines demo_host (fst demo_blank) (snd demo_blank)
              = Some (([[]], None), st').
Proof.
  assert (whitespace (encode 32 ++ encode 32 ++ encode 13 ++ encode 10
                      ++ encode 32 ++ encode 10)) as Hws.
  { repeat (apply whitespace_cons; [reflexivity|]).
    rewrite <- (app_nil_r (encode 10)).
    apply whitespace_cons; [reflexivity|constructor]. }
  split.
  { eexists _, _, _. split; [reflexivity|]. split; [reflexivity|].
    split; [repeat split|]. split; [exact I|].
    split; [repeat constructor|]. split; [reflexivity|].
    split; [reflexivity|]. split; [reflexivity|]. exact Hws. }
  eapply (proj2 (Lines_never_empty demo_host (fst demo_blank)
                   (snd demo_blank)));
    [reflexivity|reflexivity|repeat split|exact I|repeat constructor
    |reflexivity|reflexivity|exact Hws].
Defined.

(** C1, as the code has it: [Lines] trims before it splits.  For a command
    whose process succeeds and whose standard output is [a], a carriage
    return, a line feed, [b] and a line feed, [Lines] returns the two
    strings [a] and [b]: [Output] has trimmed the line feed at the end
    before the carriage return and line feed are made a line feed and the
    text is split, so no empty string ends the sequence. *)
Theorem Lines_crlf_output h b st bld c o :
  builders st !! b = Some bld -> cmds st !! cmd bld = Some c ->
  unlaunched c ->
  valid_writer st (exec.Stdout c) -> valid_writer st (exec.Stderr c) ->
  create h st c = inr o -> exec.status o = 0%Z ->
  exec.stdout o = go "a" ++ [CR; LF] ++ go "b" ++ [LF] ->
  exists st',
    CmdBuilder.Lines h b st = Some (([go "a"; go "b"], None), st').
Proof.
  intros Hb Hc Hun Hvo Hve Hcr Hst Htext.
  destruct (run_Output_success h b st bld c o Hb Hc Hun Hvo Hve Hcr Hst)
    as (st' & _ & Hlines & _).
  exists st'. by rewrite Hlines, Htext.
Qed.

Lemma Lines_crlf_output_witness :
  (exists bld c o,
     builders (snd demo_crlf) !! fst demo_crlf = Some bld /\
     cmds (snd demo_crlf) !! cmd bld = Some c /\
     unlaunched c /\
     valid_writer (snd demo_crlf) (exec.Stdout c) /\
     valid_writer (snd demo_crlf) (exec.Stderr c) /\
     create demo_host (snd demo_crlf) c = inr o /\
     exec.status o = 0%Z /\
     exec.stdout o = go "a" ++ [CR; LF] ++ go "b" ++ [LF]) /\
  exists st', CmdBuilder.Lines demo_host (fst demo_crlf) (snd demo_crlf)
              = Some (([go "a"; go "b"], None), st').
Proof.
  split.
  { eexists _, _, _. split; [reflexivity|]. split; [reflexivity|].
    split; [repeat split|]. split; [exact I|].
    split; [repeat constructor|]. split; [reflexivity|].
    repeat split. }
  eapply (Lines_crlf_output demo_host (fst demo_crlf) (snd demo_crlf));
    [reflexivity|reflexivity|repeat split|exact I|repeat constructor
    |reflexivity|reflexivity|reflexivity].
Defined.

(** C1, as the claim has it, fails: on the example host, for the builder
    whose process succeeds with that standard output, [Lines] does not
    return the three strings [a], [b] and the empty string. *)
Lemma Lines_crlf_output_counterexample :
  ~ (forall h b st bld c o,
       builders st !! b = Some bld -> cmds st !! cmd bld = Some c ->
       unlaunched c ->
       valid_writer st (exec.Stdout c) -> valid_writer st (exec.Stderr c) ->
       create h st c = inr o -> exec.status o = 0%Z ->
       exec.stdout o = go "a" ++ [CR; LF] ++ go "b" ++ [LF] ->
       exists st',
         CmdBuilder.Lines h b st
         = Some (([go "a"; go "b"; []], None), st')).
Proof.
  intros Hclaim.
  edestruct (Hclaim demo_host (fst demo_crlf) (snd demo_crlf)) as [st' H];
    [reflexivity|reflexivity|repeat split|exact I|repeat constructor
    |reflexivity|reflexivity|reflexivity|].
  vm_compute in H. discriminate H.
Qed.

(** C2: for a builder whose process succeeds, [Output] returns the
    standard output of the process with [strings.TrimSpace] applied, that
    is without the white space at its two ends ([trimmed]: what is removed
    is white space, and what is returned neither starts nor ends with
    white space), so [hello] for [hello] and a line feed; this also when a
    writer was assigned as stdout, where [exec]'s own [Output] refuses to
    run: the builder's [Output] then returns the same trimmed text, and
    every stream of that writer has received the whole output (once, for a
    stream that the writer holds once and that stderr does not also write
    to). *)
Theorem Output_trims_and_tees h b st bld c o :
  builders st !! b = Some bld -> cmds st !! cmd bld = Some c ->
  unlaunched c ->
  valid_writer st (exec.Stdout c) -> valid_writer st (exec.Stderr c) ->
  create h st c = inr o -> exec.status o = 0%Z ->
  exists st',
    CmdBuilder.Output h b st
    = Some ((strings.TrimSpace (exec.stdout o), None), st') /\
    trimmed (exec.stdout o) (strings.TrimSpace (exec.stdout o)) /\
    (exec.stdout o = go "hello" ++ [LF] ->
     strings.TrimSpace (exec.stdout o) = go "hello") /\
    (forall w,
       exec.Stdout c = Some w ->
       (exists st_exec,
          os_exec.Output h (cmd bld) st
          = Some (([], Some exec.ErrStdoutAlreadySet), st_exec)) /\
       (forall s,
          s ∈ io.members w -> NoDup (io.members w) ->
          s ∉ default [] (io.members <$> exec.Stderr c) ->
          received st' s = received st s ++ exec.stdout o)).
Proof.
  intros Hb Hc Hun Hvo Hve Hcr Hst.
  destruct (run_Output_success h b st bld c o Hb Hc Hun Hvo Hve Hcr Hst)
    as (st' & Hout & _ & _ & _ & Hsame).
  exists st'. split; [done|]. split; [apply TrimSpace_trimmed|]. split.
  { by intros ->. }
  intros w Hw. split.
  - unfold os_exec.Output. rewrite run_bind, (run_getCmd _ _ _ Hc), Hw.
    eexists. reflexivity.
  - intros s Hin Hnd Hnot. rewrite Hw in Hvo, Hsame. cbn in Hvo.
    assert (valid_stream st s) as Hs.
    { rewrite Forall_forall in Hvo. by apply Hvo. }
    rewrite (Hsame s Hs).
    assert (forall x, received (deliver (exec.Stderr c) (exec.stderr o) x) s
                      = received x s) as ->.
    { intros x. destruct (exec.Stderr c); [|done].
      by apply received_writes_other. }
    by apply received_writes_once.
Qed.

Lemma Output_trims_and_tees_witness :
  (exists bld c o,
     builders (snd demo_hello) !! fst demo_hello = Some bld /\
     cmds (snd demo_hello) !! cmd bld = Some c /\
     unlaunched c /\
     valid_writer (snd demo_hello) (exec.Stdout c) /\
     valid_writer (snd demo_hello) (exec.Stderr c) /\
     create demo_host (snd demo_hello) c = inr o /\
     exec.status o = 0%Z /\
     exec.stdout o = go "hello" ++ [LF] /\
     exec.Stdout c = Some (io.Plain (io.Buffer 0))) /\
  exists st',
    CmdBuilder.Output demo_host (fst demo_hello) (snd demo_hello)
    = Some ((go "hello", None), st') /\
    received st' (io.Buffer 0) = go "hello" ++ [LF].
Proof.
  split.
  { eexists _, _, _. split; [reflexivity|]. split; [reflexivity|].
    split; [repeat split|]. split; [repeat constructor|].
    split; [repeat constructor|]. split; [reflexivity|].
    split; [reflexivity|]. repeat split. }
  edestruct (Output_trims_and_tees demo_host (fst demo_hello)
               (snd demo_hello)) as (st' & Hout & _ & Hhello & Htee);
    [reflexivity|reflexivity|repeat split|repeat constructor
    |repeat constructor|reflexivity|reflexivity|].
  exists st'. split.
  - rewrite Hout. by rewrite Hhello.
  - destruct (Htee _ eq_refl) as [_ Hrecv].
    rewrite (Hrecv (io.Buffer 0)); [reflexivity|..].
    + by apply list_elem_of_singleton.
    + apply NoDup_singleton.
    + cbn. intros Hin%list_elem_of_singleton. discriminate.
Defined.

(** ** Configuring *)

Lemma arrays_frame_same own st st' :
  arrays st' = arrays st -> arrays_frame own st st'.
Proof. intros Heq a x Hx. rewrite Heq. eauto. Qed.

Lemma run_Env h b vars st bld c :
  builders st !! b = Some bld -> cmds st !! cmd bld = Some c ->
  valid_slice st (exec.Env c) ->
  exists env' st',
    CmdBuilder.Env h b vars st = Some (b, st') /\
    cmds st' = <[cmd bld := exec.set_Env env' c]> (cmds st) /\
    builders st' = builders st /\
    buffers st' = buffers st /\ files st' = files st /\
    elems st' env' = elems st (exec.Env c) ++ vars /\
    valid_slice st' env' /\
    (s_array env' = s_array (exec.Env c)
     \/ length (arrays st) <= s_array env' < length (arrays st')) /\
    length (arrays st) <= length (arrays st') /\
    arrays_frame (s_array (exec.Env c)) st st'.
Proof.
  intros Hb Hc Hv.
  destruct (run_appendEnv h (cmd bld) vars st c Hc Hv)
    as (env' & st' & Hrun & Hrest).
  exists env', st'. split; [|done].
  unfold CmdBuilder.Env.
  by rewrite run_bind, (run_getBuilder _ _ _ Hb), run_bind, Hrun.
Qed.

(** One configuration call returns the builder it was called on, changes
    the command of that builder and nothing else that is allocated, except
    that [Env] may write into the array of the builder's own environment,
    or move that environment to a new array. *)
Lemma run_configure1 h b op st bld c :
  builders st !! b = Some bld -> cmds st !! cmd bld = Some c ->
  valid_slice st (exec.Env c) ->
  exists c' st',
    configure1 h b op st = Some (b, st') /\
    cmds st' = <[cmd bld := c']> (cmds st) /\
    builders st' = builders st /\
    buffers st' = buffers st /\ files st' = files st /\
    valid_slice st' (exec.Env c') /\
    (s_array (exec.Env c') = s_array (exec.Env c)
     \/ length (arrays st) <= s_array (exec.Env c') < length (arrays st')) /\
    length (arrays st) <= length (arrays st') /\
    arrays_frame (s_array (exec.Env c)) st st'.
Proof.
  intros Hb Hc Hv.
  assert (forall upd, exec.Env (upd c) = exec.Env c ->
    exists c' st',
      (getBuilder b ≫= fun bd => modifyCmd (cmd bd) upd ≫= fun _ => mret b) st
      = Some (b, st') /\
      cmds st' = <[cmd bld := c']> (cmds st) /\
      builders st' = builders st /\
      buffers st' = buffers st /\ files st' = files st /\
      valid_slice st' (exec.Env c') /\
      (s_array (exec.Env c') = s_array (exec.Env c)
       \/ length (arrays st) <= s_array (exec.Env c')
          < length (arrays st')) /\
      length (arrays st) <= length (arrays st') /\
      arrays_frame (s_array (exec.Env c)) st st') as Hfield.
  { intros upd Henv. eexists (upd c), _. split.
    - rewrite run_bind, (run_getBuilder _ _ _ Hb).
      rewrite run_bind, (run_modifyCmd _ _ _ _ Hc). reflexivity.
    - cbn. rewrite Henv. split_and!; try done; [by left|].
      by apply arrays_frame_same. }
  destruct op as [dir|w|w|r| |vars]; cbn [configure1].
  - by apply Hfield.
  - by apply Hfield.
  - by apply Hfield.
  - by apply Hfield.
  - unfold CmdBuilder.Interactive.
    eexists _, _. split.
    + rewrite run_bind, (run_getBuilder _ _ _ Hb).
      rewrite run_bind, (run_modifyCmd _ _ _ _ Hc).
      rewrite run_bind.
      erewrite run_modifyCmd by (cbn; by eapply lookup_insert_same).
      rewrite run_bind.
      erewrite run_modifyCmd
        by (cbn; eapply lookup_insert_same; by eapply lookup_insert_same).
      cbn. rewrite !list_insert_insert_eq. reflexivity.
    + cbn. split_and!; try done; try (by left).
      by apply arrays_frame_same.
  - destruct (run_Env h b vars st bld c Hb Hc Hv)
      as (env' & st' & Hrun & Hcmds & Hbs & Hbuf & Hf & Hel & Hv' & Hfresh
          & Hlen & Hframe).
    exists (exec.set_Env env' c), st'. by split_and!.
Qed.

(** A chain of configuration calls on a builder: a slice that has no
    capacity, or lies in another array than the environment of that
    builder, stays as it is, and stays apart from the environment of the
    builder. *)
Lemma run_configure h ops : forall b st bld c,
  builders st !! b = Some bld -> cmds st !! cmd bld = Some c ->
  valid_slice st (exec.Env c) ->
  exists c' st',
    configure h b ops st = Some (b, st') /\
    cmds st' = <[cmd bld := c']> (cmds st) /\
    builders st' = builders st /\
    buffers st' = buffers st /\ files st' = files st /\
    valid_slice st' (exec.Env c') /\
    (forall t, valid_slice st t ->
       s_cap t = 0 \/ s_array t <> s_array (exec.Env c) ->
       valid_slice st' t /\ elems st' t = elems st t /\
       (s_cap t = 0 \/ s_array t <> s_array (exec.Env c'))).
Proof.
  induction ops as [|op ops IH]; intros b st bld c Hb Hc Hv.
  - exists c, st. cbn. split_and!; try done.
    by rewrite list_insert_id.
  - destruct (run_configure1 h b op st bld c Hb Hc Hv)
      as (c1 & st1 & Hrun1 & Hcmds1 & Hbs1 & Hbuf1 & Hf1 & Hv1 & Hfresh1
          & Hlen1 & Hframe1).
    destruct (IH b st1 bld c1) as
      (c' & st' & Hrun & Hcmds & Hbs & Hbuf & Hf & Hv' & Hframe).
    { by rewrite Hbs1. }
    { rewrite Hcmds1. by eapply lookup_insert_same. }
    { done. }
    exists c', st'. split_and!.
    + cbn [configure]. by rewrite run_bind, Hrun1.
    + by rewrite Hcmds, Hcmds1, list_insert_insert_eq.
    + congruence.
    + congruence.
    + congruence.
    + done.
    + intros t Ht Hne.
      destruct (decide (s_cap t = 0)) as [Hcap|Hcap].
      { destruct (valid_slice_nil st t (proj1 Ht) Hcap) as [_ ->].
        destruct (valid_slice_nil st' t (proj1 Ht) Hcap) as [? ->].
        split_and!; [done|done|by left]. }
      destruct Hne as [?|Hne]; [done|].
      destruct (arrays_frame_slice _ _ _ t Hframe1 Ht) as [Ht1 Hel1].
      assert (s_array t <> s_array (exec.Env c1)) as Hne1.
      { destruct (valid_slice_allocated _ _ Ht) as [?|?]; [done|].
        destruct Hfresh1 as [->|?]; [done|lia]. }
      destruct (Hframe t Ht1 (or_intror Hne1)) as (Ht' & Hel' & Hne').
      split_and!; [done| |done]. by rewrite Hel', Hel1.
Qed.

(** C5: [Env] accumulates, in order.  After [Env(vars1...)] and then
    [Env(vars2...)] on a builder, so after [Env] of [A=1] and then [Env] of
    [B=2], the environment of the builder is the one it had, followed by
    [vars1], followed by [vars2]: nothing is dropped or replaced. *)
Theorem Env_accumulates h b st bld c vars1 vars2 :
  builders st !! b = Some bld -> cmds st !! cmd bld = Some c ->
  valid_slice st (exec.Env c) ->
  exists st' sp sp',
    (CmdBuilder.Env h b vars1 ≫= fun b' => CmdBuilder.Env h b' vars2) st
    = Some (b, st') /\
    specification st b = Some sp /\
    specification st' b = Some sp' /\
    sp_Env sp' = sp_Env sp ++ vars1 ++ vars2.
Proof.
  intros Hb Hc Hv.
  destruct (run_Env h b vars1 st bld c Hb Hc Hv)
    as (env1 & st1 & Hrun1 & Hcmds1 & Hbs1 & _ & _ & Hel1 & Hv1 & _).
  destruct (run_Env h b vars2 st1 bld (exec.set_Env env1 c))
    as (env2 & st2 & Hrun2 & Hcmds2 & Hbs2 & _ & _ & Hel2 & Hv2 & _).
  { by rewrite Hbs1. }
  { rewrite Hcmds1. by eapply lookup_insert_same. }
  { done. }
  exists st2, (describe st c),
    (describe st2 (exec.set_Env env2 (exec.set_Env env1 c))).
  split_and!.
  - by rewrite run_bind, Hrun1.
  - unfold specification, command. rewrite Hb. cbn. by rewrite Hc.
  - unfold specification, command. rewrite Hbs2, Hbs1, Hb. cbn.
    rewrite Hcmds2. erewrite lookup_insert_same; [done|].
    rewrite Hcmds1. by eapply lookup_insert_same.
  - change (elems st2 env2 = elems st (exec.Env c) ++ vars1 ++ vars2).
    change (exec.Env (exec.set_Env env1 c)) with env1 in Hel2.
    by rewrite Hel2, Hel1, <- app_assoc.
Qed.

Lemma Env_accumulates_witness :
  (exists bld c,
     builders (snd demo_missing) !! fst demo_missing = Some bld /\
     cmds (snd demo_missing) !! cmd bld = Some c /\
     valid_slice (snd demo_missing) (exec.Env c)) /\
  exists st' sp',
    (CmdBuilder.Env demo_host (fst demo_missing) [go "A=1"]
     ≫= fun b' => CmdBuilder.Env demo_host b' [go "B=2"]) (snd demo_missing)
    = Some (fst demo_missing, st') /\
    specification st' (fst demo_missing) = Some sp' /\
    sp_Env sp' = [go "PATH=/bin"; go "SHELL=/bin/sh"; go "A=1"; go "B=2"].
Proof.
  split.
  { eexists _, _. split; [reflexivity|]. split; [reflexivity|].
    vm_compute. lia. }
  edestruct (Env_accumulates demo_host (fst demo_missing) (snd demo_missing))
    as (st' & sp & sp' & Hrun & Hsp & Hsp' & Henv);
    [reflexivity|reflexivity|vm_compute; lia|].
  exists st', sp'. split; [exact Hrun|]. split; [exact Hsp'|].
  rewrite Henv. injection Hsp as <-. reflexivity.
Defined.

(** ** Builders of one factory *)

Lemma specification_frame st st' b bld c :
  builders st !! b = Some bld -> builders st' = builders st ->
  cmds st !! cmd bld = Some c -> cmds st' !! cmd bld = Some c ->
  elems st' (exec.Env c) = elems st (exec.Env c) ->
  specification st' b = specification st b.
Proof.
  intros Hb Hbs Hc Hc' Hel. unfold specification, command.
  rewrite Hbs, Hb. cbn. rewrite Hc, Hc'. cbn. unfold describe.
  by rewrite Hel.
Qed.

(** C10: [CmdFactory.Cmd] only reads the options of the factory: what was
    allocated before the call, the factory's environment list included, is
    unchanged after it.  Every builder it returns has an environment list
    of its own, in an array allocated by the call, that holds the
    environment of the calling process followed by the factory's entries.
    So whatever chain of configuration calls is made on one of two
    builders of a factory, the specification of the other builder and the
    environment list of the factory stay as they were.  The environment of
    the factory is a well-formed slice: the nil slice of a factory made
    without one, in whatever store, or a window on an allocated array. *)
Theorem factory_builders_independent h f st name1 args1 name2 args2 :
  valid_slice st (Env (Options f)) ->
  exists b1 st1 b2 st2 c1 c2,
    CmdFactory.Cmd h f name1 args1 st = Some (b1, st1) /\
    CmdFactory.Cmd h f name2 args2 st1 = Some (b2, st2) /\
    preserved st st1 /\ preserved st1 st2 /\
    elems st2 (Env (Options f)) = elems st (Env (Options f)) /\
    command st2 b1 = Some c1 /\ command st2 b2 = Some c2 /\
    length (arrays st) <= s_array (exec.Env c1) /\
    length (arrays st1) <= s_array (exec.Env c2) /\
    elems st2 (exec.Env c1) = environment h ++ elems st (Env (Options f)) /\
    elems st2 (exec.Env c2) = environment h ++ elems st (Env (Options f)) /\
    (forall ops, exists st3,
       configure h b1 ops st2 = Some (b1, st3) /\
       specification st3 b2 = specification st2 b2 /\
       elems st3 (Env (Options f)) = elems st (Env (Options f)) /\
       buffers st3 = buffers st /\ files st3 = files st) /\
    (forall ops, exists st3,
       configure h b2 ops st2 = Some (b2, st3) /\
       specification st3 b1 = specification st2 b1 /\
       elems st3 (Env (Options f)) = elems st (Env (Options f)) /\
       buffers st3 = buffers st /\ files st3 = files st).
Proof.
  intros Hv. set (fenv := Env (Options f)) in *.
  destruct (run_factory_Cmd h f name1 args1 st Hv)
    as (env1 & st1 & Hrun1 & Hbs1 & Hcs1 & [new1 Ha1] & Hbuf1 & Hf1 & Hel1
        & Hv1 & Hfresh1).
  destruct (valid_slice_grow st st1 fenv new1 Ha1 Hv) as [Hvf1 Helf1].
  destruct (run_factory_Cmd h f name2 args2 st1 Hvf1)
    as (env2 & st2 & Hrun2 & Hbs2 & Hcs2 & [new2 Ha2] & Hbuf2 & Hf2 & Hel2
        & Hv2 & Hfresh2).
  destruct (valid_slice_grow st1 st2 fenv new2 Ha2 Hvf1) as [Hvf2 Helf2].
  destruct (valid_slice_grow st1 st2 env1 new2 Ha2 Hv1) as [Hv12 Hel12].
  fold fenv in Hel1, Hel2.
  set (c1 := stamp (Options f) _ env1) in Hcs1.
  set (c2 := stamp (Options f) _ env2) in Hcs2.
  set (bld1 := {| cmd := length (cmds st) |}) in *.
  set (bld2 := {| cmd := length (cmds st1) |}) in *.
  assert (builders st2 !! length (builders st) = Some bld1) as Hb1.
  { rewrite Hbs2, Hbs1. apply lookup_app_l_Some, lookup_snoc. }
  assert (builders st2 !! length (builders st1) = Some bld2) as Hb2.
  { rewrite Hbs2. apply lookup_snoc. }
  assert (cmds st2 !! cmd bld1 = Some c1) as Hc1.
  { rewrite Hcs2, Hcs1. apply lookup_app_l_Some, lookup_snoc. }
  assert (cmds st2 !! cmd bld2 = Some c2) as Hc2.
  { rewrite Hcs2. apply lookup_snoc. }
  assert (cmd bld1 <> cmd bld2) as Hp.
  { cbn. rewrite Hcs1, length_app. cbn. lia. }
  pose proof (valid_slice_allocated _ _ Hv) as Hlt0.
  assert (length (arrays st) <= length (arrays st1)) as Hgrow1.
  { rewrite Ha1, length_app. lia. }
  exists (length (builders st)), st1, (length (builders st1)), st2, c1, c2.
  split_and!; try done.
  - unfold preserved. split_and!; eauto.
  - unfold preserved. split_and!; eauto.
  - by rewrite Helf2, Helf1.
  - unfold command. rewrite Hb1. exact Hc1.
  - unfold command. rewrite Hb2. exact Hc2.
  - exact (proj1 Hfresh1).
  - exact (proj1 Hfresh2).
  - change (elems st2 env1 = environment h ++ elems st fenv).
    by rewrite Hel12, Hel1.
  - change (elems st2 env2 = environment h ++ elems st fenv).
    by rewrite Hel2, Helf1.
  - intros ops.
    destruct (run_configure h ops (length (builders st)) st2 bld1 c1
                Hb1 Hc1 Hv12)
      as (c' & st3 & Hrun & Hcs & Hbs & Hbuf & Hf & Hv' & Hframe).
    destruct (Hframe env2 Hv2) as (_ & Hsame2 & _).
    { right. change (s_array env2 <> s_array env1). lia. }
    destruct (Hframe fenv Hvf2) as (_ & Hsamef & _).
    { destruct Hlt0 as [?|?]; [by left|right].
      change (s_array fenv <> s_array env1). lia. }
    exists st3. split_and!; try done; try congruence.
    apply (specification_frame st2 st3 _ bld2 c2 Hb2 Hbs Hc2);
      [|exact Hsame2].
    rewrite Hcs. by rewrite list_lookup_insert_ne.
  - intros ops.
    destruct (run_configure h ops (length (builders st1)) st2 bld2 c2
                Hb2 Hc2 Hv2)
      as (c' & st3 & Hrun & Hcs & Hbs & Hbuf & Hf & Hv' & Hframe).
    destruct (Hframe env1 Hv12) as (_ & Hsame1 & _).
    { right. change (s_array env1 <> s_array env2). lia. }
    destruct (Hframe fenv Hvf2) as (_ & Hsamef & _).
    { destruct Hlt0 as [?|?]; [by left|right].
      change (s_array fenv <> s_array env2). lia. }
    exists st3. split_and!; try done; try congruence.
    apply (specification_frame st2 st3 _ bld1 c1 Hb1 Hbs Hc1);
      [|exact Hsame1].
    rewrite Hcs. by rewrite list_lookup_insert_ne.
Qed.

(** On a store in which nothing is allocated yet, two builders of the
    factory of the README, whose environment is the nil slice; and on the
    example store, two builders of the example factory. *)
Lemma factory_builders_independent_witness :
  (valid_slice empty_store (Env (Options readme_factory)) /\
   exists b1 st1 b2 st2,
     CmdFactory.Cmd demo_host readme_factory (go "terraform") [go "init"]
       empty_store
     = Some (b1, st1) /\
     CmdFactory.Cmd demo_host readme_factory (go "terraform") [go "plan"] st1
     = Some (b2, st2) /\
     exists st3,
       configure demo_host b1
         [AddEnv [go "TF_LOG=debug"]; SetDir (go "/"); SetStdout None] st2
       = Some (b1, st3) /\
       specification st3 b2 = specification st2 b2 /\
       elems st3 (Env (Options readme_factory)) = []) /\
  (valid_slice demo_store (Env (Options demo_factory)) /\
   exists b1 st1 b2 st2,
     CmdFactory.Cmd demo_host demo_factory (go "git") [go "status"] demo_store
     = Some (b1, st1) /\
     CmdFactory.Cmd demo_host demo_factory (go "ls") [] st1 = Some (b2, st2) /\
     exists st3,
       configure demo_host b1
         [AddEnv [go "X=1"]; SetDir (go "/"); SetInteractive;
          AddEnv [go "Y=2"; go "Z=3"]] st2
       = Some (b1, st3) /\
       specification st3 b2 = specification st2 b2 /\
       elems st3 (Env (Options demo_factory))
       = [go "LANG=C"; go "TERM=dumb"]).
Proof.
  split.
  - split; [vm_compute; lia|].
    destruct (factory_builders_independent demo_host readme_factory
                empty_store (go "terraform") [go "init"]
                (go "terraform") [go "plan"])
      as (b1 & st1 & b2 & st2 & c1 & c2 & H1 & H2 & _ & _ & _ & _ & _ & _ & _
          & _ & _ & Hconf & _); [vm_compute; lia|].
    exists b1, st1, b2, st2. split; [exact H1|]. split; [exact H2|].
    destruct (Hconf [AddEnv [go "TF_LOG=debug"]; SetDir (go "/");
                     SetStdout None])
      as (st3 & Hrun & Hspec & Hel & _).
    exists st3. split; [exact Hrun|]. split; [exact Hspec|]. exact Hel.
  - split; [vm_compute; lia|].
    destruct (factory_builders_independent demo_host demo_factory demo_store
                (go "git") [go "status"] (go "ls") [])
      as (b1 & st1 & b2 & st2 & c1 & c2 & H1 & H2 & _ & _ & _ & _ & _ & _ & _
          & _ & _ & Hconf & _); [vm_compute; lia|].
    exists b1, st1, b2, st2. split; [exact H1|]. split; [exact H2|].
    destruct (Hconf [AddEnv [go "X=1"]; SetDir (go "/"); SetInteractive;
                     AddEnv [go "Y=2"; go "Z=3"]])
      as (st3 & Hrun & Hspec & Hel & _).
    exists st3. split; [exact Hrun|]. split; [exact Hspec|]. exact Hel.
Defined.

(** * Further properties *)

(** ** Splitting and replacing *)

Section lines.
Local Open Scope Z_scope.

Lemma count_byte_cons c x s :
  count_byte c (x :: s)
  = if Ascii.eqb x c then S (count_byte c s) else count_byte c s.
Proof.
  unfold count_byte. rewrite filter_cons.
  destruct (Ascii.eqb_spec x c); by case_decide.
Qed.

Lemma count_byte_0 c s : count_byte c s = 0%nat <-> c ∉ s.
Proof.
  induction s as [|x s IH]; [by split; [intros _; apply not_elem_of_nil|]|].
  rewrite count_byte_cons, not_elem_of_cons.
  destruct (Ascii.eqb_spec x c) as [->|Hne]; [split; [done|tauto]|].
  rewrite IH. split; [by split|tauto].
Qed.

Lemma count_byte_app c s t :
  count_byte c (s ++ t) = (count_byte c s + count_byte c t)%nat.
Proof. unfold count_byte. by rewrite filter_app, length_app. Qed.

Lemma HasPrefix_nil s : strings.HasPrefix s [] = true.
Proof. by destruct s. Qed.

(** [Index] for a pattern of one byte: the place of its first
    occurrence. *)
Lemma Index_byte c s :
  ((c ∉ s) /\ strings.Index s [c] = -1)
  \/ (exists a rest,
        s = a ++ c :: rest /\ (c ∉ a) /\ strings.Index s [c] = len a).
Proof.
  induction s as [|x s IH].
  { left. split; [apply not_elem_of_nil|done]. }
  cbn [strings.Index strings.HasPrefix]. rewrite HasPrefix_nil, andb_true_r.
  destruct (Ascii.eqb_spec c x) as [<-|Hne].
  { right. exists [], s. split_and!; [done|apply not_elem_of_nil|done]. }
  destruct IH as [[Hnot ->]|(a & rest & -> & Hnot & ->)].
  - left. split; [|done]. rewrite not_elem_of_cons. by split.
  - right. exists (x :: a), rest. split_and!; [done| |].
    + rewrite not_elem_of_cons. by split.
    + pose proof (len_nonneg a). rewrite len_cons.
      by destruct (Z.ltb_spec (len a) 0); [lia|].
Qed.

Lemma from_middle (a : gostring) c rest :
  from (a ++ c :: rest) (len a + 1) = rest.
Proof.
  unfold from, len. replace (Z.to_nat (Z.of_nat (length a) + 1))
    with (length (a ++ [c])) by (rewrite length_app; cbn; lia).
  by rewrite (cons_middle c a rest), app_assoc, drop_app_length.
Qed.

Lemma upto_middle (a : gostring) rest : upto (a ++ rest) (len a) = a.
Proof. unfold upto, len. rewrite Nat2Z.id. apply take_app_length. Qed.

Lemma countLoop_byte c fuel : forall s n,
  (length s < fuel)%nat ->
  strings.countLoop fuel s [c] n = n + Z.of_nat (count_byte c s).
Proof.
  induction fuel as [|fuel IH]; intros s n Hfuel; [lia|].
  cbn [strings.countLoop].
  destruct (Index_byte c s) as [[Hnot ->]|(a & rest & -> & Hnot & ->)].
  - apply count_byte_0 in Hnot. rewrite Hnot. cbn. lia.
  - pose proof (len_nonneg a).
    destruct (Z.eqb_spec (len a) (-1)); [lia|].
    change (len [c]) with 1. rewrite from_middle, IH.
    + rewrite count_byte_app, count_byte_cons, Ascii.eqb_refl.
      apply count_byte_0 in Hnot. rewrite Hnot. lia.
    + rewrite length_app in Hfuel. cbn in Hfuel. lia.
Qed.

Lemma Count_byte c s : strings.Count s [c] = Z.of_nat (count_byte c s).
Proof.
  unfold strings.Count. change (len [c] =? 0) with false. cbv iota.
  rewrite countLoop_byte by lia. lia.
Qed.

Lemma count_byte_le c s : (count_byte c s <= length s)%nat.
Proof. unfold count_byte. apply length_filter. Qed.

Lemma joined_cons sep l ls :
  joined sep (l :: ls) = l ++ flat_map (fun x => sep ++ x) ls.
Proof. reflexivity. Qed.

Lemma joined_cons_cons sep l l' ls :
  joined sep (l :: l' :: ls) = l ++ sep ++ joined sep (l' :: ls).
Proof. cbn. by rewrite <- app_assoc. Qed.

(** The loop of [genSplit] on a separator of one byte, run as many times as
    the separator occurs. *)
Lemma genSplitLoop_byte c rounds : forall s,
  count_byte c s = rounds ->
  exists l ls,
    strings.genSplitLoop rounds s [c] 0 = l :: ls /\
    joined [c] (l :: ls) = s /\ Forall (fun l => c ∉ l) (l :: ls) /\
    length ls = rounds.
Proof.
  induction rounds as [|rounds IH]; intros s Hcount.
  { exists s, []. cbn. rewrite app_nil_r. split_and!; try done.
    constructor; [by apply count_byte_0|constructor]. }
  cbn [strings.genSplitLoop].
  destruct (Index_byte c s) as [[Hnot _]|(a & rest & -> & Hnot & ->)].
  { apply count_byte_0 in Hnot. lia. }
  pose proof (len_nonneg a). destruct (Z.ltb_spec (len a) 0); [lia|].
  change (len [c]) with 1. rewrite Z.add_0_r, upto_middle, from_middle.
  rewrite count_byte_app, count_byte_cons, Ascii.eqb_refl in Hcount.
  pose proof (proj2 (count_byte_0 c a) Hnot) as Ha.
  destruct (IH rest ltac:(lia)) as (l & ls & -> & Hj & Hall & Hlen).
  exists a, (l :: ls). split_and!; [done| | |cbn; lia].
  - by rewrite joined_cons_cons, Hj.
  - by constructor.
Qed.

(** [Split] on one byte: the strings between its occurrences. *)
Lemma Split_byte c s :
  exists l ls,
    strings.Split s [c] = l :: ls /\
    joined [c] (l :: ls) = s /\ Forall (fun l => c ∉ l) (l :: ls) /\
    length ls = count_byte c s.
Proof.
  unfold strings.Split, strings.genSplit.
  change (-1 =? 0) with false. change (len [c] =? 0) with false.
  change (-1 <? 0) with true. cbv iota. rewrite Count_byte.
  pose proof (count_byte_le c s) as Hle.
  destruct (Z.ltb_spec (len s + 1) (Z.of_nat (count_byte c s) + 1));
    [unfold len in *; lia|].
  replace (Z.to_nat (Z.of_nat (count_byte c s) + 1 - 1))
    with (count_byte c s) by lia.
  by apply genSplitLoop_byte.
Qed.

(** *** Carriage returns *)

Lemma list_ind2 {A} (P : list A -> Prop) :
  P [] -> (forall c, P [c]) ->
  (forall c d s, P s -> P (d :: s) -> P (c :: d :: s)) ->
  forall s, P s.
Proof.
  intros Hnil Hone Htwo s.
  enough (P s /\ forall c, P (c :: s)) as [H _] by exact H.
  induction s as [|d s [IH1 IH2]]; [by split|].
  split; [apply IH2|]. intros c. by apply Htwo.
Qed.

Lemma crlf_to_lf_pair s :
  crlf_to_lf (CR :: LF :: s) = LF :: crlf_to_lf s.
Proof. reflexivity. Qed.

Lemma crlf_to_lf_other c s :
  ~ (c = CR /\ exists s', s = LF :: s') ->
  crlf_to_lf (c :: s) = c :: crlf_to_lf s.
Proof.
  intros Hnot. destruct s as [|d s]; [done|]. cbn [crlf_to_lf].
  destruct (Ascii.eqb_spec c CR) as [->|]; [|done].
  destruct (Ascii.eqb_spec d LF) as [->|]; [|done].
  destruct Hnot. eauto.
Qed.

Lemma count_crlf_other c s :
  ~ (c = CR /\ exists s', s = LF :: s') ->
  count_crlf (c :: s) = count_crlf s.
Proof.
  intros Hnot. destruct s as [|d s]; [done|]. cbn [count_crlf].
  destruct (Ascii.eqb_spec c CR) as [->|]; [|done].
  destruct (Ascii.eqb_spec d LF) as [->|]; [|done].
  destruct Hnot. eauto.
Qed.

Lemma HasPrefix_crlf c s :
  strings.HasPrefix (c :: s) [CR; LF] = true
  <-> c = CR /\ exists s', s = LF :: s'.
Proof.
  cbn [strings.HasPrefix]. destruct s as [|d s].
  { rewrite andb_false_r. split; [done|]. by intros [_ [? ?]]. }
  cbn [strings.HasPrefix].
  rewrite HasPrefix_nil, andb_true_r, andb_true_iff.
  split.
  - intros [->%Ascii.eqb_eq ->%Ascii.eqb_eq]. eauto.
  - intros [-> [s' [= -> ->]]]. by rewrite !Ascii.eqb_refl.
Qed.

(** [Index] for the pattern of a carriage return and a line feed: where
    the first pair is, and what precedes it holds none. *)
Lemma Index_crlf s :
  (strings.Index s [CR; LF] = -1 /\ count_crlf s = 0%nat /\ crlf_to_lf s = s)
  \/ (exists a rest,
        s = a ++ CR :: LF :: rest /\ strings.Index s [CR; LF] = len a /\
        count_crlf s = S (count_crlf rest) /\
        crlf_to_lf s = a ++ LF :: crlf_to_lf rest).
Proof.
  induction s as [|c s IH]; [by left|].
  cbn [strings.Index].
  destruct (strings.HasPrefix (c :: s) [CR; LF]) eqn:Hp.
  { apply HasPrefix_crlf in Hp as [-> [s' ->]].
    right. by exists [], s'. }
  assert (~ (c = CR /\ exists s', s = LF :: s')) as Hnot.
  { intros H%HasPrefix_crlf. congruence. }
  rewrite crlf_to_lf_other, count_crlf_other by done.
  destruct IH as [(-> & Hc & Hs)|(a & rest & -> & -> & Hc & Hs)].
  - left. by rewrite Hs.
  - right. exists (c :: a), rest. pose proof (len_nonneg a).
    destruct (Z.ltb_spec (len a) 0); [lia|].
    rewrite len_cons, Hs. by split_and!.
Qed.

Lemma from_pair (a : gostring) c d rest :
  from (a ++ c :: d :: rest) (len a + 2) = rest.
Proof.
  unfold from, len. replace (Z.to_nat (Z.of_nat (length a) + 2))
    with (length (a ++ [c; d])) by (rewrite length_app; cbn; lia).
  change (c :: d :: rest) with ([c; d] ++ rest).
  by rewrite app_assoc, drop_app_length.
Qed.

Lemma countLoop_crlf fuel : forall s n,
  (length s < fuel)%nat ->
  strings.countLoop fuel s [CR; LF] n = n + Z.of_nat (count_crlf s).
Proof.
  induction fuel as [|fuel IH]; intros s n Hfuel; [lia|].
  cbn [strings.countLoop].
  destruct (Index_crlf s) as [(-> & -> & _)|(a & rest & -> & -> & -> & _)].
  - cbn. lia.
  - pose proof (len_nonneg a).
    destruct (Z.eqb_spec (len a) (-1)); [lia|].
    change (len [CR; LF]) with 2. rewrite from_pair, IH; [lia|].
    rewrite length_app in Hfuel. cbn in Hfuel. lia.
Qed.

Lemma replaceLoop_crlf rounds : forall s start i b,
  0 <= start <= len s -> count_crlf (from s start) = rounds ->
  strings.replaceLoop rounds s [CR; LF] [LF] i start b
  = b ++ crlf_to_lf (from s start).
Proof.
  induction rounds as [|rounds IH]; intros s start i b Hstart Hcount.
  { cbn [strings.replaceLoop]. f_equal.
    destruct (Index_crlf (from s start))
      as [(_ & _ & ->)|(a & rest & _ & _ & Hc & _)]; [done|lia]. }
  cbn [strings.replaceLoop]. change (len [CR; LF]) with 2.
  change (2 =? 0) with false. cbv iota.
  destruct (Index_crlf (from s start))
    as [(_ & Hc & _)|(a & rest & Hfrom & -> & Hc & ->)]; [lia|].
  pose proof (len_nonneg a).
  assert (len (from s start) = len s - start) as Hlen
    by (apply len_from; lia).
  rewrite Hfrom, len_app, !len_cons in Hlen. pose proof (len_nonneg rest).
  assert (from s (start + len a + 2) = rest) as Hrest.
  { replace (start + len a + 2) with (start + (len a + 2)) by lia.
    rewrite from_from, Hfrom by lia. apply from_pair. }
  rewrite IH; [|lia|rewrite Hrest; lia].
  rewrite Hrest, <- !app_assoc. do 2 f_equal.
  unfold sub. rewrite Hfrom.
  replace (start + len a - start) with (len a) by lia.
  by rewrite upto_middle.
Qed.

(** [ReplaceAll] of carriage return and line feed by line feed. *)
Lemma ReplaceAll_crlf s :
  strings.ReplaceAll s [CR; LF] [LF] = crlf_to_lf s.
Proof.
  unfold strings.ReplaceAll, strings.Replace.
  change (strings.gostring_eqb [CR; LF] [LF]) with false.
  change (-1 =? 0) with false. cbn [orb]. cbv iota.
  unfold strings.Count. change (len [CR; LF] =? 0) with false. cbv iota.
  rewrite countLoop_crlf by lia. rewrite Z.add_0_l.
  destruct (Z.eqb_spec (Z.of_nat (count_crlf s)) 0) as [H0|Hpos].
  { destruct (Index_crlf s) as [(_ & _ & ->)|(a & rest & _ & _ & Hc & _)];
      [done|lia]. }
  change (-1 <? 0) with true. cbn [orb]. cbv iota.
  rewrite Nat2Z.id, replaceLoop_crlf; [done|pose proof (len_nonneg s); lia|].
  by rewrite from_0.
Qed.

End lines.

(** ** The two ends of a text *)

Section ends.
Local Open Scope Z_scope.

Lemma crlf_to_lf_cons2 c d s :
  crlf_to_lf (c :: d :: s)
  = if Ascii.eqb c CR && Ascii.eqb d LF then LF :: crlf_to_lf s
    else c :: crlf_to_lf (d :: s).
Proof. reflexivity. Qed.

Lemma count_crlf_cons2 c d s :
  count_crlf (c :: d :: s)
  = if Ascii.eqb c CR && Ascii.eqb d LF then S (count_crlf s)
    else count_crlf (d :: s).
Proof. reflexivity. Qed.

Lemma crlf_to_lf_no_CR s : CR ∉ s -> crlf_to_lf s = s.
Proof.
  induction s as [|c s IH]; [done|]. rewrite not_elem_of_cons.
  intros [Hc Hs]. rewrite crlf_to_lf_other; [by rewrite IH|].
  intros [-> _]. done.
Qed.

(** [crlf_to_lf] removes carriage returns only. *)
Lemma count_LF_crlf_to_lf s :
  count_byte LF (crlf_to_lf s) = count_byte LF s.
Proof.
  induction s as [| |c d s IH1 IH2] using list_ind2; [done|done|].
  rewrite crlf_to_lf_cons2.
  destruct (Ascii.eqb_spec c CR) as [->|Hc]; cbn [andb].
  - destruct (Ascii.eqb_spec d LF) as [->|Hd].
    + rewrite !count_byte_cons. cbn. by rewrite IH1.
    + by rewrite !(count_byte_cons _ CR), IH2.
  - by rewrite !(count_byte_cons _ c), IH2.
Qed.

Lemma length_crlf_to_lf s :
  (length (crlf_to_lf s) + count_crlf s = length s)%nat.
Proof.
  induction s as [| |c d s IH1 IH2] using list_ind2; [done|done|].
  rewrite crlf_to_lf_cons2, count_crlf_cons2.
  destruct (Ascii.eqb c CR && Ascii.eqb d LF); cbn [length] in *; lia.
Qed.

(** A first byte that is not a line feed was the first byte. *)
Lemma crlf_to_lf_head t c u :
  crlf_to_lf t = c :: u -> c <> LF ->
  exists t', t = c :: t' /\ crlf_to_lf t' = u.
Proof.
  destruct t as [|x [|d t]]; [done|intros [= <- <-]; by exists []|].
  rewrite crlf_to_lf_cons2. destruct (Ascii.eqb x CR && Ascii.eqb d LF).
  - by intros [= <- _].
  - intros [= <- <-] _. by eexists.
Qed.

Lemma crlf_to_lf_prefix e : forall t u,
  LF ∉ e -> crlf_to_lf t = e ++ u ->
  exists t', t = e ++ t' /\ crlf_to_lf t' = u.
Proof.
  induction e as [|c e IH]; intros t u Hno Heq; [by exists t|].
  apply not_elem_of_cons in Hno as [Hc He].
  destruct (crlf_to_lf_head t c (e ++ u) Heq) as (t1 & -> & H1); [done|].
  destruct (IH t1 u He H1) as (t' & -> & H'). by exists t'.
Qed.

Lemma crlf_to_lf_snoc t b :
  b <> LF -> crlf_to_lf (t ++ [b]) = crlf_to_lf t ++ [b].
Proof.
  intros Hb. induction t as [| |c d s IH1 IH2] using list_ind2.
  - done.
  - cbn. destruct (Ascii.eqb_spec b LF); [done|]. by rewrite andb_false_r.
  - cbn [app] in *. rewrite !crlf_to_lf_cons2.
    destruct (Ascii.eqb c CR && Ascii.eqb d LF); cbn [app]; congruence.
Qed.

Lemma crlf_to_lf_snoc_LF t :
  exists u, crlf_to_lf (t ++ [LF]) = u ++ [LF].
Proof.
  induction t as [| |c d s [u1 IH1] [u2 IH2]] using list_ind2.
  - by exists [].
  - cbn. destruct (Ascii.eqb c CR); [by exists []|by exists [c]].
  - cbn [app] in *. rewrite crlf_to_lf_cons2.
    destruct (Ascii.eqb c CR && Ascii.eqb d LF).
    + exists (LF :: u1). by rewrite IH1.
    + exists (c :: u2). by rewrite IH2.
Qed.

Lemma crlf_to_lf_last t u b :
  crlf_to_lf t = u ++ [b] ->
  exists t', t = t' ++ [b] /\ (b <> LF -> crlf_to_lf t' = u).
Proof.
  intros Heq. destruct (decide (t = [])) as [->|Hne].
  { by destruct u. }
  destruct (exists_last Hne) as (t' & x & ->). exists t'.
  destruct (decide (x = LF)) as [->|Hx].
  - destruct (crlf_to_lf_snoc_LF t') as [u' Hu]. rewrite Hu in Heq.
    apply app_inj_tail in Heq as [_ <-]. by split.
  - rewrite crlf_to_lf_snoc in Heq by done.
    apply app_inj_tail in Heq as [<- <-]. by split.
Qed.

Lemma crlf_to_lf_suffix e : forall t u,
  LF ∉ e -> crlf_to_lf t = u ++ e ->
  exists t', t = t' ++ e /\ crlf_to_lf t' = u.
Proof.
  induction e as [|b e IH] using rev_ind; intros t u Hno Heq.
  { exists t. by rewrite app_nil_r in *. }
  apply not_elem_of_app in Hno as [He Hb].
  apply not_elem_of_cons in Hb as [Hb _].
  rewrite app_assoc in Heq.
  destruct (crlf_to_lf_last t _ b Heq) as (t1 & -> & H1).
  destruct (IH t1 u He (H1 ltac:(congruence))) as (t' & -> & H').
  exists t'. by rewrite app_assoc.
Qed.

(** No encoding of a white space code point but the line feed's holds a
    line feed. *)
Lemma space_no_LF r :
  unicode.IsSpace r = true -> r <> 10 -> LF ∉ encode r.
Proof.
  intros H Hr. each_space H; try done.
  all: rewrite ?not_elem_of_cons; split_and!; try discriminate.
  all: apply not_elem_of_nil.
Qed.

Lemma starts_crlf_to_lf t :
  starts_with_space (crlf_to_lf t) -> starts_with_space t.
Proof.
  intros (r & rest & Hr & Heq). destruct (decide (r = 10)) as [->|Hne].
  - change (encode 10) with [LF] in Heq.
    destruct t as [|x [|d t]]; [done| |].
    + injection Heq as -> _. by exists 10, [].
    + rewrite crlf_to_lf_cons2 in Heq.
      destruct (Ascii.eqb_spec x CR) as [->|]; cbn [andb] in Heq.
      * by exists 13, (d :: t).
      * injection Heq as -> _. by exists 10, (d :: t).
  - destruct (crlf_to_lf_prefix (encode r) t rest) as (t' & -> & _);
      [by apply space_no_LF|done|].
    by exists r, t'.
Qed.

Lemma ends_crlf_to_lf t :
  ends_with_space (crlf_to_lf t) -> ends_with_space t.
Proof.
  intros (r & init & Hr & Heq). destruct (decide (r = 10)) as [->|Hne].
  - change (encode 10) with [LF] in Heq.
    destruct (crlf_to_lf_last t init LF Heq) as (t' & -> & _).
    by exists 10, t'.
  - destruct (crlf_to_lf_suffix (encode r) t init) as (t' & -> & _);
      [by apply space_no_LF|done|].
    by exists r, t'.
Qed.

(** *** The trimmed text is unique *)

Lemma encode_space_inj r r' x x' :
  unicode.IsSpace r = true -> unicode.IsSpace r' = true ->
  encode r ++ x = encode r' ++ x' -> r = r' /\ x = x'.
Proof.
  intros Hr Hr' Heq.
  pose proof (decode_space r x Hr) as Hd.
  rewrite Heq, (decode_space r' x' Hr') in Hd. injection Hd as -> _.
  split; [done|]. by apply app_inv_head in Heq.
Qed.

Lemma whitespace_lead p : forall p' x x',
  whitespace p -> whitespace p' -> p ++ x = p' ++ x' ->
  ~ starts_with_space x -> ~ starts_with_space x' -> p = p' /\ x = x'.
Proof.
  intros p' x x' Hp. revert p'.
  induction Hp as [|r s Hr Hs IH]; intros p' Hp' Heq Hx Hx'.
  - destruct Hp' as [|r' s' Hr' Hs']; [done|].
    destruct Hx. exists r', (s' ++ x'). rewrite app_nil_l in Heq.
    by rewrite Heq, <- app_assoc.
  - destruct Hp' as [|r' s' Hr' Hs'].
    { destruct Hx'. exists r, (s ++ x). rewrite app_nil_l in Heq.
      by rewrite <- Heq, <- app_assoc. }
    rewrite <- !app_assoc in Heq.
    destruct (encode_space_inj r r' _ _ Hr Hr' Heq) as [-> Heq'].
    destruct (IH s' Hs' Heq' Hx Hx') as [-> ->]. done.
Qed.

Lemma whitespace_rev_ind (P : gostring -> Prop) :
  P [] ->
  (forall q r, unicode.IsSpace r = true -> whitespace q -> P q ->
               P (q ++ encode r)) ->
  forall q, whitespace q -> P q.
Proof.
  intros Hnil Hstep q Hq.
  enough (forall p, whitespace p -> P p -> P (p ++ q)) as H
    by exact (H [] whitespace_nil Hnil).
  induction Hq as [|r s Hr Hs IH]; intros p Hp HP.
  - by rewrite app_nil_r.
  - rewrite app_assoc. apply IH.
    + apply whitespace_app; [done|by apply whitespace_encode].
    + by apply Hstep.
Qed.

Lemma whitespace_rev_cases q :
  whitespace q ->
  q = [] \/ exists q0 r,
              unicode.IsSpace r = true /\ whitespace q0 /\
              q = q0 ++ encode r.
Proof.
  intros Hq. induction Hq as [|q r Hr Hq _] using whitespace_rev_ind.
  - by left.
  - right. by exists q, r.
Qed.

Lemma encode_space_inj_r r r' x x' :
  unicode.IsSpace r = true -> unicode.IsSpace r' = true ->
  x ++ encode r = x' ++ encode r' -> r = r' /\ x = x'.
Proof.
  intros Hr Hr' Heq.
  pose proof (decodeLast_space x r Hr) as Hd.
  rewrite Heq, (decodeLast_space x' r' Hr') in Hd. injection Hd as -> _.
  split; [done|]. by apply app_inv_tail in Heq.
Qed.

Lemma whitespace_trail q : forall q' x x',
  whitespace q -> whitespace q' -> x ++ q = x' ++ q' ->
  ~ ends_with_space x -> ~ ends_with_space x' -> x = x' /\ q = q'.
Proof.
  intros q' x x' Hq. revert q'.
  induction Hq as [|q r Hr Hq IH] using whitespace_rev_ind;
    intros q' Hq' Heq Hx Hx'.
  - destruct (whitespace_rev_cases q' Hq')
      as [->|(q0 & r' & Hr' & _ & ->)]; [by rewrite !app_nil_r in Heq|].
    destruct Hx. exists r', (x' ++ q0).
    by rewrite app_nil_r, app_assoc in Heq.
  - destruct (whitespace_rev_cases q' Hq')
      as [->|(q0 & r' & Hr' & Hq0 & ->)].
    { destruct Hx'. exists r, (x ++ q).
      by rewrite app_nil_r, app_assoc in Heq. }
    rewrite !app_assoc in Heq.
    destruct (encode_space_inj_r r r' _ _ Hr Hr' Heq) as [-> Heq'].
    destruct (IH q0 Hq0 Heq' Hx Hx') as [-> ->]. done.
Qed.

(** The bytes of an encoding after its first are continuation bytes. *)
Lemma space_tail_cont r t c e :
  unicode.IsSpace r = true -> encode r = t ++ c :: e -> t <> [] ->
  cont (byteZ c) = true.
Proof.
  intros H. each_space H.
  all: destruct t as [|x [|y [|z t]]]; intros Heq Ht; try done.
  all: try (injection Heq as <- <- <-); try (injection Heq as <- <-);
       try reflexivity.
  all: try (by injection Heq as _ Heq); try (by destruct t).
  all: try (injection Heq as _ _ Heq; by destruct t).
  all: try (injection Heq as _ _ _ Heq; by destruct t).
Qed.

Lemma starts_with_space_app t post :
  t <> [] -> ~ starts_with_space t -> whitespace post ->
  ~ starts_with_space (t ++ post).
Proof.
  intros Ht Hns Hpost (r & rest & Hr & Heq).
  apply app_eq_inv in Heq as [(k & -> & _)|(k & He & Hp)].
  { destruct Hns. by exists r, k. }
  destruct k as [|c k].
  { rewrite app_nil_r in He. destruct Hns. exists r, [].
    by rewrite app_nil_r. }
  pose proof (space_tail_cont r t c k Hr He Ht) as Hcont.
  cbn in Hp. by rewrite (whitespace_not_cont post c (k ++ rest) Hpost Hp)
    in Hcont.
Qed.

Lemma trimmed_nil s t : whitespace s -> trimmed s t -> t = [].
Proof.
  intros Hs (pre & post & Heq & Hpre & Hpost & Hns & Hne).
  destruct (decide (t = [])) as [->|Ht]; [done|].
  destruct (whitespace_lead s pre [] (t ++ post) Hs Hpre) as [_ Hnil].
  - by rewrite app_nil_r.
  - apply starts_with_space_nil.
  - by apply starts_with_space_app.
  - symmetry in Hnil. by apply app_eq_nil in Hnil as [-> _].
Qed.

(** A text has one trimmed form. *)
Lemma trimmed_unique s t t' : trimmed s t -> trimmed s t' -> t = t'.
Proof.
  intros Ht Ht'.
  destruct (decide (t = [])) as [->|Hne].
  { destruct Ht as (pre & post & -> & Hpre & Hpost & _). symmetry.
    apply (trimmed_nil (pre ++ [] ++ post)); [|done].
    by apply whitespace_app. }
  destruct (decide (t' = [])) as [->|Hne'].
  { destruct Ht' as (pre & post & -> & Hpre & Hpost & _).
    apply (trimmed_nil (pre ++ [] ++ post)); [|done].
    by apply whitespace_app. }
  destruct Ht as (pre & post & -> & Hpre & Hpost & Hns & Hnd).
  destruct Ht' as (pre' & post' & Heq & Hpre' & Hpost' & Hns' & Hnd').
  destruct (whitespace_lead pre pre' (t ++ post) (t' ++ post') Hpre Hpre' Heq)
    as [_ Heq']; [by apply starts_with_space_app..|].
  by destruct (whitespace_trail post post' t t' Hpost Hpost' Heq' Hnd Hnd').
Qed.

(** [TrimSpace] returns the trimmed form, whichever way it is given. *)
Lemma TrimSpace_unique s t : trimmed s t -> strings.TrimSpace s = t.
Proof.
  intros Ht. apply (trimmed_unique s); [apply TrimSpace_trimmed|done].
Qed.

Lemma TrimSpace_fixed s :
  strings.TrimSpace s = s
  <-> ~ starts_with_space s /\ ~ ends_with_space s.
Proof.
  split.
  - intros Heq.
    destruct (TrimSpace_trimmed s) as (pre & post & _ & _ & _ & H).
    by rewrite Heq in H.
  - intros [Hns Hne]. apply TrimSpace_unique. exists [], [].
    rewrite app_nil_r. split_and!; [done|constructor|constructor|done|done].
Qed.

Lemma joined_last sep ls x :
  last ls = Some x -> exists init, joined sep ls = init ++ x.
Proof.
  induction ls as [|l ls IH]; [done|]. destruct ls as [|l' ls].
  { intros [= ->]. exists []. cbn. by rewrite app_nil_r. }
  rewrite last_cons_cons. intros Hlast.
  destruct (IH Hlast) as [init Hinit]. exists (l ++ sep ++ init).
  by rewrite joined_cons_cons, Hinit, <- !app_assoc.
Qed.

End ends.

(** ** Configuration calls, in closed form *)

Lemma append_appended h s vs st :
  append h s vs st = Some (appended h st s vs).
Proof.
  unfold appended, append. destruct (s_len s + length vs <=? s_cap s);
    mrun; reflexivity.
Qed.

Lemma appended_set_cmds h v st s vs :
  appended h (set_cmds v st) s vs
  = (fst (appended h st s vs), set_cmds v (snd (appended h st s vs))).
Proof.
  unfold appended, append. destruct (s_len s + length vs <=? s_cap s);
    mrun; reflexivity.
Qed.

Lemma appended_fields h st s vs :
  cmds (snd (appended h st s vs)) = cmds st /\
  builders (snd (appended h st s vs)) = builders st /\
  buffers (snd (appended h st s vs)) = buffers st /\
  files (snd (appended h st s vs)) = files st.
Proof.
  unfold appended, append. destruct (s_len s + length vs <=? s_cap s);
    mrun; done.
Qed.

Lemma set_cmds_set_cmds v v' st :
  set_cmds v (set_cmds v' st) = set_cmds v st.
Proof. reflexivity. Qed.

(** One configuration call, on a builder that has a command. *)
Lemma run_configure1_closed h b op st bld c :
  builders st !! b = Some bld -> cmds st !! cmd bld = Some c ->
  configure1 h b op st
  = Some (b, set_cmds (<[cmd bld := fst (configured h st c op)]> (cmds st))
               (snd (configured h st c op))).
Proof.
  intros Hb Hc.
  assert (forall upd,
    (getBuilder b ≫= fun bd => modifyCmd (cmd bd) upd ≫= fun _ => mret b) st
    = Some (b, set_cmds (<[cmd bld := upd c]> (cmds st)) st)) as Hfield.
  { intros upd. rewrite run_bind, (run_getBuilder _ _ _ Hb).
    by rewrite run_bind, (run_modifyCmd _ _ _ _ Hc). }
  destruct op as [dir|w|w|r| |vars]; cbn [configure1 configured fst snd];
    try apply Hfield.
  - unfold CmdBuilder.Interactive.
    rewrite run_bind, (run_getBuilder _ _ _ Hb).
    rewrite run_bind, (run_modifyCmd _ _ _ _ Hc).
    rewrite run_bind.
    erewrite run_modifyCmd by (cbn; by eapply lookup_insert_same).
    rewrite run_bind.
    erewrite run_modifyCmd
      by (cbn; eapply lookup_insert_same; by eapply lookup_insert_same).
    cbn. by rewrite !list_insert_insert_eq.
  - unfold CmdBuilder.Env, appendEnv.
    rewrite run_bind, (run_getBuilder _ _ _ Hb).
    rewrite !run_bind, (run_getCmd _ _ _ Hc).
    rewrite run_bind, append_appended.
    destruct (appended_fields h st (exec.Env c) vars) as (Hcs & _).
    destruct (appended h st (exec.Env c) vars) as [env' sta]. cbn in *.
    erewrite run_modifyCmd by (by rewrite Hcs).
    by rewrite Hcs.
Qed.

Lemma configure1_no_builder h b op st :
  builders st !! b = None -> configure1 h b op st = None.
Proof.
  intros Hb. destruct op; cbn [configure1];
    unfold CmdBuilder.Dir, CmdBuilder.Stdout, CmdBuilder.Stderr,
      CmdBuilder.Stdin, CmdBuilder.Interactive, CmdBuilder.Env;
    rewrite run_bind; unfold getBuilder; mrun; by rewrite Hb.
Qed.

Lemma configure1_no_cmd h b op st bld :
  builders st !! b = Some bld -> cmds st !! cmd bld = None ->
  configure1 h b op st = None.
Proof.
  intros Hb Hc. destruct op; cbn [configure1];
    unfold CmdBuilder.Dir, CmdBuilder.Stdout, CmdBuilder.Stderr,
      CmdBuilder.Stdin, CmdBuilder.Interactive, CmdBuilder.Env, appendEnv;
    rewrite run_bind, (run_getBuilder _ _ _ Hb);
    rewrite run_bind; unfold modifyCmd, getCmd; mrun; by rewrite Hc.
Qed.

Lemma configured_fields h st c op :
  builders (snd (configured h st c op)) = builders st /\
  cmds (snd (configured h st c op)) = cmds st /\
  buffers (snd (configured h st c op)) = buffers st /\
  files (snd (configured h st c op)) = files st.
Proof.
  destruct op; cbn [configured snd]; try done.
  destruct (appended_fields h st (exec.Env c) vars) as (? & ? & ? & ?).
  done.
Qed.

(** A chain either panics or returns the builder it was called on, in a
    store with the same builders. *)
Lemma run_configure_same h ops : forall b st,
  configure h b ops st = None
  \/ exists st', configure h b ops st = Some (b, st') /\
                 builders st' = builders st.
Proof.
  induction ops as [|op ops IH]; intros b st; [right; by exists st|].
  cbn [configure]. rewrite run_bind.
  destruct (builders st !! b) as [bld|] eqn:Hb;
    [|left; by rewrite configure1_no_builder].
  destruct (cmds st !! cmd bld) as [c|] eqn:Hc;
    [|left; by rewrite (configure1_no_cmd _ _ _ _ bld)].
  rewrite (run_configure1_closed h b op st bld c Hb Hc).
  destruct (IH b (set_cmds (<[cmd bld := fst (configured h st c op)]>
                              (cmds st)) (snd (configured h st c op))))
    as [->|(st' & -> & Hbs)]; [by left|].
  right. exists st'. split; [done|]. rewrite Hbs. cbn.
  apply configured_fields.
Qed.

(** ** Chains of configuration calls *)

Lemma configured_describe h st c op :
  valid_slice st (exec.Env c) ->
  let c' := fst (configured h st c op) in
  let st' := snd (configured h st c op) in
  forall v,
    describe (set_cmds v st') c' = apply_config op (describe st c) /\
    valid_slice (set_cmds v st') (exec.Env c').
Proof.
  intros Hv c' st' v. subst c' st'.
  destruct op as [dir|w|w|r| |vars]; cbn [configured fst snd]; try done.
  destruct (run_append h (exec.Env c) vars st Hv)
    as (env' & sta & Happ & _ & _ & _ & _ & Hel & Hv' & _).
  rewrite append_appended in Happ. injection Happ as Happ.
  rewrite Happ. cbn [fst snd]. split; [|done].
  unfold describe. cbn.
  change (elems (set_cmds v sta) env') with (elems sta env').
  by rewrite Hel.
Qed.

(** X1: a chain of configuration calls ([Dir], [Stdout], [Stderr],
    [Stdin], [Interactive], [Env]) on a builder returns that builder, and
    leaves it with the specification that the calls make of the one it had,
    applied one after the other in the order of the chain: each call
    assigns its field whatever the argument is (an empty directory and a
    nil stream included), [Interactive] assigns the three streams of the
    calling process, [Env] extends the environment.  The commands of the
    other builders and the contents of the streams are as they were. *)
Theorem configure_specification h ops : forall b st bld c,
  builders st !! b = Some bld -> cmds st !! cmd bld = Some c ->
  valid_slice st (exec.Env c) ->
  exists st',
    configure h b ops st = Some (b, st') /\
    specification st' b
    = Some (foldl (fun sp op => apply_config op sp) (describe st c) ops) /\
    builders st' = builders st /\
    (forall p, p <> cmd bld -> cmds st' !! p = cmds st !! p) /\
    buffers st' = buffers st /\ files st' = files st.
Proof.
  induction ops as [|op ops IH]; intros b st bld c Hb Hc Hv.
  { exists st. split_and!; try done.
    unfold specification, command. rewrite Hb. cbn. by rewrite Hc. }
  cbn [configure foldl]. rewrite run_bind.
  rewrite (run_configure1_closed h b op st bld c Hb Hc).
  destruct (configured_fields h st c op) as (Hbs1 & Hcs1 & Hbuf1 & Hf1).
  destruct (configured_describe h st c op Hv
              (<[cmd bld := fst (configured h st c op)]> (cmds st)))
    as [Hd1 Hv1].
  set (c1 := fst (configured h st c op)) in *.
  set (st1 := set_cmds _ (snd (configured h st c op))) in *.
  destruct (IH b st1 bld c1) as (st' & Hrun & Hsp & Hbs & Hcs & Hbuf & Hf).
  { unfold st1. cbn. by rewrite Hbs1. }
  { unfold st1. cbn. by eapply lookup_insert_same. }
  { exact Hv1. }
  exists st'. rewrite Hrun, Hsp, Hd1. split_and!; try done.
  - by rewrite Hbs, <- Hbs1.
  - intros p Hp. rewrite (Hcs p Hp). unfold st1. cbn.
    by rewrite list_lookup_insert_ne.
  - by rewrite Hbuf, <- Hbuf1.
  - by rewrite Hf, <- Hf1.
Qed.

Lemma configure_specification_witness :
  (exists bld c,
     builders (snd demo_missing) !! fst demo_missing = Some bld /\
     cmds (snd demo_missing) !! cmd bld = Some c /\
     valid_slice (snd demo_missing) (exec.Env c)) /\
  exists st' sp,
    configure demo_host (fst demo_missing)
      [SetDir (go "/srv"); AddEnv [go "A=1"]; SetInteractive;
       SetStdout None; SetDir []] (snd demo_missing)
    = Some (fst demo_missing, st') /\
    specification st' (fst demo_missing) = Some sp /\
    sp_Args sp = [go "ls"; go "-l"] /\ sp_Dir sp = [] /\
    sp_Stdin sp = Some os.Stdin /\ sp_Stdout sp = None /\
    sp_Stderr sp = Some os.Stderr /\
    sp_Env sp = [go "PATH=/bin"; go "SHELL=/bin/sh"; go "A=1"].
Proof.
  split.
  { eexists _, _. split; [reflexivity|]. split; [reflexivity|].
    vm_compute. lia. }
  edestruct (configure_specification demo_host
               [SetDir (go "/srv"); AddEnv [go "A=1"]; SetInteractive;
                SetStdout None; SetDir []]
               (fst demo_missing) (snd demo_missing))
    as (st' & Hrun & Hsp & _); [reflexivity|reflexivity|vm_compute; lia|].
  eexists st', _. split; [exact Hrun|]. split; [exact Hsp|].
  split_and!; reflexivity.
Defined.

Ltac refute_fields H :=
  exfalso; apply (bool_decide_pack _) in H; vm_compute in H; exact H.

(** X2: two configuration calls that assign different fields can be made
    in either order: the builder and the whole store end the same. *)
Theorem configure_commute h b op1 op2 st :
  Forall (fun f => f ∉ touches op2) (touches op1) ->
  configure h b [op1; op2] st = configure h b [op2; op1] st.
Proof.
  intros Hdisj. cbn [configure]. rewrite !run_bind.
  destruct (builders st !! b) as [bld|] eqn:Hb;
    [|by rewrite !configure1_no_builder].
  destruct (cmds st !! cmd bld) as [c|] eqn:Hc;
    [|by rewrite !(configure1_no_cmd _ _ _ _ bld)].
  rewrite !(run_configure1_closed h b _ st bld c Hb Hc).
  destruct (configured_fields h st c op1) as (Hbs1 & Hcs1 & _).
  destruct (configured_fields h st c op2) as (Hbs2 & Hcs2 & _).
  cbv beta iota. rewrite !run_bind.
  rewrite (run_configure1_closed h b op2 _ bld (fst (configured h st c op1)));
    [|cbn; congruence|cbn; by eapply lookup_insert_same].
  rewrite (run_configure1_closed h b op1 _ bld (fst (configured h st c op2)));
    [|cbn; congruence|cbn; by eapply lookup_insert_same].
  cbn [mret M_ret]. apply (f_equal (fun x => Some (b, x))). clear Hbs1 Hcs1 Hbs2 Hcs2.
  destruct op1 as [d1|w1|w1|r1| |vs1], op2 as [d2|w2|w2|r2| |vs2];
    try refute_fields Hdisj.
  all: cbn [configured fst snd field_update]; cbn [set_cmds cmds];
       rewrite ?appended_set_cmds; cbn [fst snd set_cmds cmds];
       rewrite ?list_insert_insert_eq; reflexivity.
Qed.

Lemma configure_commute_witness :
  Forall (fun f => f ∉ touches SetInteractive)
    (touches (AddEnv [go "A=1"])) /\
  configure demo_host (fst demo_missing) [AddEnv [go "A=1"]; SetInteractive]
    (snd demo_missing)
  = configure demo_host (fst demo_missing) [SetInteractive; AddEnv [go "A=1"]]
      (snd demo_missing).
Proof.
  assert (Forall (fun f => f ∉ touches SetInteractive)
            (touches (AddEnv [go "A=1"]))) as Hdisj.
  { apply (bool_decide_unpack _). vm_compute. exact I. }
  split; [exact Hdisj|].
  exact (configure_commute demo_host (fst demo_missing) (AddEnv [go "A=1"])
           SetInteractive (snd demo_missing) Hdisj).
Defined.

(** X3: of two configuration calls other than [Env], the second undoes
    the first when it assigns every field the first assigns: of two calls
    of [Dir], [Stdout], [Stderr] or [Stdin] the later one counts,
    [Interactive] overrides the streams set before it, and twice
    [Interactive] is once. *)
Theorem configure_override h b op1 op2 st :
  Forall (fun f => f ∈ touches op2) (touches op1) ->
  FEnv ∉ touches op2 ->
  configure h b [op1; op2] st = configure h b [op2] st.
Proof.
  intros Hsub Hne. cbn [configure]. rewrite !run_bind.
  destruct (builders st !! b) as [bld|] eqn:Hb;
    [|by rewrite !configure1_no_builder].
  destruct (cmds st !! cmd bld) as [c|] eqn:Hc;
    [|by rewrite !(configure1_no_cmd _ _ _ _ bld)].
  rewrite !(run_configure1_closed h b _ st bld c Hb Hc).
  destruct (configured_fields h st c op1) as (Hbs1 & Hcs1 & _).
  cbv beta iota. rewrite !run_bind.
  rewrite (run_configure1_closed h b op2 _ bld (fst (configured h st c op1)));
    [|cbn; congruence|cbn; by eapply lookup_insert_same].
  cbn [mret M_ret]. apply (f_equal (fun x => Some (b, x))). clear Hbs1 Hcs1.
  destruct op1 as [d1|w1|w1|r1| |vs1], op2 as [d2|w2|w2|r2| |vs2];
    try refute_fields Hsub; try refute_fields Hne.
  all: cbn [configured fst snd field_update]; cbn [set_cmds cmds];
       rewrite ?list_insert_insert_eq; reflexivity.
Qed.

Lemma configure_override_witness :
  (Forall (fun f => f ∈ touches SetInteractive)
     (touches (SetStdout (Some (io.Plain (io.Buffer 0))))) /\
   FEnv ∉ touches SetInteractive) /\
  configure demo_host (fst demo_tee)
    [SetStdout (Some (io.Plain (io.Buffer 0))); SetInteractive]
    (snd demo_tee)
  = configure demo_host (fst demo_tee) [SetInteractive] (snd demo_tee).
Proof.
  assert (Forall (fun f => f ∈ touches SetInteractive)
            (touches (SetStdout (Some (io.Plain (io.Buffer 0)))))) as Hsub.
  { apply (bool_decide_unpack _). vm_compute. exact I. }
  assert (FEnv ∉ touches SetInteractive) as Hne.
  { apply (bool_decide_unpack _). vm_compute. exact I. }
  split; [by split|].
  exact (configure_override demo_host (fst demo_tee) _ SetInteractive
           (snd demo_tee) Hsub Hne).
Defined.

(** ** The terminal actions, in closed form *)

(** A command is not started again. *)
Lemma run_Start_started h p st c :
  cmds st !! p = Some c -> spent c ->
  os_exec.Start h p st = Some (Some exec.ErrAlreadyStarted, st).
Proof.
  intros Hc Hsp. unfold os_exec.Start.
  rewrite run_bind, (run_getCmd _ _ _ Hc).
  destruct (exec.Process c) eqn:Hp; [done|].
  destruct Hsp as [Hp'|Hf]; [done|]. by rewrite Hf.
Qed.

Lemma run_Run_started h p st c :
  cmds st !! p = Some c -> spent c ->
  os_exec.Run h p st = Some (Some exec.ErrAlreadyStarted, st).
Proof.
  intros Hc Hp. unfold os_exec.Run.
  by rewrite run_bind, (run_Start_started h p st c Hc Hp).
Qed.

(** A command whose error is known before any process is created. *)
Lemma run_Start_error h p st c e :
  cmds st !! p = Some c -> unlaunched c ->
  exec.Err (attempted c) = Some e ->
  os_exec.Start h p st
  = Some (Some e, set_cmds (<[p := attempted c]> (cmds st)) st).
Proof.
  intros Hc Hun He. rewrite (run_Start_final h p st c Hc Hun).
  unfold started, run_streams, create.
  unfold attempted in He. cbn in He.
  destruct (bool_decide (exec.Path c = []) && bool_decide (exec.Err c = None))
    eqn:Hno.
  - by injection He as <-.
  - cbn in He. by rewrite He.
Qed.

Lemma run_Run_error h p st c e :
  cmds st !! p = Some c -> unlaunched c ->
  exec.Err (attempted c) = Some e ->
  os_exec.Run h p st
  = Some (Some e, set_cmds (<[p := attempted c]> (cmds st)) st).
Proof.
  intros Hc Hp He. unfold os_exec.Run.
  by rewrite run_bind, (run_Start_error h p st c e Hc Hp He).
Qed.

Lemma attempted_fields c :
  exec.Process (attempted c) = exec.Process c /\
  exec.ProcessState (attempted c) = exec.ProcessState c /\
  exec.Stdout (attempted c) = exec.Stdout c /\
  exec.Stderr (attempted c) = exec.Stderr c /\
  exec.startCalled (attempted c) = true.
Proof.
  unfold attempted. cbn.
  by destruct (bool_decide (exec.Path c = [])
               && bool_decide (exec.Err c = None)).
Qed.

Lemma attempted_spent c : spent (attempted c).
Proof. right. apply attempted_fields. Qed.

Lemma attempted_streams out err c :
  attempted (exec.set_Stderr err (exec.set_Stdout out c))
  = exec.set_Stderr err (exec.set_Stdout out (attempted c)).
Proof.
  unfold attempted. cbn.
  by destruct (bool_decide (exec.Path c = [])
               && bool_decide (exec.Err c = None)).
Qed.

Lemma attempted_Stdout out c :
  attempted (exec.set_Stdout out c) = exec.set_Stdout out (attempted c).
Proof.
  unfold attempted. cbn.
  by destruct (bool_decide (exec.Path c = [])
               && bool_decide (exec.Err c = None)).
Qed.

(** [Output] is [Run] on the prepared command, and what the buffer holds
    afterwards, trimmed. *)
Lemma run_Output_via_Run h b st bld c :
  builders st !! b = Some bld -> cmds st !! cmd bld = Some c ->
  CmdBuilder.Output h b st
  = match os_exec.Run h (cmd bld) (prepared_store st (cmd bld) c) with
    | Some (Some e, st') => Some (([], Some e), st')
    | Some (None, st') =>
        Some ((strings.TrimSpace
                 (received st' (io.Buffer (length (buffers st)))), None),
              st')
    | None => None
    end.
Proof.
  intros Hb Hc. unfold CmdBuilder.Output, prepared_store, prepared, scratch.
  rewrite run_bind, (run_getBuilder _ _ _ Hb), run_bind, (run_getCmd _ _ _ Hc).
  destruct (exec.Stdout c) as [w|] eqn:Hout.
  - rewrite run_bind, run_newBuffer.
    rewrite run_bind. erewrite run_modifyCmd by (cbn; exact Hc).
    rewrite run_bind. cbn [set_cmds set_buffers cmds buffers].
    destruct (os_exec.Run h (cmd bld) _) as [[[e|] st']|]; reflexivity.
  - unfold os_exec.Output.
    rewrite !run_bind, (run_getCmd _ _ _ Hc), Hout.
    rewrite run_bind, run_newBuffer.
    rewrite run_bind. erewrite run_modifyCmd by (cbn; exact Hc).
    destruct (exec.Stderr c) as [we|] eqn:Herr.
    + rewrite !run_bind. cbn [mret M_ret set_cmds set_buffers cmds buffers].
      rewrite !run_bind.
      destruct (os_exec.Run h (cmd bld) _) as [[[e|] st']|]; reflexivity.
    + rewrite !run_bind, run_newBuffer.
      erewrite run_modifyCmd by (cbn; by eapply lookup_insert_same).
      cbn [set_cmds set_buffers cmds buffers].
      rewrite list_insert_insert_eq, <- app_assoc, length_app.
      cbn [app length]. rewrite Nat.add_1_r, !run_bind.
      destruct (os_exec.Run h (cmd bld) _) as [[[e|] st']|]; reflexivity.
Qed.

Lemma prepared_fields c buf :
  exec.Path (prepared c buf) = exec.Path c /\
  exec.Args (prepared c buf) = exec.Args c /\
  exec.Env (prepared c buf) = exec.Env c /\
  exec.Dir (prepared c buf) = exec.Dir c /\
  exec.Stdin (prepared c buf) = exec.Stdin c /\
  exec.Err (prepared c buf) = exec.Err c /\
  exec.Process (prepared c buf) = exec.Process c /\
  exec.ProcessState (prepared c buf) = exec.ProcessState c /\
  exec.startCalled (prepared c buf) = exec.startCalled c.
Proof.
  unfold prepared. by destruct (exec.Stdout c), (exec.Stderr c).
Qed.

Lemma prepared_unlaunched c buf : unlaunched c -> unlaunched (prepared c buf).
Proof.
  intros (Hp & Hs & Hf).
  destruct (prepared_fields c buf) as (_ & _ & _ & _ & _ & _ & Hp' & Hs' & Hf').
  unfold unlaunched. by rewrite Hp', Hs', Hf'.
Qed.

Lemma prepared_spent c buf : spent c -> spent (prepared c buf).
Proof.
  destruct (prepared_fields c buf) as (_ & _ & _ & _ & _ & _ & Hp' & _ & Hf').
  unfold spent. by rewrite Hp', Hf'.
Qed.

Lemma prepared_Stdout c buf :
  exists w, exec.Stdout (prepared c buf) = Some w /\
            io.members w = capture (exec.Stdout c) buf.
Proof.
  unfold prepared, capture.
  destruct (exec.Stdout c) as [w|];
    [|destruct (exec.Stderr c); eexists; split; reflexivity].
  eexists. split; [reflexivity|]. apply members_MultiWriter.
Qed.

Lemma prepared_Stderr c buf :
  exec.Stderr c <> None -> exec.Stderr (prepared c buf) = exec.Stderr c.
Proof.
  unfold prepared. intros H.
  destruct (exec.Stdout c), (exec.Stderr c) eqn:E; cbn; congruence.
Qed.

Lemma create_prepared h st p c :
  create h (prepared_store st p c) (prepared c (length (buffers st)))
  = create h st c.
Proof.
  unfold prepared_store, prepared.
  by destruct (exec.Stdout c), (exec.Stderr c).
Qed.

Lemma attempted_prepared c buf :
  exec.Err (attempted (prepared c buf)) = exec.Err (attempted c).
Proof.
  unfold prepared.
  destruct (exec.Stdout c), (exec.Stderr c);
    rewrite ?attempted_streams, ?attempted_Stdout; reflexivity.
Qed.

Lemma prepared_store_lookup st p c :
  cmds st !! p = Some c ->
  cmds (prepared_store st p c) !! p
  = Some (prepared c (length (buffers st))).
Proof. intros Hc. cbn. by eapply lookup_insert_same. Qed.

(** The streams that exist hold in the prepared store what they held. *)
Lemma prepared_store_streams st p c s :
  valid_stream st s ->
  valid_stream (prepared_store st p c) s /\
  received (prepared_store st p c) s = received st s.
Proof.
  destruct s as [fd|bf]; cbn; [done|]. intros Hlt.
  rewrite length_app, lookup_app_l by done. split; [lia|done].
Qed.

Lemma finished_fields h st c :
  exec.Path (finished h st c) = exec.Path c /\
  exec.Args (finished h st c) = exec.Args c /\
  exec.Env (finished h st c) = exec.Env c /\
  exec.Dir (finished h st c) = exec.Dir c /\
  exec.Stdin (finished h st c) = exec.Stdin c /\
  exec.Stdout (finished h st c) = exec.Stdout c /\
  exec.Stderr (finished h st c) = exec.Stderr c.
Proof.
  unfold finished, attempted. cbn.
  destruct (create h st c);
    by destruct (bool_decide (exec.Path c = [])
                 && bool_decide (exec.Err c = None)).
Qed.

(** [Output] and the command it leaves, for a command that was not
    launched. *)
Lemma run_Output_final h b st bld c :
  builders st !! b = Some bld -> cmds st !! cmd bld = Some c ->
  unlaunched c ->
  exists r st',
    CmdBuilder.Output h b st = Some (r, st') /\
    snd r = run_error h st c /\
    builders st' = builders st /\
    cmds st'
    = <[cmd bld := finished h (prepared_store st (cmd bld) c)
                     (prepared c (length (buffers st)))]> (cmds st).
Proof.
  intros Hb Hc Hun.
  rewrite (run_Output_via_Run h b st bld c Hb Hc).
  rewrite (run_Run_final h (cmd bld) _ _ (prepared_store_lookup _ _ _ Hc)).
  2:{ by apply prepared_unlaunched. }
  unfold run_error at 1. rewrite create_prepared.
  unfold run_error.
  assert (forall x, cmds (set_cmds (<[cmd bld := x]>
                                      (cmds (prepared_store st (cmd bld) c)))
                                   (run_streams h
                                      (prepared_store st (cmd bld) c)
                                      (prepared c (length (buffers st)))))
                    = <[cmd bld := x]> (cmds st)) as Hcs.
  { intros x. cbn. by rewrite list_insert_insert_eq. }
  assert (builders (run_streams h (prepared_store st (cmd bld) c)
                      (prepared c (length (buffers st))))
          = builders st) as Hbs.
  { unfold run_streams. destruct (create h _ _); [done|].
    destruct (deliver_fields (exec.Stderr (prepared c (length (buffers st))))
                (exec.stderr o)
                (deliver (exec.Stdout (prepared c (length (buffers st))))
                   (exec.stdout o) (prepared_store st (cmd bld) c)))
      as (_ & -> & _).
    by destruct (deliver_fields (exec.Stdout (prepared c (length (buffers st))))
                  (exec.stdout o) (prepared_store st (cmd bld) c))
      as (_ & -> & _). }
  destruct (create h st c) as [e|o] eqn:Hcr.
  - eexists (_, _), _. split; [reflexivity|]. split_and!; [done|exact Hbs|].
    apply Hcs.
  - destruct (exit_error o) as [e|] eqn:He.
    + eexists (_, _), _. split; [reflexivity|].
      split_and!; [done|exact Hbs|apply Hcs].
    + eexists (_, _), _. split; [reflexivity|].
      split_and!; [done|exact Hbs|apply Hcs].
Qed.

(** ** What the terminal actions report *)

Lemma run_perform_Lines h b st r st' :
  CmdBuilder.Output h b st = Some (r, st') ->
  perform h b DoLines st = Some (snd r, st').
Proof.
  intros Hout. cbn [perform].
  rewrite run_bind, (run_Lines _ _ _ _ _ Hout).
  unfold lines_result. by destruct (snd r).
Qed.

Lemma run_perform_Output h b st r st' :
  CmdBuilder.Output h b st = Some (r, st') ->
  perform h b DoOutput st = Some (snd r, st').
Proof. intros Hout. cbn [perform]. by rewrite run_bind, Hout. Qed.

(** On a command that was started, or that an attempt was made to start,
    every terminal action reports that it was, and no stream that exists
    receives anything. *)
Lemma perform_started h b a st bld c :
  builders st !! b = Some bld -> cmds st !! cmd bld = Some c ->
  spent c ->
  exists st1,
    perform h b a st = Some (Some exec.ErrAlreadyStarted, st1) /\
    forall s, valid_stream st s -> received st1 s = received st s.
Proof.
  intros Hb Hc Hp.
  assert (CmdBuilder.Output h b st
          = Some (([], Some exec.ErrAlreadyStarted),
                  prepared_store st (cmd bld) c)) as Hout.
  { rewrite (run_Output_via_Run h b st bld c Hb Hc).
    erewrite run_Run_started; [done|by apply prepared_store_lookup|].
    by apply prepared_spent. }
  destruct a.
  - exists st. split; [|done]. cbn [perform]. unfold CmdBuilder.Start.
    rewrite run_bind, (run_getBuilder _ _ _ Hb).
    by apply (run_Start_started h _ st c).
  - exists st. split; [|done]. cbn [perform]. unfold CmdBuilder.Run.
    rewrite run_bind, (run_getBuilder _ _ _ Hb).
    by apply (run_Run_started h _ st c).
  - eexists. split; [by apply (run_perform_Output _ _ _ _ _ Hout)|].
    intros s Hs. by apply prepared_store_streams.
  - eexists. split; [by apply (run_perform_Lines _ _ _ _ _ Hout)|].
    intros s Hs. by apply prepared_store_streams.
Qed.

(** On a command whose error is known before any process is created,
    the first terminal action reports that error, no stream that exists
    receives anything, and the command is left spent. *)
Lemma perform_error h b a st bld c e :
  builders st !! b = Some bld -> cmds st !! cmd bld = Some c ->
  unlaunched c -> exec.Err (attempted c) = Some e ->
  exists st1 c1,
    perform h b a st = Some (Some e, st1) /\
    builders st1 = builders st /\ cmds st1 !! cmd bld = Some c1 /\
    spent c1 /\
    forall s, valid_stream st s ->
              valid_stream st1 s /\ received st1 s = received st s.
Proof.
  intros Hb Hc Hun He.
  set (cb := prepared c (length (buffers st))).
  assert (CmdBuilder.Output h b st
          = Some (([], Some e),
                  set_cmds (<[cmd bld := attempted cb]>
                              (cmds (prepared_store st (cmd bld) c)))
                    (prepared_store st (cmd bld) c))) as Hout.
  { rewrite (run_Output_via_Run h b st bld c Hb Hc).
    erewrite (run_Run_error h (cmd bld) _ cb e);
      [done|by apply prepared_store_lookup| |].
    - by apply prepared_unlaunched.
    - unfold cb. by rewrite attempted_prepared. }
  destruct a.
  - exists (set_cmds (<[cmd bld := attempted c]> (cmds st)) st), (attempted c).
    split_and!; try done;
      try (cbn; by eapply lookup_insert_same);
      try apply attempted_spent;
      try (intros s Hs; split; [by destruct s|apply received_set_cmds]).
    cbn [perform]. unfold CmdBuilder.Start.
    rewrite run_bind, (run_getBuilder _ _ _ Hb).
    by apply run_Start_error.
  - exists (set_cmds (<[cmd bld := attempted c]> (cmds st)) st), (attempted c).
    split_and!; try done;
      try (cbn; by eapply lookup_insert_same);
      try apply attempted_spent;
      try (intros s Hs; split; [by destruct s|apply received_set_cmds]).
    cbn [perform]. unfold CmdBuilder.Run.
    rewrite run_bind, (run_getBuilder _ _ _ Hb).
    by apply run_Run_error.
  - eexists _, (attempted cb).
    split; [by apply (run_perform_Output _ _ _ _ _ Hout)|].
    split_and!; try done; try apply attempted_spent;
      try (cbn; rewrite list_insert_insert_eq; by eapply lookup_insert_same).
    intros s Hs. rewrite received_set_cmds.
    destruct (prepared_store_streams st (cmd bld) c s Hs) as [Hv Hr].
    split; [by destruct s|done].
  - eexists _, (attempted cb).
    split; [by apply (run_perform_Lines _ _ _ _ _ Hout)|].
    split_and!; try done; try apply attempted_spent;
      try (cbn; rewrite list_insert_insert_eq; by eapply lookup_insert_same).
    intros s Hs. rewrite received_set_cmds.
    destruct (prepared_store_streams st (cmd bld) c s Hs) as [Hv Hr].
    split; [by destruct s|done].
Qed.

(** A terminal action that creates the process leaves the command
    started. *)
Lemma perform_created h b a st bld c o :
  builders st !! b = Some bld -> cmds st !! cmd bld = Some c ->
  unlaunched c -> create h st c = inr o ->
  exists e1 st1 c1,
    perform h b a st = Some (e1, st1) /\
    builders st1 = builders st /\ cmds st1 !! cmd bld = Some c1 /\
    exec.Process c1 = Some o.
Proof.
  intros Hb Hc Hun Hcr.
  destruct (run_Output_final h b st bld c Hb Hc Hun)
    as (r & st' & Hout & _ & Hbs & Hcs).
  assert (exec.Process (finished h (prepared_store st (cmd bld) c)
                          (prepared c (length (buffers st)))) = Some o)
    as Hfin.
  { unfold finished. by rewrite create_prepared, Hcr. }
  destruct a.
  - eexists _, _, (started h st c). split_and!.
    + cbn [perform]. unfold CmdBuilder.Start.
      rewrite run_bind, (run_getBuilder _ _ _ Hb).
      by apply run_Start_final.
    + cbn. apply run_streams_fields.
    + cbn. by eapply lookup_insert_same.
    + unfold started. by rewrite Hcr.
  - eexists _, _, (finished h st c). split_and!.
    + cbn [perform]. unfold CmdBuilder.Run.
      rewrite run_bind, (run_getBuilder _ _ _ Hb).
      by apply run_Run_final.
    + cbn. apply run_streams_fields.
    + cbn. by eapply lookup_insert_same.
    + unfold finished. by rewrite Hcr.
  - eexists _, st', _.
    split; [by apply (run_perform_Output _ _ _ _ _ Hout)|].
    split_and!; [done| |exact Hfin].
    rewrite Hcs. by eapply lookup_insert_same.
  - eexists _, st', _.
    split; [by apply (run_perform_Lines _ _ _ _ _ Hout)|].
    split_and!; [done| |exact Hfin].
    rewrite Hcs. by eapply lookup_insert_same.
Qed.

(** X4: [Interactive] followed by [Run] runs the command on the three
    streams of the calling process: the process is given [os.Stdin], and
    when it is created what it writes to its standard output is appended
    to what [os.Stdout] has received and what it writes to its standard
    error to what [os.Stderr] has received, whatever streams the builder
    had before; no other stream receives anything, and none does when the
    process is not created. *)
Theorem Interactive_Run h b st bld c :
  builders st !! b = Some bld -> cmds st !! cmd bld = Some c ->
  unlaunched c ->
  exists st',
    (CmdBuilder.Interactive b ≫= CmdBuilder.Run h) st
    = Some (run_error h st (field_update SetInteractive c), st') /\
    exec.Stdin (field_update SetInteractive c) = Some os.Stdin /\
    (forall o,
       create h st (field_update SetInteractive c) = inr o ->
       received st' (io.File 1) = received st (io.File 1) ++ exec.stdout o /\
       received st' (io.File 2) = received st (io.File 2) ++ exec.stderr o /\
       forall s, s <> io.File 1 -> s <> io.File 2 ->
                 received st' s = received st s) /\
    (forall e,
       create h st (field_update SetInteractive c) = inl e ->
       forall s, received st' s = received st s).
Proof.
  intros Hb Hc Hun. set (ci := field_update SetInteractive c).
  pose proof (run_configure1_closed h b SetInteractive st bld c Hb Hc) as Hi.
  cbn [configure1 configured fst snd] in Hi. fold ci in Hi.
  set (st1 := set_cmds (<[cmd bld := ci]> (cmds st)) st) in *.
  assert (cmds st1 !! cmd bld = Some ci) as Hc1.
  { unfold st1. cbn. by eapply lookup_insert_same. }
  pose proof (run_Run_final h (cmd bld) st1 ci Hc1 Hun) as Hrun.
  eexists. split.
  { rewrite run_bind, Hi. cbv beta iota. unfold CmdBuilder.Run.
    rewrite run_bind, (run_getBuilder b st1 bld Hb). exact Hrun. }
  split; [done|].
  unfold run_streams. change (create h st1 ci) with (create h st ci).
  split.
  - intros o ->. rewrite !received_set_cmds.
    change (exec.Stderr ci) with (Some os.Stderr).
    change (exec.Stdout ci) with (Some os.Stdout).
    unfold deliver. cbn [io.members os.Stdout os.Stderr foldl].
    split_and!.
    + rewrite received_write_other by done.
      by rewrite received_write_same.
    + rewrite received_write_same by done.
      by rewrite received_write_other.
    + intros s H1 H2.
      by rewrite received_set_cmds, !received_write_other.
  - intros e -> s. by rewrite received_set_cmds.
Qed.

Lemma Interactive_Run_witness :
  (exists bld c,
     builders (snd demo_tee) !! fst demo_tee = Some bld /\
     cmds (snd demo_tee) !! cmd bld = Some c /\ unlaunched c) /\
  exists st',
    (CmdBuilder.Interactive (fst demo_tee) ≫= CmdBuilder.Run demo_host)
      (snd demo_tee) = Some (None, st') /\
    received st' (io.File 1) = go "hello" ++ [LF] /\
    received st' (io.Buffer 0) = [].
Proof.
  split.
  { eexists _, _. split; [reflexivity|]. split; [reflexivity|].
    repeat split. }
  edestruct (Interactive_Run demo_host (fst demo_tee) (snd demo_tee))
    as (st' & Hrun & _ & Hmade & _);
    [reflexivity|reflexivity|repeat split|].
  exists st'. split; [exact Hrun|].
  edestruct Hmade as (H1 & _ & Hother); [reflexivity|].
  split; [exact H1|]. by apply Hother.
Defined.

(** X5: [Build] returns the pointer to the command the builder holds, and
    changes nothing.  The command is shared, not copied: [Build] before a
    chain of configuration calls returns what [Build] after it returns,
    the command behind the pointer has the specification of the builder
    after the chain, and [exec]'s [Start] and [Run] on the pointer are the
    builder's [Start] and [Run]. *)
Theorem Build_shares h b st :
  (forall bld,
     builders st !! b = Some bld ->
     CmdBuilder.Build b st = Some (cmd bld, st)) /\
  (forall ops,
     (CmdBuilder.Build b ≫= fun p => configure h b ops ≫= fun _ => mret p)
       st
     = (configure h b ops ≫= CmdBuilder.Build) st) /\
  (forall ops p st0 st',
     CmdBuilder.Build b st = Some (p, st0) ->
     configure h b ops st0 = Some (b, st') ->
     describe st' <$> cmds st' !! p = specification st' b) /\
  (CmdBuilder.Build b ≫= os_exec.Start h) st = CmdBuilder.Start h b st /\
  (CmdBuilder.Build b ≫= os_exec.Run h) st = CmdBuilder.Run h b st.
Proof.
  assert (forall bld, builders st !! b = Some bld ->
                      CmdBuilder.Build b st = Some (cmd bld, st)) as Hbuild.
  { intros bld Hb. unfold CmdBuilder.Build.
    by rewrite run_bind, (run_getBuilder _ _ _ Hb). }
  assert (builders st !! b = None -> CmdBuilder.Build b st = None) as Hnone.
  { intros Hb. unfold CmdBuilder.Build, getBuilder. mrun. by rewrite Hb. }
  split_and!.
  - exact Hbuild.
  - intros ops. rewrite !run_bind.
    destruct (builders st !! b) as [bld|] eqn:Hb.
    + rewrite (Hbuild bld eq_refl), run_bind.
      destruct (run_configure_same h ops b st) as [->|(st' & -> & Hbs)];
        [done|].
      unfold CmdBuilder.Build.
      rewrite run_bind, (run_getBuilder b st' bld); [done|].
      by rewrite Hbs.
    + rewrite (Hnone eq_refl).
      destruct ops as [|op ops]; cbn [configure].
      * unfold mret, M_ret. symmetry. by apply Hnone.
      * by rewrite run_bind, configure1_no_builder.
  - intros ops p st0 st' Hp Hrun.
    destruct (builders st !! b) as [bld|] eqn:Hb;
      [|by rewrite (Hnone eq_refl) in Hp].
    rewrite (Hbuild bld eq_refl) in Hp. injection Hp as <- <-.
    destruct (run_configure_same h ops b st) as [Hn|(st1 & Hr & Hbs)];
      [congruence|].
    rewrite Hr in Hrun. injection Hrun as <-.
    unfold specification, command. rewrite Hbs, Hb. cbn.
    by destruct (cmds st1 !! cmd bld).
  - unfold CmdBuilder.Start, CmdBuilder.Build, getBuilder.
    unfold mbind, M_bind, mret, M_ret, get. cbn.
    by destruct (builders st !! b).
  - unfold CmdBuilder.Run, CmdBuilder.Build, getBuilder.
    unfold mbind, M_bind, mret, M_ret, get. cbn.
    by destruct (builders st !! b).
Qed.

(** X6: a builder without a command (the zero [CmdBuilder], whose [cmd]
    is nil) is of no use: every configuration call and every terminal
    action on it panics, and [Build] returns its nil pointer. *)
Theorem zero_builder_panics h b st bld :
  builders st !! b = Some bld -> cmds st !! cmd bld = None ->
  (forall op, configure1 h b op st = None) /\
  (forall a, perform h b a st = None) /\
  CmdBuilder.Build b st = Some (cmd bld, st).
Proof.
  intros Hb Hc. split_and!.
  - intros op. by apply (configure1_no_cmd h b op st bld).
  - assert (CmdBuilder.Output h b st = None) as Hout.
    { unfold CmdBuilder.Output.
      rewrite run_bind, (run_getBuilder _ _ _ Hb), run_bind.
      unfold getCmd. mrun. by rewrite Hc. }
    intros [ | | | ]; cbn [perform].
    + unfold CmdBuilder.Start, os_exec.Start.
      rewrite run_bind, (run_getBuilder _ _ _ Hb), run_bind.
      unfold getCmd. mrun. by rewrite Hc.
    + unfold CmdBuilder.Run, os_exec.Run, os_exec.Start.
      rewrite run_bind, (run_getBuilder _ _ _ Hb), !run_bind.
      unfold getCmd. mrun. by rewrite Hc.
    + by rewrite run_bind, Hout.
    + unfold CmdBuilder.Lines. by rewrite !run_bind, Hout.
  - unfold CmdBuilder.Build.
    by rewrite run_bind, (run_getBuilder _ _ _ Hb).
Qed.

Lemma zero_builder_panics_witness :
  (builders demo_zero !! 0 = Some {| cmd := 0 |} /\
   cmds demo_zero !! 0 = None) /\
  CmdBuilder.Dir 0 (go "/tmp") demo_zero = None /\
  CmdBuilder.Run demo_host 0 demo_zero = None /\
  CmdBuilder.Build 0 demo_zero = Some (0, demo_zero).
Proof.
  split; [repeat split|].
  destruct (zero_builder_panics demo_host 0 demo_zero {| cmd := 0 |})
    as (Hconf & Hact & Hbuild); [reflexivity|reflexivity|].
  split; [exact (Hconf (SetDir (go "/tmp")))|].
  split; [exact (Hact DoRun)|exact Hbuild].
Defined.



(** X8: when a writer was assigned as stdout and the process is created
    but exits with a status other than 0, [Output] returns the empty string
    with the exit error, and yet the writer has received the whole
    standard output of the process (once, for a stream that the writer
    holds once and that stderr does not also write to): what was captured
    is dropped from the result only. *)
Theorem Output_tees_on_failure h b st bld c o w :
  builders st !! b = Some bld -> cmds st !! cmd bld = Some c ->
  unlaunched c ->
  valid_writer st (exec.Stdout c) -> valid_writer st (exec.Stderr c) ->
  exec.Stdout c = Some w ->
  create h st c = inr o -> exec.status o <> 0%Z ->
  exists st',
    CmdBuilder.Output h b st
    = Some (([], Some (exec.ExitError (exec.status o))), st') /\
    forall s,
      s ∈ io.members w -> NoDup (io.members w) ->
      s ∉ default [] (io.members <$> exec.Stderr c) ->
      received st' s = received st s ++ exec.stdout o.
Proof.
  intros Hb Hc Hun Hvo Hve Hw Hcr Hst.
  destruct (run_Output h b st bld c Hb Hc Hun Hvo Hve)
    as (st' & Hout & _ & _ & Hsame).
  unfold output_result, run_streams, exit_error in *. rewrite Hcr in *.
  apply Z.eqb_neq in Hst. rewrite Hst in Hout.
  exists st'. split; [exact Hout|].
  intros s Hin Hnd Hnot. rewrite Hw in Hvo, Hsame. cbn in Hvo.
  assert (valid_stream st s) as Hs.
  { rewrite Forall_forall in Hvo. by apply Hvo. }
  rewrite (Hsame s Hs).
  assert (forall x, received (deliver (exec.Stderr c) (exec.stderr o) x) s
                    = received x s) as ->.
  { intros x. destruct (exec.Stderr c); [|done].
    by apply received_writes_other. }
  by apply received_writes_once.
Qed.

Lemma Output_tees_on_failure_witness :
  (exists bld c o,
     builders (snd demo_failing_tee) !! fst demo_failing_tee = Some bld /\
     cmds (snd demo_failing_tee) !! cmd bld = Some c /\
     unlaunched c /\
     valid_writer (snd demo_failing_tee) (exec.Stdout c) /\
     valid_writer (snd demo_failing_tee) (exec.Stderr c) /\
     exec.Stdout c = Some (io.Plain (io.Buffer 0)) /\
     create demo_host (snd demo_failing_tee) c = inr o /\
     exec.status o = 1%Z /\ exec.stdout o = go "partial") /\
  exists st',
    CmdBuilder.Output demo_host (fst demo_failing_tee) (snd demo_failing_tee)
    = Some (([], Some (exec.ExitError 1)), st') /\
    received st' (io.Buffer 0) = go "partial".
Proof.
  split.
  { eexists _, _, _. split; [reflexivity|]. split; [reflexivity|].
    split; [repeat split|]. split; [repeat constructor|].
    split; [repeat constructor|]. split; [reflexivity|].
    split; [reflexivity|]. repeat split. }
  edestruct (Output_tees_on_failure demo_host (fst demo_failing_tee)
               (snd demo_failing_tee)) as (st' & Hout & Htee);
    [reflexivity|reflexivity|repeat split|repeat constructor
    |repeat constructor|reflexivity|reflexivity|discriminate|].
  exists st'. split; [exact Hout|].
  rewrite (Htee (io.Buffer 0)); [reflexivity|..].
  - by apply list_elem_of_singleton.
  - apply NoDup_singleton.
  - cbn. intros Hin%list_elem_of_singleton. discriminate.
Defined.

(** X9: [Output] changes the configuration of the command: after it, for
    a command that had not been launched, the stdout of the command is a
    writer over the streams of the writer it had (none when it was nil)
    followed by a buffer that the call allocated, whether the run
    succeeded or not; path, arguments, directory, environment and stdin
    are as before, and so is stderr unless it was nil. *)
Theorem Output_rewires_stdout h b st bld c :
  builders st !! b = Some bld -> cmds st !! cmd bld = Some c ->
  unlaunched c ->
  exists r st' c' w',
    CmdBuilder.Output h b st = Some (r, st') /\
    command st' b = Some c' /\
    exec.Stdout c' = Some w' /\
    io.members w' = capture (exec.Stdout c) (length (buffers st)) /\
    ~ valid_stream st (io.Buffer (length (buffers st))) /\
    exec.Path c' = exec.Path c /\ exec.Args c' = exec.Args c /\
    exec.Dir c' = exec.Dir c /\ exec.Env c' = exec.Env c /\
    exec.Stdin c' = exec.Stdin c /\
    (exec.Stderr c <> None -> exec.Stderr c' = exec.Stderr c).
Proof.
  intros Hb Hc Hun.
  destruct (run_Output_final h b st bld c Hb Hc Hun)
    as (r & st' & Hout & _ & Hbs & Hcs).
  set (nb := length (buffers st)) in *.
  set (cf := finished h _ (prepared c nb)) in *.
  destruct (prepared_Stdout c nb) as (w' & Hw' & Hm).
  destruct (finished_fields h (prepared_store st (cmd bld) c) (prepared c nb))
    as (H1 & H2 & H3 & H4 & H5 & H6 & H7).
  destruct (prepared_fields c nb) as (P1 & P2 & P3 & P4 & P5 & _).
  exists r, st', cf, w'. split_and!; try done.
  - unfold command. rewrite Hbs, Hb. cbn. rewrite Hcs.
    by eapply lookup_insert_same.
  - unfold cf. by rewrite H6.
  - cbn. unfold nb. lia.
  - unfold cf. by rewrite H1.
  - unfold cf. by rewrite H2.
  - unfold cf. by rewrite H4.
  - unfold cf. by rewrite H3.
  - unfold cf. by rewrite H5.
  - intros Hne. unfold cf. rewrite H7. by apply prepared_Stderr.
Qed.

Lemma Output_rewires_stdout_witness :
  (exists bld c,
     builders (snd demo_tee) !! fst demo_tee = Some bld /\
     cmds (snd demo_tee) !! cmd bld = Some c /\ unlaunched c /\
     exec.Stdout c = Some (io.Plain (io.Buffer 0)) /\
     length (buffers (snd demo_tee)) = 1) /\
  exists r st' c' w',
    CmdBuilder.Output demo_host (fst demo_tee) (snd demo_tee)
    = Some (r, st') /\
    command st' (fst demo_tee) = Some c' /\
    exec.Stdout c' = Some w' /\
    io.members w' = [io.Buffer 0; io.Buffer 1].
Proof.
  split.
  { eexists _, _. split; [reflexivity|]. split; [reflexivity|].
    split; [repeat split|]. repeat split. }
  edestruct (Output_rewires_stdout demo_host (fst demo_tee)
               (snd demo_tee))
    as (r & st' & c' & w' & Hout & Hcmd & Hw & Hm & _);
    [reflexivity|reflexivity|repeat split|].
  exists r, st', c', w'. split_and!; [exact Hout|exact Hcmd|exact Hw|].
  rewrite Hm. reflexivity.
Defined.

(** ** From the constructor to the process *)

Lemma initial_resolve h name args env :
  exec.Path (initial h name args env) = fst (resolve h name) /\
  exec.Err (initial h name args env) = snd (resolve h name).
Proof. done. Qed.

(** The builder and the command [Cmd] returns. *)
Lemma run_Cmd_command h name args st :
  exists st0,
    Cmd h name args st = Some (length (builders st), st0) /\
    builders st0 !! length (builders st)
    = Some {| cmd := length (cmds st) |} /\
    cmds st0 !! length (cmds st)
    = Some (initial h name args (environ_slice h (length (arrays st)))) /\
    valid_slice st0 (environ_slice h (length (arrays st))) /\
    elems st0 (environ_slice h (length (arrays st))) = environment h /\
    buffers st0 = buffers st /\ files st0 = files st.
Proof.
  eexists. split; [apply run_Cmd|].
  match goal with |- context [builders ?s !! _] => set (st0 := s) end.
  destruct (environ_slice_valid h st0 (length (arrays st))) as [Hv Hel].
  { unfold st0. cbn. apply lookup_snoc. }
  split_and!; try done; unfold st0; cbn; apply lookup_snoc.
Qed.

Lemma received_same_cells st st' s :
  buffers st' = buffers st -> files st' = files st ->
  received st' s = received st s.
Proof. intros Hb Hf. destruct s; cbn; by rewrite ?Hb, ?Hf. Qed.

Lemma valid_stream_same_cells st st' s :
  buffers st' = buffers st -> valid_stream st s -> valid_stream st' s.
Proof. intros Hb. destruct s; cbn; by rewrite ?Hb. Qed.

(** X10: the chain [Cmd(name, args...).Dir(dir).Env(vars...).Output()],
    on a host where the name resolves to a path: the process is created
    from that path with [name] and [args] as its arguments, in [dir], with
    the environment list of the calling process followed by [vars] as its
    environment list, and with no standard input.  [Output] returns its trimmed standard output when it
    exits with status 0 and the empty string with the exit error
    otherwise; what it writes to its standard error goes to [os.Stderr],
    and no other stream that existed receives anything. *)
Theorem Cmd_Dir_Env_Output h name args dir vars st o :
  snd (resolve h name) = None -> fst (resolve h name) <> [] ->
  StartProcess h (fst (resolve h name)) (name :: args) dir
    (environment h ++ vars) None = inr o ->
  exists st',
    (b ← Cmd h name args; b ← CmdBuilder.Dir b dir;
     b ← CmdBuilder.Env h b vars; CmdBuilder.Output h b) st
    = Some ((if (exec.status o =? 0)%Z
             then (strings.TrimSpace (exec.stdout o), None)
             else ([], Some (exec.ExitError (exec.status o)))), st') /\
    received st' (io.File 2) = received st (io.File 2) ++ exec.stderr o /\
    forall s, valid_stream st s -> s <> io.File 2 ->
              received st' s = received st s.
Proof.
  intros Herr Hpath Hsp.
  destruct (run_Cmd_command h name args st)
    as (st0 & Hcmd & Hb0 & Hc0 & Hv0 & Hel0 & Hbuf0 & Hf0).
  set (b0 := length (builders st)) in *.
  set (bld := {| cmd := length (cmds st) |}) in *.
  set (c0 := initial h name args _) in *.
  pose proof (run_configure1_closed h b0 (SetDir dir) st0 bld c0 Hb0 Hc0)
    as Hdir.
  cbn [configure1 configured fst snd field_update] in Hdir.
  set (c1 := exec.set_Dir dir c0) in *.
  set (st1 := set_cmds (<[cmd bld := c1]> (cmds st0)) st0) in *.
  destruct (run_Env h b0 vars st1 bld c1)
    as (env' & st2 & Henv & Hcs2 & Hbs2 & Hbuf2 & Hf2 & Hel2 & Hv2 & _).
  { exact Hb0. }
  { unfold st1. cbn. by eapply lookup_insert_same. }
  { exact Hv0. }
  set (c2 := exec.set_Env env' c1) in *.
  assert (builders st2 !! b0 = Some bld) as Hb2 by (by rewrite Hbs2).
  assert (cmds st2 !! cmd bld = Some c2) as Hc2.
  { rewrite Hcs2. unfold st1. cbn. eapply lookup_insert_same.
    by eapply lookup_insert_same. }
  destruct (run_Output h b0 st2 bld c2 Hb2 Hc2) as (st' & Hout & Hsame).
  { repeat split. }
  { exact I. }
  { repeat constructor. }
  assert (create h st2 c2 = inr o) as Hcr.
  { unfold create.
    change (exec.Path c2) with (fst (resolve h name)).
    change (exec.Err c2) with (snd (resolve h name)).
    rewrite Herr, (bool_decide_eq_false_2 _ Hpath). cbn [andb].
    change (exec.Env c2) with env'. rewrite Hel2.
    change (elems st1 (exec.Env c1))
      with (elems st0 (environ_slice h (length (arrays st)))).
    rewrite Hel0. exact Hsp. }
  unfold output_result, run_streams, exit_error in *. rewrite Hcr in *.
  exists st'. split_and!.
  - rewrite run_bind, Hcmd. cbv beta iota.
    rewrite run_bind, Hdir. cbv beta iota.
    rewrite run_bind, Henv. cbv beta iota. rewrite Hout.
    by destruct (exec.status o =? 0)%Z.
  - destruct Hsame as (_ & _ & Hsame).
    rewrite (Hsame (io.File 2) I).
    change (exec.Stderr c2) with (Some os.Stderr).
    change (exec.Stdout c2) with (@None io.Writer).
    cbn [deliver io.members os.Stderr foldl].
    rewrite received_write_same by done. f_equal.
    rewrite (received_same_cells st1 st2) by done.
    by apply received_same_cells.
  - intros s Hs Hne. destruct Hsame as (_ & _ & Hsame).
    assert (valid_stream st2 s) as Hs2.
    { apply (valid_stream_same_cells st1); [done|].
      by apply (valid_stream_same_cells st). }
    rewrite (Hsame s Hs2).
    change (exec.Stderr c2) with (Some os.Stderr).
    change (exec.Stdout c2) with (@None io.Writer).
    cbn [deliver io.members os.Stderr foldl].
    rewrite received_write_other by done.
    rewrite (received_same_cells st1 st2) by done.
    by apply received_same_cells.
Qed.

Lemma Cmd_Dir_Env_Output_witness :
  (snd (resolve demo_host (go "sh")) = None /\
   fst (resolve demo_host (go "sh")) = go "/bin/sh" /\
   StartProcess demo_host (go "/bin/sh")
     [go "sh"; go "-c"; go " hi " ++ [LF]] (go "/srv")
     (environment demo_host ++ [go "A=1"]) None
   = inr {| exec.stdout := go " hi " ++ [LF]; exec.stderr := [];
            exec.status := 0 |}) /\
  exists st',
    (b ← Cmd demo_host (go "sh") [go "-c"; go " hi " ++ [LF]];
     b ← CmdBuilder.Dir b (go "/srv");
     b ← CmdBuilder.Env demo_host b [go "A=1"];
     CmdBuilder.Output demo_host b) demo_store
    = Some ((go "hi", None), st').
Proof.
  split; [split_and!; reflexivity|].
  edestruct (Cmd_Dir_Env_Output demo_host (go "sh")
               [go "-c"; go " hi " ++ [LF]] (go "/srv") [go "A=1"]
               demo_store) as (st' & Hrun & _);
    [reflexivity|discriminate|reflexivity|].
  exists st'. exact Hrun.
Defined.





(** ** Lines, from what Output returns *)

Lemma run_Lines_text h b st output st' :
  CmdBuilder.Output h b st = Some ((output, None), st') ->
  CmdBuilder.Lines h b st
  = Some ((strings.Split (crlf_to_lf output) [LF], None), st').
Proof.
  intros Hout. rewrite (run_Lines _ _ _ _ _ Hout).
  unfold lines_result. cbn. by rewrite ReplaceAll_crlf.
Qed.

(** What [Output] returns with no error is the result of a
    [TrimSpace]. *)
Lemma Output_text_trimmed h b st output st' :
  CmdBuilder.Output h b st = Some ((output, None), st') ->
  exists raw, output = strings.TrimSpace raw.
Proof.
  destruct (builders st !! b) as [bld|] eqn:Hb.
  2:{ unfold CmdBuilder.Output, getBuilder. mrun. by rewrite Hb. }
  destruct (cmds st !! cmd bld) as [c|] eqn:Hc.
  2:{ unfold CmdBuilder.Output.
      rewrite run_bind, (run_getBuilder _ _ _ Hb), run_bind.
      unfold getCmd. mrun. by rewrite Hc. }
  rewrite (run_Output_via_Run h b st bld c Hb Hc).
  destruct (os_exec.Run h (cmd bld) _) as [[[e|] st1]|]; try done.
  intros [= <- _]. by eexists.
Qed.

(** X13: when [Output] returns a text and no error, [Lines] returns that
    text cut at its line feeds: no string that [Lines] returns holds a
    line feed, and there is one string more than there are line feeds in
    the text, so always at least one. *)
Theorem Lines_cut_at_line_feeds h b st output st' :
  CmdBuilder.Output h b st = Some ((output, None), st') ->
  exists l ls,
    CmdBuilder.Lines h b st = Some ((l :: ls, None), st') /\
    Forall (fun x => LF ∉ x) (l :: ls) /\
    length (l :: ls) = S (count_byte LF output).
Proof.
  intros Hout. rewrite (run_Lines_text _ _ _ _ _ Hout).
  destruct (Split_byte LF (crlf_to_lf output))
    as (l & ls & -> & _ & Hall & Hlen).
  exists l, ls. split_and!; [done|done|].
  cbn [length]. by rewrite Hlen, count_LF_crlf_to_lf.
Qed.

Lemma Lines_cut_at_line_feeds_witness :
  exists output st',
    CmdBuilder.Output demo_host (fst demo_two_lines) (snd demo_two_lines)
    = Some ((output, None), st') /\
    count_byte LF output = 1 /\
    exists l ls,
      CmdBuilder.Lines demo_host (fst demo_two_lines) (snd demo_two_lines)
      = Some ((l :: ls, None), st') /\
      length (l :: ls) = 2.
Proof.
  destruct (CmdBuilder.Output demo_host (fst demo_two_lines)
              (snd demo_two_lines)) as [[[output [e|]] st']|] eqn:Hout;
    [vm_compute in Hout; discriminate Hout| |vm_compute in Hout;
     discriminate Hout].
  destruct (Lines_cut_at_line_feeds _ _ _ _ _ Hout)
    as (l & ls & Hlines & _ & Hlen).
  assert (count_byte LF output = 1) as Hcount.
  { vm_compute in Hout. by injection Hout as <- _. }
  exists output, st'. split_and!; [done|done|].
  exists l, ls. split; [exact Hlines|]. by rewrite Hlen, Hcount.
Defined.

(** X14: when [Output] returns a text and no error, the strings [Lines]
    returns, joined by line feeds, are that text with each carriage return
    that a line feed follows removed, in one pass from the left (of two
    carriage returns before a line feed the first one stays, and so does
    any that no line feed follows): the joined text is shorter than the
    text by the number of pairs, and it is the text itself when that holds
    no carriage return. *)
Theorem Lines_joined h b st output st' :
  CmdBuilder.Output h b st = Some ((output, None), st') ->
  exists ls,
    CmdBuilder.Lines h b st = Some ((ls, None), st') /\
    joined [LF] ls = crlf_to_lf output /\
    length (joined [LF] ls) + count_crlf output = length output /\
    (CR ∉ output -> joined [LF] ls = output).
Proof.
  intros Hout. rewrite (run_Lines_text _ _ _ _ _ Hout).
  destruct (Split_byte LF (crlf_to_lf output))
    as (l & ls & -> & Hj & _ & _).
  exists (l :: ls). split_and!; [done|done| |].
  - rewrite Hj. apply length_crlf_to_lf.
  - intros Hno. by rewrite Hj, crlf_to_lf_no_CR.
Qed.

Lemma Lines_joined_witness :
  exists output st',
    CmdBuilder.Output demo_host (fst demo_stray_CR) (snd demo_stray_CR)
    = Some ((output, None), st') /\
    output = go "a" ++ [CR; CR; LF] ++ go "b" /\
    exists ls,
      CmdBuilder.Lines demo_host (fst demo_stray_CR) (snd demo_stray_CR)
      = Some ((ls, None), st') /\
      joined [LF] ls = go "a" ++ [CR; LF] ++ go "b".
Proof.
  destruct (CmdBuilder.Output demo_host (fst demo_stray_CR)
              (snd demo_stray_CR)) as [[[output [e|]] st']|] eqn:Hout;
    [vm_compute in Hout; discriminate Hout| |vm_compute in Hout;
     discriminate Hout].
  destruct (Lines_joined _ _ _ _ _ Hout) as (ls & Hlines & Hj & _).
  assert (output = go "a" ++ [CR; CR; LF] ++ go "b") as Houtput.
  { vm_compute in Hout. by injection Hout as <- _. }
  exists output, st'. split_and!; [done|done|].
  exists ls. split; [exact Hlines|]. by rewrite Hj, Houtput.
Defined.

(** X15: the text [Output] returns with no error neither starts nor ends
    with white space, whatever the builder and the process; so the first
    string [Lines] returns does not start with white space and the last
    one does not end with white space. *)
Theorem Lines_ends_trimmed h b st output st' :
  CmdBuilder.Output h b st = Some ((output, None), st') ->
  ~ starts_with_space output /\ ~ ends_with_space output /\
  exists l ls,
    CmdBuilder.Lines h b st = Some ((l :: ls, None), st') /\
    ~ starts_with_space l /\
    forall x, last (l :: ls) = Some x -> ~ ends_with_space x.
Proof.
  intros Hout. destruct (Output_text_trimmed _ _ _ _ _ Hout) as [raw ->].
  destruct (TrimSpace_trimmed raw) as (pre & post & _ & _ & _ & Hns & Hne).
  set (t := strings.TrimSpace raw) in *.
  split; [done|]. split; [done|].
  rewrite (run_Lines_text _ _ _ _ _ Hout).
  destruct (Split_byte LF (crlf_to_lf t)) as (l & ls & -> & Hj & _ & _).
  exists l, ls. split_and!; [done| |].
  - intros (r & rest & Hr & ->). apply Hns, starts_crlf_to_lf.
    rewrite <- Hj, joined_cons, <- app_assoc. by eexists r, _.
  - intros x Hlast (r & init & Hr & ->). apply Hne, ends_crlf_to_lf.
    destruct (joined_last [LF] _ _ Hlast) as [init' Hinit].
    rewrite <- Hj, Hinit, app_assoc. by eexists r, _.
Qed.

Lemma Lines_ends_trimmed_witness :
  exists output st',
    CmdBuilder.Output demo_host (fst demo_two_lines) (snd demo_two_lines)
    = Some ((output, None), st') /\
    ~ ends_with_space output /\
    exists l ls,
      CmdBuilder.Lines demo_host (fst demo_two_lines) (snd demo_two_lines)
      = Some ((l :: ls, None), st') /\
      ~ starts_with_space l.
Proof.
  destruct (CmdBuilder.Output demo_host (fst demo_two_lines)
              (snd demo_two_lines)) as [[[output [e|]] st']|] eqn:Hout;
    [vm_compute in Hout; discriminate Hout| |vm_compute in Hout;
     discriminate Hout].
  destruct (Lines_ends_trimmed _ _ _ _ _ Hout)
    as (_ & Hne & l & ls & Hlines & Hns & _).
  exists output, st'. split_and!; [done|done|].
  exists l, ls. by split.
Defined.

(** X16: [Output] returns the one trimmed form of the standard output: for
    a process that succeeds and writes white space, then a text that
    neither starts nor ends with white space, then white space, [Output]
    returns that text; it returns the standard output unchanged exactly
    when this neither starts nor ends with white space. *)
Theorem Output_unique_trimmed h b st bld c o t :
  builders st !! b = Some bld -> cmds st !! cmd bld = Some c ->
  unlaunched c ->
  valid_writer st (exec.Stdout c) -> valid_writer st (exec.Stderr c) ->
  create h st c = inr o -> exec.status o = 0%Z ->
  trimmed (exec.stdout o) t ->
  exists st',
    CmdBuilder.Output h b st = Some ((t, None), st') /\
    (t = exec.stdout o
     <-> ~ starts_with_space (exec.stdout o)
         /\ ~ ends_with_space (exec.stdout o)).
Proof.
  intros Hb Hc Hun Hvo Hve Hcr Hst Ht.
  destruct (run_Output_success h b st bld c o Hb Hc Hun Hvo Hve Hcr Hst)
    as (st' & Hout & _).
  exists st'. rewrite Hout, (TrimSpace_unique _ _ Ht). split; [done|].
  rewrite <- (TrimSpace_unique _ _ Ht). apply TrimSpace_fixed.
Qed.

Lemma Output_unique_trimmed_witness :
  (exists bld c o,
     builders (snd demo_tee) !! fst demo_tee = Some bld /\
     cmds (snd demo_tee) !! cmd bld = Some c /\
     unlaunched c /\
     valid_writer (snd demo_tee) (exec.Stdout c) /\
     valid_writer (snd demo_tee) (exec.Stderr c) /\
     create demo_host (snd demo_tee) c = inr o /\
     exec.status o = 0%Z /\
     trimmed (exec.stdout o) (go "hello")) /\
  exists st',
    CmdBuilder.Output demo_host (fst demo_tee) (snd demo_tee)
    = Some ((go "hello", None), st').
Proof.
  assert (trimmed (go "hello" ++ [LF]) (go "hello")) as Ht.
  { exists [], (encode 10). split_and!.
    - reflexivity.
    - constructor.
    - by apply whitespace_encode.
    - by apply not_starts_ascii.
    - by apply (not_ends_ascii (go "hell") "o"%char). }
  split.
  { eexists _, _, _. split; [reflexivity|]. split; [reflexivity|].
    split; [repeat split|]. split; [repeat constructor|].
    split; [repeat constructor|]. split; [reflexivity|].
    split; [reflexivity|]. exact Ht. }
  edestruct (Output_unique_trimmed demo_host (fst demo_tee) (snd demo_tee))
    as (st' & Hout & _);
    [reflexivity|reflexivity|repeat split|repeat constructor
    |repeat constructor|reflexivity|reflexivity|exact Ht|].
  exists st'. exact Hout.
Defined.

(** ** Builders of one factory, run *)

Lemma elems_same_arrays st st' t :
  arrays st' = arrays st -> elems st' t = elems st t.
Proof. intros Ha. unfold elems. by rewrite Ha. Qed.

(** What a command whose stdout is the stream [s] and whose stderr is
    [os.Stderr] leaves in [s] when it is run. *)
Lemma run_streams_plain h st c o s :
  create h st c = inr o ->
  exec.Stdout c = Some (io.Plain s) -> exec.Stderr c = Some os.Stderr ->
  valid_stream st s -> s <> io.File 2 ->
  received (run_streams h st c) s = received st s ++ exec.stdout o.
Proof.
  intros Hcr Hout Herr Hs Hne. unfold run_streams.
  rewrite Hcr, Hout, Herr. cbn [deliver io.members os.Stderr foldl].
  rewrite received_write_other by done.
  by rewrite received_write_same.
Qed.

(** X17: the builders of one factory share the streams of the factory.
    With a stream as the factory's stdout (and the default stderr), two
    builders made by the factory and then run, each process being created,
    leave in that stream what it held, then the standard output of the
    first process, then that of the second; each process is created in the
    factory's directory, with the environment of the calling process
    followed by the factory's entries, and with the factory's stdin.  The
    environment of the factory is a well-formed slice, as the nil slice is
    in every store. *)
Theorem factory_shares_stdout h f st s n1 a1 n2 a2 o1 o2 :
  valid_slice st (Env (Options f)) ->
  Stdout (Options f) = Some (io.Plain s) -> valid_stream st s ->
  Stderr (Options f) = None -> s <> io.File 2 ->
  snd (resolve h n1) = None -> fst (resolve h n1) <> [] ->
  snd (resolve h n2) = None -> fst (resolve h n2) <> [] ->
  StartProcess h (fst (resolve h n1)) (n1 :: a1) (Dir (Options f))
    (environment h ++ elems st (Env (Options f))) (Stdin (Options f))
  = inr o1 ->
  StartProcess h (fst (resolve h n2)) (n2 :: a2) (Dir (Options f))
    (environment h ++ elems st (Env (Options f))) (Stdin (Options f))
  = inr o2 ->
  exists st',
    (b1 ← CmdFactory.Cmd h f n1 a1; b2 ← CmdFactory.Cmd h f n2 a2;
     e1 ← CmdBuilder.Run h b1; e2 ← CmdBuilder.Run h b2; mret (e1, e2)) st
    = Some ((exit_error o1, exit_error o2), st') /\
    received st' s = received st s ++ exec.stdout o1 ++ exec.stdout o2.
Proof.
  intros Hv Hout Hs Herr Hne He1 Hp1 He2 Hp2 Hsp1 Hsp2.
  set (fenv := Env (Options f)) in *.
  destruct (run_factory_Cmd h f n1 a1 st Hv)
    as (env1 & st1 & Hrun1 & Hbs1 & Hcs1 & [new1 Ha1] & Hbuf1 & Hf1 & Hel1
        & Hv1 & _).
  destruct (valid_slice_grow st st1 fenv new1 Ha1 Hv) as [Hvf1 Helf1].
  destruct (run_factory_Cmd h f n2 a2 st1 Hvf1)
    as (env2 & st2 & Hrun2 & Hbs2 & Hcs2 & [new2 Ha2] & Hbuf2 & Hf2 & Hel2
        & Hv2 & _).
  destruct (valid_slice_grow st1 st2 env1 new2 Ha2 Hv1) as [_ Hel12].
  fold fenv in Hel1, Hel2.
  set (c1 := stamp (Options f) _ env1) in Hcs1.
  set (c2 := stamp (Options f) _ env2) in Hcs2.
  set (bld1 := {| cmd := length (cmds st) |}) in *.
  set (bld2 := {| cmd := length (cmds st1) |}) in *.
  assert (builders st2 !! length (builders st) = Some bld1) as Hb1.
  { rewrite Hbs2, Hbs1. apply lookup_app_l_Some, lookup_snoc. }
  assert (builders st2 !! length (builders st1) = Some bld2) as Hb2.
  { rewrite Hbs2. apply lookup_snoc. }
  assert (cmds st2 !! cmd bld1 = Some c1) as Hc1.
  { rewrite Hcs2, Hcs1. apply lookup_app_l_Some, lookup_snoc. }
  assert (cmds st2 !! cmd bld2 = Some c2) as Hc2.
  { rewrite Hcs2. apply lookup_snoc. }
  assert (cmd bld1 <> cmd bld2) as Hp.
  { cbn. rewrite Hcs1, length_app. cbn. lia. }
  assert (forall n a env, exec.Dir (stamp (Options f)
                            (initial h n a (environ_slice h
                               (length (arrays st)))) env)
                          = Dir (Options f)) as Hdir.
  { intros n a env. cbn. case_bool_decide as Hd; [done|].
    destruct (Dir (Options f)); [done|]. by destruct Hd. }
  assert (forall k n a env, exec.Dir (stamp (Options f)
                              (initial h n a (environ_slice h k)) env)
                            = Dir (Options f)) as Hdir'.
  { intros k n a env. cbn. case_bool_decide as Hd; [done|].
    destruct (Dir (Options f)); [done|]. by destruct Hd. }
  assert (exec.Stdout c1 = Some (io.Plain s)
          /\ exec.Stderr c1 = Some os.Stderr
          /\ exec.Stdout c2 = Some (io.Plain s)
          /\ exec.Stderr c2 = Some os.Stderr) as (Ho1 & Hr1 & Ho2 & Hr2).
  { unfold c1, c2. cbn. by rewrite Hout, Herr. }
  (* the first run *)
  assert (create h st2 c1 = inr o1) as Hcr1.
  { unfold create.
    change (exec.Path c1) with (fst (resolve h n1)).
    change (exec.Err c1) with (snd (resolve h n1)).
    rewrite He1, (bool_decide_eq_false_2 _ Hp1). cbn [andb].
    change (exec.Env c1) with env1. rewrite Hel12, Hel1.
    unfold c1. rewrite Hdir'. cbn [exec.Args exec.Stdin stamp initial].
    by destruct (Stdin (Options f)). }
  pose proof (run_Run_final h (cmd bld1) st2 c1 Hc1 (conj eq_refl (conj eq_refl eq_refl)))
    as Hr1run.
  unfold run_error in Hr1run. rewrite Hcr1 in Hr1run.
  set (st3 := set_cmds _ (run_streams h st2 c1)) in Hr1run.
  destruct (run_streams_fields h st2 c1) as (Hbs3 & Ha3 & Hlen3).
  assert (valid_stream st2 s) as Hs2.
  { apply (valid_stream_same_cells st1); [done|].
    by apply (valid_stream_same_cells st). }
  assert (received st3 s = received st s ++ exec.stdout o1) as Hrec3.
  { unfold st3. rewrite received_set_cmds.
    rewrite (run_streams_plain h st2 c1 o1 s) by done. f_equal.
    rewrite (received_same_cells st1 st2) by done.
    by apply received_same_cells. }
  (* the second run *)
  assert (cmds st3 !! cmd bld2 = Some c2) as Hc23.
  { unfold st3. cbn. by rewrite list_lookup_insert_ne. }
  assert (create h st3 c2 = inr o2) as Hcr2.
  { unfold create.
    change (exec.Path c2) with (fst (resolve h n2)).
    change (exec.Err c2) with (snd (resolve h n2)).
    rewrite He2, (bool_decide_eq_false_2 _ Hp2). cbn [andb].
    change (exec.Env c2) with env2.
    rewrite (elems_same_arrays st2 st3) by exact Ha3.
    rewrite Hel2, Helf1.
    unfold c2. rewrite Hdir'. cbn [exec.Args exec.Stdin stamp initial].
    by destruct (Stdin (Options f)). }
  pose proof (run_Run_final h (cmd bld2) st3 c2 Hc23 (conj eq_refl (conj eq_refl eq_refl)))
    as Hr2run.
  unfold run_error in Hr2run. rewrite Hcr2 in Hr2run.
  assert (valid_stream st3 s) as Hs3.
  { destruct s as [fd|bf]; [done|]. cbn in *. unfold st3. cbn. lia. }
  eexists. split.
  - rewrite run_bind, Hrun1. cbv beta iota.
    rewrite run_bind, Hrun2. cbv beta iota.
    rewrite run_bind. unfold CmdBuilder.Run at 1.
    rewrite run_bind, (run_getBuilder _ _ _ Hb1), Hr1run. cbv beta iota.
    rewrite run_bind. unfold CmdBuilder.Run.
    rewrite run_bind, (run_getBuilder _ st3 bld2);
      [|unfold st3; cbn; rewrite Hbs3; exact Hb2].
    rewrite Hr2run. reflexivity.
  - rewrite received_set_cmds.
    rewrite (run_streams_plain h st3 c2 o2 s) by done.
    by rewrite Hrec3, <- app_assoc.
Qed.

(** On the example store with the example factory, and on a store in
    which nothing is allocated yet with the factory of the README, whose
    environment is the nil slice and whose stdout is [os.Stdout]. *)
Lemma factory_shares_stdout_witness :
  ((valid_slice demo_store (Env (Options demo_factory)) /\
    Stdout (Options demo_factory) = Some (io.Plain (io.Buffer 0)) /\
    valid_stream demo_store (io.Buffer 0) /\
    Stderr (Options demo_factory) = None /\
    StartProcess demo_host (go "/bin/sh") [go "sh"; go "-c"; go "one"]
      (go "/tmp")
      [go "PATH=/bin"; go "SHELL=/bin/sh"; go "LANG=C"; go "TERM=dumb"] None
    = inr {| exec.stdout := go "one"; exec.stderr := [];
             exec.status := 0 |} /\
    StartProcess demo_host (go "/bin/false") [go "false"] (go "/tmp")
      [go "PATH=/bin"; go "SHELL=/bin/sh"; go "LANG=C"; go "TERM=dumb"] None
    = inr {| exec.stdout := go "partial"; exec.stderr := go "failed";
             exec.status := 1 |}) /\
   exists st',
     (b1 ← CmdFactory.Cmd demo_host demo_factory (go "sh")
             [go "-c"; go "one"];
      b2 ← CmdFactory.Cmd demo_host demo_factory (go "false") [];
      e1 ← CmdBuilder.Run demo_host b1; e2 ← CmdBuilder.Run demo_host b2;
      mret (e1, e2)) demo_store
     = Some ((None, Some (exec.ExitError 1)), st') /\
     received st' (io.Buffer 0) = go "onepartial") /\
  ((valid_slice empty_store (Env (Options readme_factory)) /\
    Stdout (Options readme_factory) = Some os.Stdout /\
    Stderr (Options readme_factory) = None /\
    StartProcess demo_host (go "/bin/sh") [go "sh"; go "-c"; go "one"]
      (go "/srv/infra") [go "PATH=/bin"; go "SHELL=/bin/sh"] None
    = inr {| exec.stdout := go "one"; exec.stderr := [];
             exec.status := 0 |} /\
    StartProcess demo_host (go "/bin/false") [go "false"] (go "/srv/infra")
      [go "PATH=/bin"; go "SHELL=/bin/sh"] None
    = inr {| exec.stdout := go "partial"; exec.stderr := go "failed";
             exec.status := 1 |}) /\
   exists st',
     (b1 ← CmdFactory.Cmd demo_host readme_factory (go "sh")
             [go "-c"; go "one"];
      b2 ← CmdFactory.Cmd demo_host readme_factory (go "false") [];
      e1 ← CmdBuilder.Run demo_host b1; e2 ← CmdBuilder.Run demo_host b2;
      mret (e1, e2)) empty_store
     = Some ((None, Some (exec.ExitError 1)), st') /\
     received st' (io.File 1) = go "onepartial").
Proof.
  split.
  - split.
    { split_and!; try reflexivity; vm_compute; lia. }
    edestruct (factory_shares_stdout demo_host demo_factory demo_store
                 (io.Buffer 0) (go "sh") [go "-c"; go "one"] (go "false") [])
      as (st' & Hrun & Hrec);
      [vm_compute; lia|reflexivity|vm_compute; lia|reflexivity|discriminate
      |reflexivity|discriminate|reflexivity|discriminate
      |reflexivity|reflexivity|].
    exists st'. split; [exact Hrun|exact Hrec].
  - split.
    { split_and!; try reflexivity; vm_compute; lia. }
    edestruct (factory_shares_stdout demo_host readme_factory empty_store
                 (io.File 1) (go "sh") [go "-c"; go "one"] (go "false") [])
      as (st' & Hrun & Hrec);
      [vm_compute; lia|reflexivity|exact I|reflexivity|discriminate
      |reflexivity|discriminate|reflexivity|discriminate
      |reflexivity|reflexivity|].
    exists st'. split; [exact Hrun|exact Hrec].
Defined.
